(** * Metropolis-Hastings update of edward/inferences/metropolis_hastings.py

    [build_update] is Python code that assembles a TensorFlow graph: it
    manipulates dictionaries keyed by graph objects and symbolic tensors,
    and returns one grouped op.  Running that op is one step of the chain.
    The development follows the same two phases:

    - graph construction ([build_update]) is a function in a small
      state-and-exception monad over the default graph; Python lookups that
      can fail ([d[k]], [inputs[0]]) raise [KeyError]/[IndexError];
    - running the op ([run]) interprets the constructed tensors in a
      session (variable buffers, [t], [n_accept]) for one draw of the
      random ops. *)

From Stdlib Require Import List ZArith String Bool Arith Lia.
Import ListNotations.

Set Implicit Arguments.

(** ** Python objects and dictionaries *)

(** Objects used as dictionary keys.  Python hashes them by identity, so an
    object is its identifier together with what [isinstance] can see. *)
Inductive node : Type :=
| RandomVariable (id : nat)
| Placeholder (id : nat).

Definition isinstance_RandomVariable (x : node) : bool :=
  match x with
  | RandomVariable _ => true
  | Placeholder _ => false
  end.

Definition node_eqb (a b : node) : bool :=
  match a, b with
  | RandomVariable i, RandomVariable j => Nat.eqb i j
  | Placeholder i, Placeholder j => Nat.eqb i j
  | _, _ => false
  end.

(** A dictionary, as the list of its items in iteration order.  Assigning to
    an existing key keeps its position, a new key goes last. *)
Definition dict (V : Type) : Type := list (node * V).

Fixpoint dict_get {V} (d : dict V) (k : node) : option V :=
  match d with
  | [] => None
  | (k', v) :: d' => if node_eqb k k' then Some v else dict_get d' k
  end.

Fixpoint dict_set {V} (d : dict V) (k : node) (v : V) : dict V :=
  match d with
  | [] => [(k, v)]
  | (k', v') :: d' =>
      if node_eqb k k' then (k', v) :: d' else (k', v') :: dict_set d' k v
  end.

Definition dict_of_items {V} (items : list (node * V)) : dict V :=
  fold_left (fun d kv => dict_set d (fst kv) (snd kv)) items [].

(** [d.update(e)] *)
Definition dict_update {V} (d e : dict V) : dict V :=
  fold_left (fun d kv => dict_set d (fst kv) (snd kv)) e d.

Definition iterkeys {V} (d : dict V) : list node := map fst d.
Definition itervalues {V} (d : dict V) : list V := map snd d.

(** ** Exceptions and the graph-construction monad *)

Inductive exn : Type := KeyError | IndexError | ValueError.

Inductive result (A : Type) : Type :=
| Ok (a : A)
| Raise (e : exn).
Arguments Ok {A} a.
Arguments Raise {A} e.

(** The part of the default graph that [build_update] reads and extends: the
    names in the VARIABLES collection, and the sample tensors obtained so
    far through [.value()] / [.sample()]: the value of a copy, with the
    random variable it was copied from and the scope of the copy, or the
    sample of a new [Uniform()].  The position of a sample tensor in that
    list identifies it. *)
Inductive sample_op : Type :=
| ValueOf (org : node) (scope : string)
| UniformSample.

Definition has_scope (s : string) (o : sample_op) : bool :=
  match o with
  | ValueOf _ s' => String.eqb s' s
  | UniformSample => false
  end.

Record graph : Type := Graph {
  VARIABLES : list string;
  sample_ops : list sample_op
}.

Definition Build (A : Type) : Type := graph -> result (A * graph).

Definition ret {A} (a : A) : Build A := fun g => Ok (a, g).

Definition bind {A B} (m : Build A) (k : A -> Build B) : Build B :=
  fun g =>
    match m g with
    | Ok (a, g') => k a g'
    | Raise e => Raise e
    end.

Definition raise {A} (e : exn) : Build A := fun _ => Raise e.

Definition lift {A} (r : result A) : Build A :=
  fun g => match r with Ok a => Ok (a, g) | Raise e => Raise e end.

Declare Scope build_scope.
Delimit Scope build_scope with build.
Notation "x <- m ;; k" := (bind m (fun x => k))
  (at level 100, m at next level, right associativity) : build_scope.
Notation "' p <- m ;; k" := (bind m (fun x => let 'p := x in k))
  (at level 100, p pattern, m at next level, right associativity) : build_scope.
Local Open Scope build_scope.

(** A [for] loop that threads the variables it assigns. *)
Fixpoint for_each {A S} (body : S -> A -> Build S) (l : list A) (s : S)
  : Build S :=
  match l with
  | [] => ret s
  | a :: l' => s' <- body s a ;; for_each body l' s'
  end.

(** [d[k]] *)
Definition getitem {V} (d : dict V) (k : node) : Build V :=
  match dict_get d k with
  | Some v => ret v
  | None => raise KeyError
  end.

(** ** Graph objects *)

(** The tensor behind [qz.params], with the producers of its inputs:
    [h.op.inputs] is [inputs h], [h.name] is [name h]. *)
Inductive op_type : Type := VariableOp | IdentityOp | OtherOp (kind : nat).

#[warnings="-register-all"]
Inductive handle : Type :=
| Handle (name : string) (op : op_type) (inputs : list handle).

Definition name (h : handle) : string :=
  match h with Handle n _ _ => n end.
Definition op (h : handle) : op_type :=
  match h with Handle _ o _ => o end.
Definition inputs (h : handle) : list handle :=
  match h with Handle _ _ i => i end.

Record Empirical : Type := { params : handle }.

(** Integer tensors used as indices. *)
Inductive index : Type :=
| T
| IConst (c : Z)
| ISub (a b : index)
| IMaximum (a b : index).

Section Model.

Variable Val : Type.

(** Values of the data dictionary: another graph object, or a concrete
    array. *)
Inductive datum : Type :=
| Obj (qx : node)
| Array (v : Val).

Definition isinstance_RandomVariable_datum (qx : datum) : bool :=
  match qx with
  | Obj o => isinstance_RandomVariable o
  | Array _ => false
  end.

(** Symbolic tensors that [build_update] puts in its dictionaries. *)
#[warnings="-register-all"]
Inductive tensor : Type :=
| Gather (params : handle) (i : index)
    (* tf.gather(params, i) *)
| Constant (qx : datum)
    (* a data value used as it is *)
| Value (uid : nat) (org : node) (swap : list (node * tensor)) (scope : string).
    (* copy(org, swap, scope).value(), the uid-th sample tensor of the graph *)

(** Scalars added to or subtracted from the ratio. *)
Inductive scalar : Type :=
| LogProb (org : node) (swap : dict tensor) (scope : string) (x : tensor)
    (* tf.reduce_sum(copy(org, swap, scope).log_prob(x)) *)
| WrapperLogProb (wrapper : nat) (x : dict datum) (zs : dict tensor).
    (* model_wrapper.log_prob(x, zs) *)

Inductive ratio_exp : Type :=
| Zero
| Add (r : ratio_exp) (s : scalar)
| Sub (r : ratio_exp) (s : scalar).

(** [tf.log(u) < ratio] with [u] the [u_uid]-th sample tensor. *)
Record accept_exp : Type := Less_log {
  u_uid : nat;
  ratio_of : ratio_exp
}.

(** One output of [tf.cond(pred, fn1, fn2)]: the merge of the corresponding
    results of both branches. *)
Inductive merged : Type :=
| Merge (pred : accept_exp) (res_t res_f : tensor).

Inductive assign_op : Type :=
| ScatterUpdate (variable : string) (i : index) (updates : merged)
| AssignAdd_n_accept (pred : accept_exp) (if_true if_false : Z).
    (* n_accept.assign_add(tf.select(pred, if_true, if_false)) *)

Record MetropolisHastings : Type := {
  latent_vars : dict Empirical;
  proposal_vars : dict node;
  data : dict datum;
  model_wrapper : option nat
}.

(** *** The constructor

    [MonteCarlo.__init__] is defined in another module.  It runs on the
    object on which line 55 has set [proposal_vars], with the latent
    variables, the data and the wrapper as arguments, and either raises or
    leaves the object as the constructor returns it. *)
Section Init.

Variable MonteCarlo_init :
  dict node -> dict Empirical -> dict datum -> option nat ->
  result MetropolisHastings.


End Init.

(** *** Library operations used by [build_update] *)

(** [copy(org, swap, scope).value()]: a new sample tensor in the graph.
    [copy] is Edward's [edward.util.copy], defined in another module: it
    rebuilds [org] with the entries of [swap] substituted for the graph
    objects they are keyed by.  A copy whose value is taken is a tensor
    [Value]; a copy of which only [log_prob] is taken (lines 99, 106-107,
    115-116) is the term [LogProb] and adds no sample tensor. *)
Definition copy_value (org : node) (swap : dict tensor) (scope : string)
  : Build tensor :=
  fun g =>
    Ok (Value (List.length (sample_ops g)) org swap scope,
        {| VARIABLES := VARIABLES g;
           sample_ops := sample_ops g ++ [ValueOf org scope] |}).

(** [Uniform().sample()] *)
Definition uniform_sample : Build nat :=
  fun g =>
    Ok (List.length (sample_ops g),
        {| VARIABLES := VARIABLES g;
           sample_ops := sample_ops g ++ [UniformSample] |}).

(** What [tf.cond] hands back: a list of tensors, or the tensor itself when
    the branches return one result. *)
Inductive cond_result : Type :=
| OneTensor (x : merged)
| TensorList (xs : list merged).

(** [tf.cond(pred, fn1, fn2)] for branches that return the lists [res_t] and
    [res_f] of tensors defined outside the conditional.  TensorFlow raises
    ValueError when the branches return different numbers of results or
    none, merges the results pairwise, and returns the single merge itself
    when there is only one. *)
Definition merge_outputs (pred : accept_exp) (res_t res_f : list tensor)
  : list merged :=
  map (fun p => Merge pred (snd p) (fst p)) (combine res_f res_t).

Definition tf_cond (pred : accept_exp) (res_t res_f : list tensor)
  : Build cond_result :=
  if negb (Nat.eqb (List.length res_t) (List.length res_f)) then raise ValueError
  else
    match res_t with
    | [] => raise ValueError
    | _ =>
        let merges := merge_outputs pred res_t res_f in
        match merges with
        | [m] => ret (OneTensor m)
        | _ => ret (TensorList merges)
        end
    end.

(** Lines 130-132: a result that is not a list is wrapped in one. *)
Definition as_list (sample_values : cond_result) : list merged :=
  match sample_values with
  | TensorList xs => xs
  | OneTensor x => [x]
  end.

(** [h.op.inputs[0]] *)
Definition op_inputs_0 (h : handle) : result handle :=
  match inputs h with
  | x :: _ => Ok x
  | [] => Raise IndexError
  end.

(** [variables[n]] for
    [variables = {x.name: x for x in get_collection(VARIABLES)}]; a
    variable is identified by its name. *)
Definition variables_getitem (collection : list string) (n : string)
  : result string :=
  if existsb (String.eqb n) collection then Ok n else Raise KeyError.

(** [tf.get_default_graph().get_collection(tf.GraphKeys.VARIABLES)] *)
Definition get_collection_VARIABLES : Build (list string) :=
  fun g => Ok (VARIABLES g, g).

(** [variables[qz.params.op.inputs[0].op.inputs[0].name]] *)
Definition resolve_variable (variables : list string) (qz : Empirical)
  : result string :=
  match op_inputs_0 (params qz) with
  | Raise e => Raise e
  | Ok a =>
      match op_inputs_0 a with
      | Raise e => Raise e
      | Ok b => variables_getitem variables (name b)
      end
  end.

(** ** [build_update] *)

(** The local variables of [build_update] when it returns; [train] is the
    returned group of the assign ops. *)
Record frame : Type := Frame {
  old_sample : dict tensor;
  dict_swap : dict tensor;
  dict_swap_old : dict tensor;
  new_sample : dict tensor;
  dict_swap_new : dict tensor;
  ratio : ratio_exp;
  accept : accept_exp;
  sample : dict merged;
  train : list assign_op
}.

(** Lines 66-67. *)
Definition build_old_sample (latent_vars : dict Empirical) : dict tensor :=
  dict_of_items
    (map (fun zqz =>
            (fst zqz,
             Gather (params (snd zqz)) (IMaximum (ISub T (IConst 1)) (IConst 0))))
         latent_vars).

(** Lines 71-78. *)
Definition build_dict_swap (data : dict datum) : Build (dict tensor) :=
  for_each
    (fun dict_swap xqx =>
       let x := fst xqx in
       let qx := snd xqx in
       if isinstance_RandomVariable x then
         match qx with
         | Obj (RandomVariable _ as q) =>
             v <- copy_value q [] "conditional" ;;
             ret (dict_set dict_swap x v)
         | _ => ret (dict_set dict_swap x (Constant qx))
         end
       else ret dict_swap)
    data [].

(** Lines 84-92. *)
Definition forward_pass (proposal_vars : dict node) (dict_swap_old : dict tensor)
  : Build (dict tensor * ratio_exp) :=
  for_each
    (fun st zp =>
       let new_sample := fst st in
       let ratio := snd st in
       let z := fst zp in
       let proposal_z := snd zp in
       v <- copy_value proposal_z dict_swap_old "proposal_znew" ;;
       let new_sample := dict_set new_sample z v in
       x <- getitem new_sample z ;;
       ret (new_sample,
            Add ratio (LogProb proposal_z dict_swap_old "proposal_znew" x)))
    proposal_vars ([], Zero).

(** Lines 97-101. *)
Definition reverse_pass (proposal_vars : dict node)
  (dict_swap_old dict_swap_new : dict tensor) (ratio : ratio_exp)
  : Build ratio_exp :=
  for_each
    (fun ratio zp =>
       let z := fst zp in
       let proposal_z := snd zp in
       x <- getitem dict_swap_old z ;;
       ret (Sub ratio (LogProb proposal_z dict_swap_new "proposal_zold" x)))
    proposal_vars ratio.

(** Lines 104-110. *)
Definition prior_terms (latent_vars : dict Empirical)
  (dict_swap_old dict_swap_new : dict tensor) (ratio : ratio_exp)
  : Build ratio_exp :=
  for_each
    (fun ratio zqz =>
       let z := fst zqz in
       xnew <- getitem dict_swap_new z ;;
       let ratio := Add ratio (LogProb z dict_swap_new "znew" xnew) in
       xold <- getitem dict_swap_old z ;;
       ret (Sub ratio (LogProb z dict_swap_old "zold" xold)))
    latent_vars ratio.

(** Lines 112-119. *)
Definition likelihood_terms (data : dict datum)
  (dict_swap dict_swap_old dict_swap_new : dict tensor) (ratio : ratio_exp)
  : Build ratio_exp :=
  for_each
    (fun ratio xqx =>
       let x := fst xqx in
       if isinstance_RandomVariable x then
         v <- getitem dict_swap x ;;
         let ratio := Add ratio (LogProb x dict_swap_new "x_znew" v) in
         v' <- getitem dict_swap x ;;
         ret (Sub ratio (LogProb x dict_swap_old "x_zold" v'))
       else ret ratio)
    data ratio.

(** Lines 138-143. *)
Definition update_empirical (latent_vars : dict Empirical) (sample : dict merged)
  : Build (list assign_op) :=
  variables <- get_collection_VARIABLES ;;
  for_each
    (fun assign_ops zqz =>
       let z := fst zqz in
       let qz := snd zqz in
       variable <- lift (resolve_variable variables qz) ;;
       s <- getitem sample z ;;
       ret (assign_ops ++ [ScatterUpdate variable T s]))
    latent_vars [].

Definition build_update (self : MetropolisHastings) : Build frame :=
  let old_sample := build_old_sample (latent_vars self) in
  dict_swap <- build_dict_swap (data self) ;;
  let dict_swap_old := dict_update dict_swap old_sample in
  ' (new_sample, ratio) <- forward_pass (proposal_vars self) dict_swap_old ;;
  let dict_swap_new := dict_update dict_swap new_sample in
  ratio <- reverse_pass (proposal_vars self) dict_swap_old dict_swap_new ratio ;;
  ratio <-
    match model_wrapper self with
    | None =>
        ratio <- prior_terms (latent_vars self) dict_swap_old dict_swap_new ratio ;;
        likelihood_terms (data self) dict_swap dict_swap_old dict_swap_new ratio
    | Some wrapper =>
        let x := data self in
        let ratio := Add ratio (WrapperLogProb wrapper x new_sample) in
        ret (Sub ratio (WrapperLogProb wrapper x old_sample))
    end ;;
  u <- uniform_sample ;;
  let accept := Less_log u ratio in
  sample_values <-
    tf_cond accept (itervalues new_sample) (itervalues old_sample) ;;
  let sample_values := as_list sample_values in
  let sample := dict_of_items (combine (iterkeys new_sample) sample_values) in
  assign_ops <- update_empirical (latent_vars self) sample ;;
  let assign_ops := assign_ops ++ [AssignAdd_n_accept accept 1 0] in
  ret {| old_sample := old_sample;
         dict_swap := dict_swap;
         dict_swap_old := dict_swap_old;
         new_sample := new_sample;
         dict_swap_new := dict_swap_new;
         ratio := ratio;
         accept := accept;
         sample := sample;
         train := assign_ops |}.

End Model.

Arguments Obj {Val} qx.
Arguments Array {Val} v.
Arguments Gather {Val} params i.
Arguments Constant {Val} qx.
Arguments Value {Val} uid org swap scope.
Arguments LogProb {Val} org swap scope x.
Arguments WrapperLogProb {Val} wrapper x zs.
Arguments Zero {Val}.
Arguments Add {Val} r s.
Arguments Sub {Val} r s.
Arguments Merge {Val} pred res_t res_f.
Arguments ScatterUpdate {Val} variable i updates.
Arguments AssignAdd_n_accept {Val} pred if_true if_false.
Arguments build_old_sample {Val} latent_vars.
Arguments OneTensor {Val} x.
Arguments TensorList {Val} xs.

(** ** Running the update op *)

Section Run.

Variables Val R Noise : Type.

(** What TensorFlow and Edward compute for the ops of the graph.  [R] is
    the type of scalar tensors; its arithmetic is left uninterpreted. *)
Record backend : Type := Backend {
  sample_sem : node -> dict Val -> string -> Noise -> Val;
    (* the draw of copy(org, swap, scope) for the noise of its sample op *)
  log_prob_sem : node -> dict Val -> string -> Val -> R;
    (* tf.reduce_sum(copy(org, swap, scope).log_prob(x)) *)
  wrapper_log_prob_sem : nat -> dict (datum Val) -> dict Val -> R;
  uniform_sem : Noise -> R;
  tf_log : R -> R;
  tf_add : R -> R -> R;
  tf_sub : R -> R -> R;
  tf_zero : R;
  tf_less : R -> R -> bool;
  other_op_sem : nat -> list (list Val) -> list Val
}.

(** The variables of the session.  [t] and [n_accept] are created by the
    base class. *)
Record session : Type := Session {
  buffers : list (string * list Val);
  t : Z;
  n_accept : Z
}.

(** What one execution of the graph draws and is fed. *)
Record draws : Type := Draws {
  noise : nat -> Noise;
  feed : node -> Val
}.

Variable B : backend.

Fixpoint lookup_buffer (bs : list (string * list Val)) (v : string)
  : option (list Val) :=
  match bs with
  | [] => None
  | (v', b) :: bs' => if String.eqb v v' then Some b else lookup_buffer bs' v
  end.

Fixpoint store_buffer (bs : list (string * list Val)) (v : string)
  (b : list Val) : list (string * list Val) :=
  match bs with
  | [] => []
  | (v', b') :: bs' =>
      if String.eqb v v' then (v', b) :: bs' else (v', b') :: store_buffer bs' v b
  end.

Fixpoint set_nth (b : list Val) (n : nat) (x : Val) : list Val :=
  match b, n with
  | [], _ => []
  | _ :: b', O => x :: b'
  | y :: b', S n' => y :: set_nth b' n' x
  end.

Definition in_range (b : list Val) (i : Z) : bool :=
  (0 <=? i)%Z && (i <? Z.of_nat (List.length b))%Z.

(** [tf.gather(b, i)] for a scalar index; an index out of range is an
    error. *)
Definition gather (b : list Val) (i : Z) : option Val :=
  if in_range b i then nth_error b (Z.to_nat i) else None.

(** [tf.scatter_update(variable, i, x)] *)
Definition scatter_update (bs : list (string * list Val)) (variable : string)
  (i : Z) (x : Val) : option (list (string * list Val)) :=
  match lookup_buffer bs variable with
  | None => None
  | Some b =>
      if in_range b i
      then Some (store_buffer bs variable (set_nth b (Z.to_nat i) x))
      else None
  end.

Fixpoint eval_index (now : Z) (i : index) : Z :=
  match i with
  | T => now
  | IConst c => c
  | ISub a b => (eval_index now a - eval_index now b)%Z
  | IMaximum a b => Z.max (eval_index now a) (eval_index now b)
  end.

Section Eval.

Variable st : session.
Variable w : draws.

Fixpoint eval_handle (h : handle) : option (list Val) :=
  match h with
  | Handle n VariableOp _ => lookup_buffer (buffers st) n
  | Handle _ IdentityOp ins =>
      match ins with
      | [x] => eval_handle x
      | _ => None
      end
  | Handle _ (OtherOp k) ins =>
      let fix eval_inputs (l : list handle) : option (list (list Val)) :=
        match l with
        | [] => Some []
        | x :: l' =>
            match eval_handle x, eval_inputs l' with
            | Some b, Some bs => Some (b :: bs)
            | _, _ => None
            end
        end in
      match eval_inputs ins with
      | Some bs => Some (other_op_sem B k bs)
      | None => None
      end
  end.

Fixpoint eval_tensor (x : tensor Val) : option Val :=
  match x with
  | Gather h i =>
      match eval_handle h with
      | Some b => gather b (eval_index (t st) i)
      | None => None
      end
  | Constant (Obj o) => Some (feed w o)
  | Constant (Array v) => Some v
  | Value uid org swap scope =>
      let fix eval_swap (d : list (node * tensor Val)) : option (dict Val) :=
        match d with
        | [] => Some []
        | kx :: d' =>
            match eval_tensor (snd kx), eval_swap d' with
            | Some v, Some vs => Some ((fst kx, v) :: vs)
            | _, _ => None
            end
        end in
      match eval_swap swap with
      | Some vs => Some (sample_sem B org vs scope (noise w uid))
      | None => None
      end
  end.

Fixpoint eval_dict (d : dict (tensor Val)) : option (dict Val) :=
  match d with
  | [] => Some []
  | kx :: d' =>
      match eval_tensor (snd kx), eval_dict d' with
      | Some v, Some vs => Some ((fst kx, v) :: vs)
      | _, _ => None
      end
  end.

Definition eval_scalar (s : scalar Val) : option R :=
  match s with
  | LogProb org swap scope x =>
      match eval_dict swap, eval_tensor x with
      | Some vs, Some v => Some (log_prob_sem B org vs scope v)
      | _, _ => None
      end
  | WrapperLogProb wrapper x zs =>
      match eval_dict zs with
      | Some vs => Some (wrapper_log_prob_sem B wrapper x vs)
      | None => None
      end
  end.

Fixpoint eval_ratio (r : ratio_exp Val) : option R :=
  match r with
  | Zero => Some (tf_zero B)
  | Add r' s =>
      match eval_ratio r', eval_scalar s with
      | Some a, Some b => Some (tf_add B a b)
      | _, _ => None
      end
  | Sub r' s =>
      match eval_ratio r', eval_scalar s with
      | Some a, Some b => Some (tf_sub B a b)
      | _, _ => None
      end
  end.

Definition eval_accept (a : accept_exp Val) : option bool :=
  match eval_ratio (ratio_of a) with
  | Some r => Some (tf_less B (tf_log B (uniform_sem B (noise w (u_uid a)))) r)
  | None => None
  end.

(** Both branch results are tensors defined outside the conditional, so
    both are computed; the merge forwards the one of the taken branch. *)
Definition eval_merged (m : merged Val) : option Val :=
  match m with
  | Merge pred res_t res_f =>
      match eval_accept pred, eval_tensor res_t, eval_tensor res_f with
      | Some b, Some vt, Some vf => Some (if b then vt else vf)
      | _, _, _ => None
      end
  end.

(** One assign op: its inputs are read in the session [st] the step started
    from, its effect goes to [acc]. *)
Definition run_op (acc : session) (o : assign_op Val) : option session :=
  match o with
  | ScatterUpdate variable i updates =>
      match eval_merged updates with
      | None => None
      | Some x =>
          match scatter_update (buffers acc) variable (eval_index (t st) i) x with
          | None => None
          | Some bs =>
              Some {| buffers := bs; t := t acc; n_accept := n_accept acc |}
          end
      end
  | AssignAdd_n_accept pred if_true if_false =>
      match eval_accept pred with
      | None => None
      | Some b =>
          Some {| buffers := buffers acc;
                  t := t acc;
                  n_accept := (n_accept acc + (if b then if_true else if_false))%Z |}
      end
  end.

Fixpoint run_ops (ops : list (assign_op Val)) (acc : session) : option session :=
  match ops with
  | [] => Some acc
  | o :: ops' =>
      match run_op acc o with
      | Some acc' => run_ops ops' acc'
      | None => None
      end
  end.

End Eval.

(** One step: run the grouped op in session [st] with the draws [w]. *)
Definition run (train : list (assign_op Val)) (st : session) (w : draws)
  : option session :=
  run_ops st w train st.

End Run.

(** ** Vocabulary of the statements *)

(** A Python dictionary has no repeated key. *)
Fixpoint distinct (l : list node) : bool :=
  match l with
  | [] => true
  | k :: l' => negb (existsb (node_eqb k) l') && distinct l'
  end.

Definition well_formed {Val} (self : MetropolisHastings Val) : bool :=
  distinct (iterkeys (latent_vars self)) &&
  distinct (iterkeys (proposal_vars self)) &&
  distinct (iterkeys (data self)).

(** The two mappings have the same keys. *)
Definition keys_correspond {V W} (d : dict V) (e : dict W) : Prop :=
  forall k, In k (iterkeys d) <-> In k (iterkeys e).

(** The terms of the ratio with their signs, in the order they are
    accumulated. *)
Inductive sign : Type := Plus | Minus.

Definition accumulate {Val} (r : ratio_exp Val)
  (terms : list (sign * scalar Val)) : ratio_exp Val :=
  fold_left
    (fun r st => match fst st with
                 | Plus => Add r (snd st)
                 | Minus => Sub r (snd st)
                 end)
    terms r.

(** The variables a handle is computed from. *)
Fixpoint roots (h : handle) : list string :=
  match h with
  | Handle n VariableOp _ => [n]
  | Handle _ _ ins => flat_map roots ins
  end.

(** [levels k v]: the variable [v] seen through [k] identity ops, each with
    a name of its own. *)
Fixpoint levels (k : nat) (v : string) : handle :=
  match k with
  | O => Handle v VariableOp []
  | S k' =>
      Handle (String.append (name (levels k' v)) "/id") IdentityOp [levels k' v]
  end.

(** Closed forms of what the loops of [build_update] produce, for the
    statements below: the items assigned to [dict_swap] and to [new_sample]
    when [n] sample tensors exist already, and the sample tensors the two
    loops add to the graph. *)
Fixpoint swap_items {Val} (n : nat) (data : dict (datum Val))
  : list (node * tensor Val) :=
  match data with
  | [] => []
  | xqx :: data' =>
      if isinstance_RandomVariable (fst xqx) then
        match snd xqx with
        | Obj (RandomVariable _ as q) =>
            (fst xqx, Value n q [] "conditional") :: swap_items (S n) data'
        | qx => (fst xqx, Constant qx) :: swap_items n data'
        end
      else swap_items n data'
  end.

Fixpoint conditional_ops {Val} (data : dict (datum Val)) : list sample_op :=
  match data with
  | [] => []
  | xqx :: data' =>
      if isinstance_RandomVariable (fst xqx) then
        match snd xqx with
        | Obj (RandomVariable _ as q) =>
            ValueOf q "conditional" :: conditional_ops data'
        | _ => conditional_ops data'
        end
      else conditional_ops data'
  end.

Fixpoint forward_items {Val} (dict_swap_old : dict (tensor Val)) (n : nat)
  (proposal_vars : dict node) : list (node * tensor Val) :=
  match proposal_vars with
  | [] => []
  | zp :: l =>
      (fst zp, Value n (snd zp) dict_swap_old "proposal_znew")
        :: forward_items dict_swap_old (S n) l
  end.

Definition forward_terms {Val} (dict_swap_old : dict (tensor Val))
  (items : list (node * tensor Val)) (proposal_vars : dict node)
  : list (sign * scalar Val) :=
  map (fun p => (Plus, LogProb (snd (snd p)) dict_swap_old "proposal_znew" (snd (fst p))))
      (combine items proposal_vars).

Definition proposal_ops (proposal_vars : dict node) : list sample_op :=
  map (fun zp => ValueOf (snd zp) "proposal_znew") proposal_vars.

(** How the terms of the reverse pass, of the priors and of the likelihoods
    relate to the items of the loops that add them. *)
Definition reverse_term {Val} (old new_swap : dict (tensor Val))
  (zp : node * node) (tm : sign * scalar Val) : Prop :=
  exists v, dict_get old (fst zp) = Some v /\
            tm = (Minus, LogProb (snd zp) new_swap "proposal_zold" v).

Definition forward_term {Val} (new : dict (tensor Val)) (old_swap : dict (tensor Val))
  (zp : node * node) (tm : sign * scalar Val) : Prop :=
  exists v, dict_get new (fst zp) = Some v /\
            tm = (Plus, LogProb (snd zp) old_swap "proposal_znew" v).

Definition prior_group {Val} (new old new_swap old_swap : dict (tensor Val))
  (zqz : node * Empirical) (tms : list (sign * scalar Val)) : Prop :=
  exists vn vo,
    dict_get new (fst zqz) = Some vn /\
    dict_get old (fst zqz) = Some vo /\
    tms = [(Plus, LogProb (fst zqz) new_swap "znew" vn);
           (Minus, LogProb (fst zqz) old_swap "zold" vo)].

Definition likelihood_group {Val} (swap new_swap old_swap : dict (tensor Val))
  (xqx : node * datum Val) (tms : list (sign * scalar Val)) : Prop :=
  if isinstance_RandomVariable (fst xqx) then
    exists v,
      dict_get swap (fst xqx) = Some v /\
      tms = [(Plus, LogProb (fst xqx) new_swap "x_znew" v);
             (Minus, LogProb (fst xqx) old_swap "x_zold" v)]
  else tms = [].

(** The assign op that [update_empirical] emits for one latent variable. *)
Definition store_op {Val} (variables : list string) (sample : dict (merged Val))
  (zqz : node * Empirical) (o : assign_op Val) : Prop :=
  exists variable s,
    resolve_variable variables (snd zqz) = Ok variable /\
    dict_get sample (fst zqz) = Some s /\
    o = ScatterUpdate variable T s.

(** The terms of the target density, with the dictionaries [new] and [old]
    that the values of the latent variables are read from. *)
Definition target_terms {Val} (self : MetropolisHastings Val) (fr : frame Val)
  (new old : dict (tensor Val)) (tgt : list (sign * scalar Val)) : Prop :=
  match model_wrapper self with
  | None =>
      exists pri lik,
        tgt = List.concat pri ++ List.concat lik /\
        Forall2 (prior_group new old (dict_swap_new fr) (dict_swap_old fr))
                (latent_vars self) pri /\
        Forall2 (likelihood_group (dict_swap fr) (dict_swap_new fr) (dict_swap_old fr))
                (data self) lik
  | Some wrapper =>
      tgt = [(Plus, WrapperLogProb wrapper (data self) (new_sample fr));
             (Minus, WrapperLogProb wrapper (data self) (old_sample fr))]
  end.

(** What a successful [build_update self g] returns. *)
Record built {Val} (self : MetropolisHastings Val) (g : graph)
  (fr : frame Val) (g' : graph) : Prop := Built {
  built_old : old_sample fr = build_old_sample (latent_vars self);
  built_swap :
    dict_swap fr =
    dict_of_items (swap_items (List.length (sample_ops g)) (data self));
  built_swap_old :
    dict_swap_old fr = dict_update (dict_swap fr) (old_sample fr);
  built_new :
    new_sample fr =
    dict_of_items
      (forward_items (dict_swap_old fr)
         (List.length (sample_ops g ++ conditional_ops (data self)))
         (proposal_vars self));
  built_swap_new :
    dict_swap_new fr = dict_update (dict_swap fr) (new_sample fr);
  built_ratio :
    exists rev tgt,
      ratio fr =
      accumulate Zero
        (forward_terms (dict_swap_old fr)
           (forward_items (dict_swap_old fr)
              (List.length (sample_ops g ++ conditional_ops (data self)))
              (proposal_vars self))
           (proposal_vars self) ++ rev ++ tgt) /\
      Forall2 (reverse_term (dict_swap_old fr) (dict_swap_new fr))
              (proposal_vars self) rev /\
      target_terms self fr (dict_swap_new fr) (dict_swap_old fr) tgt;
  built_accept :
    accept fr =
    Less_log
      (List.length (sample_ops g ++ conditional_ops (data self)
                      ++ proposal_ops (proposal_vars self)))
      (ratio fr);
  built_lengths :
    List.length (new_sample fr) = List.length (old_sample fr);
  built_nonempty : new_sample fr <> [];
  built_sample :
    sample fr =
    dict_of_items
      (combine (iterkeys (new_sample fr))
         (merge_outputs (accept fr) (itervalues (new_sample fr))
            (itervalues (old_sample fr))));
  built_train :
    exists ops,
      train fr = ops ++ [AssignAdd_n_accept (accept fr) 1 0] /\
      Forall2 (store_op (VARIABLES g) (sample fr)) (latent_vars self) ops;
  built_graph :
    g' = {| VARIABLES := VARIABLES g;
            sample_ops :=
              sample_ops g ++ conditional_ops (data self)
                ++ proposal_ops (proposal_vars self)
                ++ [UniformSample] |}
}.

(** The data entries that call for an auxiliary draw. *)
Definition auxiliary {Val} (xqx : node * datum Val) : bool :=
  isinstance_RandomVariable (fst xqx) &&
  isinstance_RandomVariable_datum (snd xqx).

(** ** Example configurations

    Two latent variables [ex_z1], [ex_z2] whose Empirical approximations
    are parameterized by the variables [qz1] and [qz2], an observed [ex_x]
    with concrete data, a nuisance variable [ex_beta] inferred through
    another random variable, and a placeholder key.  Values, scalars and
    noise are integers, and the backend is one that is easy to evaluate by
    hand: a draw is the noise of its sample op, a log-density is the value
    it is evaluated at. *)

Definition zsum (vs : dict Z) : Z := fold_left Z.add (map snd vs) 0%Z.

Definition Zbackend : backend Z Z Z :=
  {| sample_sem := fun _ _ _ n => n;
     log_prob_sem := fun _ _ _ v => v;
     wrapper_log_prob_sem := fun _ _ vs => (- zsum vs)%Z;
     uniform_sem := fun n => n;
     tf_log := fun r => r;
     tf_add := Z.add;
     tf_sub := Z.sub;
     tf_zero := 0%Z;
     tf_less := Z.ltb;
     other_op_sem := fun _ bs => List.concat bs |}.

Definition ex_z1 : node := RandomVariable 1.
Definition ex_z2 : node := RandomVariable 2.
Definition ex_x : node := RandomVariable 3.
Definition ex_beta : node := RandomVariable 4.

Definition ex_qz1 : Empirical := {| params := levels 2 "qz1" |}.
Definition ex_qz2 : Empirical := {| params := levels 2 "qz2" |}.

Definition ex_data : dict (datum Z) :=
  [(ex_x, Array 5%Z); (ex_beta, Obj (RandomVariable 14));
   (Placeholder 9, Array 3%Z)].

Definition ex_model : MetropolisHastings Z :=
  {| latent_vars := [(ex_z1, ex_qz1); (ex_z2, ex_qz2)];
     proposal_vars := [(ex_z1, RandomVariable 11); (ex_z2, RandomVariable 12)];
     data := ex_data;
     model_wrapper := None |}.

(** The same model with the proposals listed in the other order. *)
Definition ex_swapped : MetropolisHastings Z :=
  {| latent_vars := [(ex_z1, ex_qz1); (ex_z2, ex_qz2)];
     proposal_vars := [(ex_z2, RandomVariable 12); (ex_z1, RandomVariable 11)];
     data := ex_data;
     model_wrapper := None |}.

(** The same model behind a model wrapper. *)
Definition ex_oracle : MetropolisHastings Z :=
  {| latent_vars := [(ex_z1, ex_qz1); (ex_z2, ex_qz2)];
     proposal_vars := [(ex_z1, RandomVariable 11); (ex_z2, RandomVariable 12)];
     data := ex_data;
     model_wrapper := Some 0 |}.

Definition ex_single : MetropolisHastings Z :=
  {| latent_vars := [(ex_z1, ex_qz1)];
     proposal_vars := [(ex_z1, RandomVariable 11)];
     data := ex_data;
     model_wrapper := None |}.

(** A proposal for a variable that is not latent. *)
Definition ex_mismatch : MetropolisHastings Z :=
  {| latent_vars := [(ex_z1, ex_qz1)];
     proposal_vars := [(ex_z2, RandomVariable 12)];
     data := [];
     model_wrapper := None |}.

(** Two variables behind one handle. *)
Definition ex_two_roots : Empirical :=
  {| params :=
       Handle "sum/id" IdentityOp
         [Handle "sum" (OtherOp 0) [levels 0 "qz1"; levels 0 "qz2"]] |}.


Definition ex_graph : graph :=
  {| VARIABLES := ["qz1"; "qz2"]%string; sample_ops := [] |}.

Definition ex_session : session Z :=
  {| buffers := [("qz1"%string, [10; 0; 0]%Z); ("qz2"%string, [20; 0; 0]%Z)];
     t := 0;
     n_accept := 0 |}.

(** Draws for which the step is rejected, and draws for which it is
    accepted. *)
Definition ex_noise (u : Z) (n : nat) : Z :=
  match n with
  | O => 7%Z
  | S O => 11%Z
  | S (S O) => 21%Z
  | _ => u
  end.

Definition ex_reject : draws Z Z :=
  {| noise := ex_noise 1000; feed := fun _ => 0%Z |}.

Definition ex_accept : draws Z Z :=
  {| noise := ex_noise (-1000); feed := fun _ => 0%Z |}.

Definition empty_frame : frame Z :=
  {| old_sample := []; dict_swap := []; dict_swap_old := []; new_sample := [];
     dict_swap_new := []; ratio := Zero; accept := Less_log 0 Zero;
     sample := []; train := [] |}.

Definition built_frame (r : result (frame Z * graph)) : frame Z :=
  match r with Ok (fr, _) => fr | Raise _ => empty_frame end.

Definition built_graph_of (r : result (frame Z * graph)) : graph :=
  match r with Ok (_, g) => g | Raise _ => ex_graph end.

Definition ex_frame : frame Z :=
  Eval vm_compute in built_frame (build_update ex_model ex_graph).
Definition ex_graph' : graph :=
  Eval vm_compute in built_graph_of (build_update ex_model ex_graph).

Definition ex_swapped_frame : frame Z :=
  Eval vm_compute in built_frame (build_update ex_swapped ex_graph).
Definition ex_swapped_graph' : graph :=
  Eval vm_compute in built_graph_of (build_update ex_swapped ex_graph).

Definition ex_oracle_frame : frame Z :=
  Eval vm_compute in built_frame (build_update ex_oracle ex_graph).
Definition ex_oracle_graph' : graph :=
  Eval vm_compute in built_graph_of (build_update ex_oracle ex_graph).

Definition ex_single_frame : frame Z :=
  Eval vm_compute in built_frame (build_update ex_single ex_graph).
Definition ex_single_graph' : graph :=
  Eval vm_compute in built_graph_of (build_update ex_single ex_graph).

(** The values committed by a step, per latent variable. *)
Definition committed {Val R Noise} (B : backend Val R Noise)
  (st : session Val) (w : draws Val Noise) (fr : frame Val)
  : list (node * option Val) :=
  map (fun zs => (fst zs, eval_merged B st w (snd zs))) (sample fr).

(** No latent variable and no proposal. *)
Definition ex_empty : MetropolisHastings Z :=
  {| latent_vars := [];
     proposal_vars := [];
     data := ex_data;
     model_wrapper := None |}.

(** [qz.params] is the identity of the read of the variable [v], as for an
    Empirical built on a tf.Variable. *)
Definition directly_parameterized (qz : Empirical) (v : string) : Prop :=
  exists n1 n2,
    params qz =
    Handle n1 IdentityOp [Handle n2 IdentityOp [Handle v VariableOp []]].

(** No two latent variables share the variable behind their handles. *)
Definition separate_buffers (variables : list string) (L : dict Empirical)
  : Prop :=
  forall z1 qz1 z2 qz2 v,
    In (z1, qz1) L -> In (z2, qz2) L ->
    resolve_variable variables qz1 = Ok v ->
    resolve_variable variables qz2 = Ok v ->
    z1 = z2.

(** The tensors that [dict_swap] and [old_sample] can hold: none of them is
    a sample of a proposal. *)
Definition before_proposals {Val} (x : tensor Val) : Prop :=
  match x with
  | Gather _ _ => True
  | Constant _ => True
  | Value _ _ swap scope => swap = [] /\ scope = "conditional"%string
  end.

(** The session after an accepted step from [ex_session]. *)
Definition ex_session_accepted : session Z :=
  {| buffers := [("qz1"%string, [11; 0; 0]%Z); ("qz2"%string, [21; 0; 0]%Z)];
     t := 0;
     n_accept := 1 |}.

(** An Empirical whose variable lies three identity ops below its handle. *)
Definition ex_deep : MetropolisHastings Z :=
  {| latent_vars := [(ex_z1, {| params := levels 3 "qz1" |})];
     proposal_vars := [(ex_z1, RandomVariable 11)];
     data := ex_data;
     model_wrapper := None |}.

(** A session at the second step, and the session after a rejected step
    from it. *)
Definition ex_session_later : session Z :=
  {| buffers := [("qz1"%string, [10; 0; 0]%Z); ("qz2"%string, [20; 0; 0]%Z)];
     t := 1;
     n_accept := 0 |}.

Definition ex_session_repeated : session Z :=
  {| buffers := [("qz1"%string, [10; 10; 0]%Z); ("qz2"%string, [20; 20; 0]%Z)];
     t := 1;
     n_accept := 0 |}.

(** The session holds, for every latent variable, the buffer of the
    variable its Empirical is built on, with room for [k] more samples from
    position [t] on. *)
Definition session_fits {Val} (L : dict Empirical) (st : session Val)
  (k : nat) : Prop :=
  forall z qz, In (z, qz) L ->
    exists v b,
      directly_parameterized qz v /\
      lookup_buffer (buffers st) v = Some b /\
      (0 <= t st)%Z /\
      (t st + Z.of_nat k <= Z.of_nat (List.length b))%Z.

(** The session in which the next step runs: the driver has added one to
    [t]. *)
Definition next_step {Val} (st : session Val) : session Val :=
  {| buffers := buffers st; t := (t st + 1)%Z; n_accept := n_accept st |}.

(** A backend in which a draw depends on what its copy is conditioned on:
    the sum of the conditioning values plus the noise of the sample op. *)
Definition Zbackend_conditioned : backend Z Z Z :=
  {| sample_sem := fun _ vs _ n => (zsum vs + n)%Z;
     log_prob_sem := fun _ _ _ v => v;
     wrapper_log_prob_sem := fun _ _ vs => (- zsum vs)%Z;
     uniform_sem := fun n => n;
     tf_log := fun r => r;
     tf_add := Z.add;
     tf_sub := Z.sub;
     tf_zero := 0%Z;
     tf_less := Z.ltb;
     other_op_sem := fun _ bs => List.concat bs |}.

(** Draws that differ in the auxiliary draw only: [a] is the noise of the
    first sample op, the one of [dict_swap[ex_beta]]. *)
Definition ex_auxiliary_draw (a : Z) : draws Z Z :=
  {| noise := fun n => match n with O => a | _ => ex_noise 1000 n end;
     feed := fun _ => 0%Z |}.

(** Sessions reached by running the update op [k] times; between two runs
    the driver may move [t]. *)
Inductive reaches {Val R Noise} (B : backend Val R Noise)
  (train : list (assign_op Val)) : session Val -> nat -> session Val -> Prop :=
| reaches_O st : reaches B train st 0 st
| reaches_S st w st1 now k st2 :
    run B train st w = Some st1 ->
    reaches B train
      {| buffers := buffers st1; t := now; n_accept := n_accept st1 |} k st2 ->
    reaches B train st (S k) st2.

(** ** Dictionaries *)

Section DictFacts.

Context {V : Type}.
Implicit Types (d e : dict V) (k : node) (v : V).

Lemma node_eqb_eq (a b : node) : node_eqb a b = true <-> a = b.
Proof.
  destruct a, b; simpl; rewrite ?Nat.eqb_eq; split; intros H;
    try discriminate; try (injection H as ->); subst; reflexivity.
Qed.

Lemma node_eqb_refl (a : node) : node_eqb a a = true.
Proof. apply node_eqb_eq; reflexivity. Qed.

Lemma node_eqb_neq (a b : node) : a <> b -> node_eqb a b = false.
Proof.
  intros H. destruct (node_eqb a b) eqn:E; [|reflexivity].
  apply node_eqb_eq in E. contradiction.
Qed.

Lemma node_eq_dec (a b : node) : {a = b} + {a <> b}.
Proof.
  destruct (node_eqb a b) eqn:E.
  - left. apply node_eqb_eq. exact E.
  - right. intros ->. rewrite node_eqb_refl in E. discriminate.
Qed.

Lemma distinct_NoDup (l : list node) : distinct l = true <-> NoDup l.
Proof.
  induction l as [|k l IH]; simpl.
  - split; [constructor | reflexivity].
  - rewrite andb_true_iff, negb_true_iff, IH. split.
    + intros [Hk Hl]. constructor; [|exact Hl].
      intros Hin. assert (existsb (node_eqb k) l = true) as E.
      { apply existsb_exists. exists k. split; [exact Hin | apply node_eqb_refl]. }
      congruence.
    + intros H. inversion H as [|? ? Hk Hl]; subst. split; [|exact Hl].
      destruct (existsb (node_eqb k) l) eqn:E; [|reflexivity].
      apply existsb_exists in E. destruct E as [y [Hy Ey]].
      apply node_eqb_eq in Ey. subst y. contradiction.
Qed.

Lemma dict_get_set_eq d k v : dict_get (dict_set d k v) k = Some v.
Proof.
  induction d as [|[k' v'] d IH]; simpl.
  - rewrite node_eqb_refl. reflexivity.
  - destruct (node_eqb k k') eqn:E; simpl; rewrite E; [reflexivity | exact IH].
Qed.

Lemma dict_get_set_neq d k k' v :
  k' <> k -> dict_get (dict_set d k v) k' = dict_get d k'.
Proof.
  intros Hne. induction d as [|[k0 v0] d IH]; simpl.
  - rewrite (node_eqb_neq Hne). reflexivity.
  - destruct (node_eqb k k0) eqn:E; simpl.
    + apply node_eqb_eq in E. subst k0. rewrite (node_eqb_neq Hne). reflexivity.
    + rewrite IH. reflexivity.
Qed.

Lemma dict_get_None d k : dict_get d k = None <-> ~ In k (iterkeys d).
Proof.
  induction d as [|[k' v'] d IH]; simpl.
  - split; [intros _ [] | reflexivity].
  - destruct (node_eqb k k') eqn:E.
    + apply node_eqb_eq in E. subst k'. split; [discriminate|].
      intros H. exfalso. apply H. left. reflexivity.
    + rewrite IH. split.
      * intros H [Heq|Hin]; [|exact (H Hin)].
        subst k'. rewrite node_eqb_refl in E. discriminate.
      * intros H Hin. apply H. right. exact Hin.
Qed.

Lemma dict_get_Some_In d k v : dict_get d k = Some v -> In (k, v) d.
Proof.
  induction d as [|[k' v'] d IH]; simpl; [discriminate|].
  destruct (node_eqb k k') eqn:E.
  - apply node_eqb_eq in E. subst k'. intros [= ->]. left. reflexivity.
  - intros H. right. exact (IH H).
Qed.

Lemma dict_get_In_keys d k v : dict_get d k = Some v -> In k (iterkeys d).
Proof.
  intros H. apply dict_get_Some_In in H.
  apply (in_map fst) in H. exact H.
Qed.

Lemma In_keys_dict_get d k : In k (iterkeys d) -> exists v, dict_get d k = Some v.
Proof.
  intros H. destruct (dict_get d k) as [v|] eqn:E; [exists v; reflexivity|].
  apply dict_get_None in E. contradiction.
Qed.

Lemma NoDup_dict_get d k v :
  NoDup (iterkeys d) -> In (k, v) d -> dict_get d k = Some v.
Proof.
  induction d as [|[k' v'] d IH]; simpl; [intros _ []|].
  intros Hnd [Heq|Hin].
  - injection Heq as -> ->. rewrite node_eqb_refl. reflexivity.
  - inversion Hnd as [|? ? Hk Hd]; subst.
    destruct (node_eqb k k') eqn:E.
    + apply node_eqb_eq in E. subst k'. exfalso. apply Hk.
      apply (in_map fst) in Hin. exact Hin.
    + apply IH; assumption.
Qed.

Lemma dict_set_fresh d k v : ~ In k (iterkeys d) -> dict_set d k v = d ++ [(k, v)].
Proof.
  induction d as [|[k' v'] d IH]; simpl; [reflexivity|].
  intros H. destruct (node_eqb k k') eqn:E.
  - apply node_eqb_eq in E. subst k'. exfalso. apply H. left. reflexivity.
  - rewrite IH; [reflexivity|]. intros Hin. apply H. right. exact Hin.
Qed.

Lemma iterkeys_dict_set_old d k v :
  In k (iterkeys d) -> iterkeys (dict_set d k v) = iterkeys d.
Proof.
  induction d as [|[k' v'] d IH]; simpl; [intros []|].
  intros H. destruct (node_eqb k k') eqn:E; simpl; [reflexivity|].
  destruct H as [Heq|Hin].
  - subst k'. rewrite node_eqb_refl in E. discriminate.
  - unfold iterkeys in *. simpl. f_equal. apply IH. exact Hin.
Qed.

Lemma NoDup_iterkeys_dict_set d k v :
  NoDup (iterkeys d) -> NoDup (iterkeys (dict_set d k v)).
Proof.
  intros Hnd. destruct (in_dec node_eq_dec k (iterkeys d)) as [Hin|Hout].
  - rewrite iterkeys_dict_set_old; assumption.
  - rewrite dict_set_fresh by exact Hout. unfold iterkeys. rewrite map_app. simpl.
    apply NoDup_app; [exact Hnd | repeat constructor; intros [] |].
    intros a Ha [<-|[]]. exact (Hout Ha).
Qed.

Lemma NoDup_iterkeys_fold items d :
  NoDup (iterkeys d) ->
  NoDup (iterkeys (fold_left (fun d kv => dict_set d (fst kv) (snd kv)) items d)).
Proof.
  revert d. induction items as [|[k v] items IH]; simpl; intros d Hd; [exact Hd|].
  apply IH. apply NoDup_iterkeys_dict_set. exact Hd.
Qed.

(** Building a dictionary from items with distinct keys keeps the items and
    their order. *)
Lemma fold_dict_set_distinct items d :
  NoDup (iterkeys (d ++ items)) ->
  fold_left (fun d kv => dict_set d (fst kv) (snd kv)) items d = d ++ items.
Proof.
  revert d. induction items as [|[k v] items IH]; simpl; intros d Hnd.
  - rewrite app_nil_r. reflexivity.
  - assert (~ In k (iterkeys d)) as Hk.
    { unfold iterkeys in *. rewrite map_app in Hnd. simpl in Hnd.
      apply NoDup_remove_2 in Hnd. intros Hin. apply Hnd.
      apply in_or_app. left. exact Hin. }
    rewrite dict_set_fresh by exact Hk. rewrite IH.
    + rewrite <- app_assoc. reflexivity.
    + rewrite <- app_assoc. exact Hnd.
Qed.

Lemma dict_of_items_distinct (items : list (node * V)) :
  NoDup (iterkeys items) -> dict_of_items items = items.
Proof. intros H. unfold dict_of_items. rewrite fold_dict_set_distinct; auto. Qed.

Lemma dict_get_update d e k :
  NoDup (iterkeys e) ->
  dict_get (dict_update d e) k =
  match dict_get e k with
  | Some v => Some v
  | None => dict_get d k
  end.
Proof.
  unfold dict_update. revert d. induction e as [|[k1 v1] e IH]; simpl; intros d Hnd.
  - reflexivity.
  - inversion Hnd as [|? ? Hk He]; subst. rewrite IH by exact He.
    destruct (node_eqb k k1) eqn:E.
    + apply node_eqb_eq in E. subst k1.
      apply dict_get_None in Hk. rewrite Hk. apply dict_get_set_eq.
    + destruct (dict_get e k); [reflexivity|].
      apply dict_get_set_neq. intros ->. rewrite node_eqb_refl in E. discriminate.
Qed.

End DictFacts.

(** ** The construction monad and the loops of [build_update] *)

Section BuildFacts.

Variable Val : Type.

Lemma bind_Ok_inv {A C} (m : Build A) (k : A -> Build C) g c g' :
  bind m k g = Ok (c, g') ->
  exists a g1, m g = Ok (a, g1) /\ k a g1 = Ok (c, g').
Proof.
  unfold bind. destruct (m g) as [[a g1]|e]; [|discriminate].
  intros H. exists a, g1. split; [reflexivity | exact H].
Qed.

Lemma ret_Ok_inv {A} (a c : A) g g' : ret a g = Ok (c, g') -> c = a /\ g' = g.
Proof. unfold ret. intros [= <- <-]. split; reflexivity. Qed.

Lemma getitem_Ok_inv {V} (d : dict V) k v g g' :
  getitem d k g = Ok (v, g') -> dict_get d k = Some v /\ g' = g.
Proof.
  unfold getitem. destruct (dict_get d k); [|discriminate].
  intros H. apply ret_Ok_inv in H. destruct H as [-> ->]. split; reflexivity.
Qed.

Lemma getitem_Some {V} (d : dict V) k v g :
  dict_get d k = Some v -> getitem d k g = Ok (v, g).
Proof. unfold getitem. intros ->. reflexivity. Qed.

(** *** [dict_swap] *)

Lemma dict_swap_loop (data : dict (datum Val)) :
  forall ds0 g,
    for_each
      (fun dict_swap xqx =>
         let x := fst xqx in
         let qx := snd xqx in
         if isinstance_RandomVariable x then
           match qx with
           | Obj (RandomVariable _ as q) =>
               v <- copy_value q [] "conditional" ;;
               ret (dict_set dict_swap x v)
           | _ => ret (dict_set dict_swap x (Constant qx))
           end
         else ret dict_swap)
      data ds0 g =
    Ok (dict_update ds0 (swap_items (List.length (sample_ops g)) data),
        {| VARIABLES := VARIABLES g;
           sample_ops := sample_ops g ++ conditional_ops data |}).
Proof.
  induction data as [|[x qx] data IH]; intros ds0 g.
  - simpl. unfold ret. rewrite app_nil_r. destruct g; reflexivity.
  - cbn [for_each swap_items conditional_ops fst snd].
    destruct (isinstance_RandomVariable x).
    + destruct qx as [[i|i]|v]; unfold bind at 1; cbn.
      * rewrite IH. cbn. rewrite length_app, Nat.add_comm, <- app_assoc.
        reflexivity.
      * rewrite IH. reflexivity.
      * rewrite IH. reflexivity.
    + unfold bind at 1; cbn. rewrite IH. reflexivity.
Qed.

Lemma build_dict_swap_spec (data : dict (datum Val)) g :
  build_dict_swap data g =
  Ok (dict_of_items (swap_items (List.length (sample_ops g)) data),
      {| VARIABLES := VARIABLES g;
         sample_ops := sample_ops g ++ conditional_ops data |}).
Proof. unfold build_dict_swap. apply dict_swap_loop. Qed.

Lemma iterkeys_swap_items n (data : dict (datum Val)) :
  iterkeys (swap_items n data) =
  filter isinstance_RandomVariable (iterkeys data).
Proof.
  revert n. induction data as [|[x qx] data IH]; intros n; simpl; [reflexivity|].
  destruct (isinstance_RandomVariable x); [|apply IH].
  destruct qx as [[i|i]|v]; simpl; f_equal; apply IH.
Qed.

Lemma NoDup_filter {A} (f : A -> bool) (l : list A) : NoDup l -> NoDup (filter f l).
Proof.
  induction 1 as [|a l Ha Hl IH]; simpl; [constructor|].
  destruct (f a); [|exact IH]. constructor; [|exact IH].
  intros Hin. apply filter_In in Hin. apply Ha. apply Hin.
Qed.

(** *** The forward pass *)

Lemma accumulate_app (r : ratio_exp Val) a b :
  accumulate r (a ++ b) = accumulate (accumulate r a) b.
Proof. unfold accumulate. apply fold_left_app. Qed.

Lemma forward_loop (dso : dict (tensor Val)) (P : dict node) :
  forall ns0 r0 g,
    for_each
      (fun st zp =>
         let new_sample := fst st in
         let ratio := snd st in
         let z := fst zp in
         let proposal_z := snd zp in
         v <- copy_value proposal_z dso "proposal_znew" ;;
         let new_sample := dict_set new_sample z v in
         x <- getitem new_sample z ;;
         ret (new_sample,
              Add ratio (LogProb proposal_z dso "proposal_znew" x)))
      P (ns0, r0) g =
    Ok ((dict_update ns0 (forward_items dso (List.length (sample_ops g)) P),
         accumulate r0
           (forward_terms dso (forward_items dso (List.length (sample_ops g)) P) P)),
        {| VARIABLES := VARIABLES g;
           sample_ops := sample_ops g ++ proposal_ops P |}).
Proof.
  induction P as [|[z p] P IH]; intros ns0 r0 g.
  - simpl. unfold ret. rewrite app_nil_r. destruct g; reflexivity.
  - cbn [for_each forward_items proposal_ops map fst snd].
    unfold bind at 1. unfold bind at 1. cbn [copy_value fst snd].
    unfold bind at 1. rewrite (getitem_Some _ _ _ (dict_get_set_eq ns0 z _)).
    cbn [ret]. rewrite IH. cbn [VARIABLES sample_ops].
    rewrite length_app, Nat.add_comm, <- app_assoc. reflexivity.
Qed.

Lemma forward_pass_spec (dso : dict (tensor Val)) (P : dict node) g :
  forward_pass P dso g =
  Ok ((dict_of_items (forward_items dso (List.length (sample_ops g)) P),
       accumulate Zero
         (forward_terms dso (forward_items dso (List.length (sample_ops g)) P) P)),
      {| VARIABLES := VARIABLES g;
         sample_ops := sample_ops g ++ proposal_ops P |}).
Proof. unfold forward_pass. apply forward_loop. Qed.

Lemma iterkeys_forward_items (dso : dict (tensor Val)) n P :
  iterkeys (forward_items dso n P) = iterkeys P.
Proof.
  revert n. induction P as [|[z p] P IH]; intros n; simpl; [reflexivity|].
  f_equal. apply IH.
Qed.

(** *** The reverse pass and the target terms *)

Lemma reverse_pass_inv (P : dict node) (dso dsn : dict (tensor Val)) :
  forall r g r' g',
    reverse_pass P dso dsn r g = Ok (r', g') ->
    g' = g /\
    exists terms,
      r' = accumulate r terms /\
      Forall2
        (fun zp tm =>
           exists v, dict_get dso (fst zp) = Some v /\
                     tm = (Minus, LogProb (snd zp) dsn "proposal_zold" v))
        P terms.
Proof.
  unfold reverse_pass.
  induction P as [|[z p] P IH]; intros r g r' g' H.
  - apply ret_Ok_inv in H. destruct H as [-> ->].
    split; [reflexivity|]. exists []. split; [reflexivity | constructor].
  - cbn [for_each fst snd] in H.
    apply bind_Ok_inv in H. destruct H as [r1 [g1 [Hb H]]].
    apply bind_Ok_inv in Hb. destruct Hb as [v [g2 [Hv Hr]]].
    apply getitem_Ok_inv in Hv. destruct Hv as [Hv ->].
    apply ret_Ok_inv in Hr. destruct Hr as [-> ->].
    apply IH in H. destruct H as [-> [terms [-> HF]]].
    split; [reflexivity|].
    exists ((Minus, LogProb p dsn "proposal_zold" v) :: terms).
    split; [reflexivity|]. constructor; [|exact HF].
    exists v. split; [exact Hv | reflexivity].
Qed.

Lemma prior_terms_inv (L : dict Empirical) (dso dsn : dict (tensor Val)) :
  forall r g r' g',
    prior_terms L dso dsn r g = Ok (r', g') ->
    g' = g /\
    exists groups,
      r' = accumulate r (List.concat groups) /\
      Forall2
        (fun zqz tms =>
           exists vn vo,
             dict_get dsn (fst zqz) = Some vn /\
             dict_get dso (fst zqz) = Some vo /\
             tms = [(Plus, LogProb (fst zqz) dsn "znew" vn);
                    (Minus, LogProb (fst zqz) dso "zold" vo)])
        L groups.
Proof.
  unfold prior_terms.
  induction L as [|[z qz] L IH]; intros r g r' g' H.
  - apply ret_Ok_inv in H. destruct H as [-> ->].
    split; [reflexivity|]. exists []. split; [reflexivity | constructor].
  - cbn [for_each fst snd] in H.
    apply bind_Ok_inv in H. destruct H as [r1 [g1 [Hb H]]].
    apply bind_Ok_inv in Hb. destruct Hb as [vn [g2 [Hn Hb]]].
    apply getitem_Ok_inv in Hn. destruct Hn as [Hn ->].
    apply bind_Ok_inv in Hb. destruct Hb as [vo [g3 [Ho Hr]]].
    apply getitem_Ok_inv in Ho. destruct Ho as [Ho ->].
    apply ret_Ok_inv in Hr. destruct Hr as [-> ->].
    apply IH in H. destruct H as [-> [groups [-> HF]]].
    split; [reflexivity|].
    exists ([(Plus, LogProb z dsn "znew" vn); (Minus, LogProb z dso "zold" vo)]
              :: groups).
    split; [reflexivity|]. constructor; [|exact HF].
    exists vn, vo. repeat split; assumption.
Qed.

Lemma likelihood_terms_inv (D : dict (datum Val)) (ds dso dsn : dict (tensor Val)) :
  forall r g r' g',
    likelihood_terms D ds dso dsn r g = Ok (r', g') ->
    g' = g /\
    exists groups,
      r' = accumulate r (List.concat groups) /\
      Forall2
        (fun xqx tms =>
           if isinstance_RandomVariable (fst xqx) then
             exists v,
               dict_get ds (fst xqx) = Some v /\
               tms = [(Plus, LogProb (fst xqx) dsn "x_znew" v);
                      (Minus, LogProb (fst xqx) dso "x_zold" v)]
           else tms = [])
        D groups.
Proof.
  unfold likelihood_terms.
  induction D as [|[x qx] D IH]; intros r g r' g' H.
  - apply ret_Ok_inv in H. destruct H as [-> ->].
    split; [reflexivity|]. exists []. split; [reflexivity | constructor].
  - cbn [for_each fst snd] in H.
    apply bind_Ok_inv in H. destruct H as [r1 [g1 [Hb H]]].
    destruct (isinstance_RandomVariable x) eqn:Ex.
    + apply bind_Ok_inv in Hb. destruct Hb as [v [g2 [Hv Hb]]].
      apply getitem_Ok_inv in Hv. destruct Hv as [Hv ->].
      apply bind_Ok_inv in Hb. destruct Hb as [v' [g3 [Hv' Hr]]].
      apply getitem_Ok_inv in Hv'. destruct Hv' as [Hv' ->].
      apply ret_Ok_inv in Hr. destruct Hr as [-> ->].
      assert (v' = v) as -> by congruence.
      apply IH in H. destruct H as [-> [groups [-> HF]]].
      split; [reflexivity|].
      exists ([(Plus, LogProb x dsn "x_znew" v); (Minus, LogProb x dso "x_zold" v)]
                :: groups).
      split; [reflexivity|]. constructor; [|exact HF].
      cbn [fst]. rewrite Ex. exists v. split; [exact Hv | reflexivity].
    + apply ret_Ok_inv in Hb. destruct Hb as [-> ->].
      apply IH in H. destruct H as [-> [groups [-> HF]]].
      split; [reflexivity|].
      exists ([] :: groups). split; [reflexivity|]. constructor; [|exact HF].
      cbn [fst]. rewrite Ex. reflexivity.
Qed.

(** *** The conditional and the assign ops *)

Lemma tf_cond_inv (pred : accept_exp Val) res_t res_f g cr g' :
  tf_cond pred res_t res_f g = Ok (cr, g') ->
  g' = g /\
  List.length res_t = List.length res_f /\
  res_t <> [] /\
  as_list cr = merge_outputs pred res_t res_f.
Proof.
  unfold tf_cond.
  destruct (Nat.eqb (List.length res_t) (List.length res_f)) eqn:E;
    [|discriminate].
  apply Nat.eqb_eq in E. cbn [negb].
  destruct res_t as [|a res_t]; [discriminate|].
  destruct res_f as [|b res_f]; [discriminate|].
  unfold merge_outputs. cbn [combine map fst snd].
  destruct (map _ (combine res_f res_t)) as [|m ms] eqn:Em;
    intros H; apply ret_Ok_inv in H; destruct H as [-> ->];
    (split; [reflexivity | split; [exact E | split; [discriminate | reflexivity]]]).
Qed.

Lemma update_empirical_loop (L : dict Empirical) (sample : dict (merged Val))
  (variables : list string) :
  forall ops0 g ops g',
    for_each
      (fun assign_ops zqz =>
         let z := fst zqz in
         let qz := snd zqz in
         variable <- lift (resolve_variable variables qz) ;;
         s <- getitem sample z ;;
         ret (assign_ops ++ [ScatterUpdate variable T s]))
      L ops0 g = Ok (ops, g') ->
    g' = g /\
    exists new_ops,
      ops = ops0 ++ new_ops /\ Forall2 (store_op variables sample) L new_ops.
Proof.
  induction L as [|[z qz] L IH]; intros ops0 g ops g' H.
  - apply ret_Ok_inv in H. destruct H as [-> ->].
    split; [reflexivity|]. exists []. rewrite app_nil_r.
    split; [reflexivity | constructor].
  - cbn [for_each fst snd] in H.
    apply bind_Ok_inv in H. destruct H as [ops1 [g1 [Hb H]]].
    apply bind_Ok_inv in Hb. destruct Hb as [variable [g2 [Hv Hb]]].
    apply bind_Ok_inv in Hb. destruct Hb as [s0 [g3 [Hs Hr]]].
    apply getitem_Ok_inv in Hs. destruct Hs as [Hs ->].
    apply ret_Ok_inv in Hr. destruct Hr as [-> ->].
    unfold lift in Hv.
    destruct (resolve_variable variables qz) as [v|e] eqn:Ev; [|discriminate].
    injection Hv as -> ->.
    apply IH in H. destruct H as [-> [new_ops [-> HF]]].
    split; [reflexivity|].
    exists (ScatterUpdate variable T s0 :: new_ops).
    rewrite <- app_assoc. split; [reflexivity|].
    constructor; [|exact HF].
    exists variable, s0. cbn [fst snd]. repeat split; assumption.
Qed.

Lemma update_empirical_inv (L : dict Empirical) (sample : dict (merged Val)) g ops g' :
  update_empirical L sample g = Ok (ops, g') ->
  g' = g /\ Forall2 (store_op (VARIABLES g) sample) L ops.
Proof.
  unfold update_empirical. intros H.
  apply bind_Ok_inv in H. destruct H as [vars [g1 [Hc H]]].
  unfold get_collection_VARIABLES in Hc. injection Hc as <- <-.
  apply update_empirical_loop in H.
  destruct H as [-> [new_ops [-> HF]]]. split; [reflexivity | exact HF].
Qed.

(** *** Inversion of a successful construction *)

Lemma build_update_inv (self : MetropolisHastings Val) g fr g' :
  build_update self g = Ok (fr, g') -> built self g fr g'.
Proof.
  unfold build_update. intros H.
  set (os := build_old_sample (latent_vars self)) in *.
  apply bind_Ok_inv in H. destruct H as [ds [g1 [Hds H]]].
  rewrite build_dict_swap_spec in Hds. injection Hds as Eds <-.
  set (dso := dict_update ds os) in *.
  apply bind_Ok_inv in H. destruct H as [[ns r1] [g2 [Hfw H]]].
  rewrite forward_pass_spec in Hfw. cbn [sample_ops VARIABLES] in Hfw.
  injection Hfw as Ens <- <-.
  set (dsn := dict_update ds ns) in *.
  apply bind_Ok_inv in H. destruct H as [r2 [g3 [Hrv H]]].
  apply reverse_pass_inv in Hrv. destruct Hrv as [-> [rev [-> Hrev]]].
  apply bind_Ok_inv in H. destruct H as [r3 [g4 [Htg H]]].
  apply bind_Ok_inv in H. destruct H as [u [g5 [Hu H]]].
  apply bind_Ok_inv in H. destruct H as [sv [g6 [Hc H]]].
  apply bind_Ok_inv in H. destruct H as [ops [g7 [Hup H]]].
  apply ret_Ok_inv in H. destruct H as [-> ->].
  match type of Htg with
  | _ ?gg = _ => set (g3 := gg) in *
  end.
  match type of Htg with
  | context [prior_terms _ _ _ ?rr] => set (r2 := rr) in *
  end.
  assert (g4 = g3 /\
          exists tgt,
            r3 = accumulate r2 tgt /\
            match model_wrapper self with
            | None =>
                exists pri lik,
                  tgt = List.concat pri ++ List.concat lik /\
                  Forall2 (prior_group dsn dso dsn dso) (latent_vars self) pri /\
                  Forall2 (likelihood_group ds dsn dso) (data self) lik
            | Some wrapper =>
                tgt = [(Plus, WrapperLogProb wrapper (data self) ns);
                       (Minus, WrapperLogProb wrapper (data self) os)]
            end) as [-> [tgt [-> Htgt]]].
  { destruct (model_wrapper self) as [wrapper|].
    - apply ret_Ok_inv in Htg. destruct Htg as [-> ->].
      split; [reflexivity|]. eexists. split; [|reflexivity]. reflexivity.
    - apply bind_Ok_inv in Htg. destruct Htg as [rp [gp [Hp Hl]]].
      apply prior_terms_inv in Hp. destruct Hp as [-> [pri [-> Hpri]]].
      apply likelihood_terms_inv in Hl. destruct Hl as [-> [lik [-> Hlik]]].
      split; [reflexivity|].
      exists (List.concat pri ++ List.concat lik). split.
      + rewrite accumulate_app. reflexivity.
      + exists pri, lik. split; [reflexivity|]. split; assumption. }
  unfold uniform_sample in Hu. injection Hu as <- <-.
  apply tf_cond_inv in Hc. destruct Hc as [-> [Hlen [Hne Hsv]]].
  apply update_empirical_inv in Hup. destruct Hup as [-> Hops].
  subst g3 r2. cbn [VARIABLES sample_ops] in *.
  constructor; cbn [old_sample dict_swap dict_swap_old new_sample dict_swap_new
                      ratio accept sample train].
  - reflexivity.
  - symmetry. exact Eds.
  - reflexivity.
  - symmetry. exact Ens.
  - reflexivity.
  - exists rev, tgt. split; [|split].
    + rewrite !accumulate_app. reflexivity.
    + exact Hrev.
    + unfold target_terms.
      cbn [old_sample dict_swap dict_swap_old new_sample dict_swap_new].
      exact Htgt.
  - rewrite app_assoc. reflexivity.
  - unfold itervalues in Hlen. rewrite !length_map in Hlen. exact Hlen.
  - intros E. apply Hne. unfold itervalues. rewrite E. reflexivity.
  - rewrite Hsv. reflexivity.
  - exists ops. split; [reflexivity | exact Hops].
  - rewrite <- !app_assoc. reflexivity.
Qed.

(** *** Consequences for well-formed dictionaries *)

Lemma well_formed_NoDup (self : MetropolisHastings Val) :
  well_formed self = true ->
  NoDup (iterkeys (latent_vars self)) /\
  NoDup (iterkeys (proposal_vars self)) /\
  NoDup (iterkeys (data self)).
Proof.
  unfold well_formed. rewrite !andb_true_iff, !distinct_NoDup. tauto.
Qed.

Lemma Forall2_impl_In {A C} (R1 R2 : A -> C -> Prop) l l' :
  (forall a c, In a l -> R1 a c -> R2 a c) ->
  Forall2 R1 l l' -> Forall2 R2 l l'.
Proof.
  intros Himp HF. induction HF as [|a c l l' Hac HF IH]; constructor.
  - apply Himp; [left; reflexivity | exact Hac].
  - apply IH. intros a' c' Hin. apply Himp. right. exact Hin.
Qed.

Lemma Forall2_In_l {A C} (R1 : A -> C -> Prop) l l' a :
  Forall2 R1 l l' -> In a l ->
  exists l1 c l2, l' = l1 ++ c :: l2 /\ R1 a c.
Proof.
  intros HF. induction HF as [|a0 c0 l l' Hac HF IH]; intros Hin; [destruct Hin|].
  destruct Hin as [->|Hin].
  - exists [], c0, l'. split; [reflexivity | exact Hac].
  - destruct (IH Hin) as [l1 [c [l2 [-> Hc]]]].
    exists (c0 :: l1), c, l2. split; [reflexivity | exact Hc].
Qed.

Lemma iterkeys_old_sample_items (L : dict Empirical) :
  iterkeys
    (map (fun zqz : node * Empirical =>
            (fst zqz,
             @Gather Val (params (snd zqz))
               (IMaximum (ISub T (IConst 1)) (IConst 0)))) L) =
  iterkeys L.
Proof. unfold iterkeys. rewrite map_map. reflexivity. Qed.

Lemma build_old_sample_distinct (L : dict Empirical) :
  NoDup (iterkeys L) ->
  @build_old_sample Val L =
  map (fun zqz => (fst zqz,
                   Gather (params (snd zqz))
                     (IMaximum (ISub T (IConst 1)) (IConst 0)))) L.
Proof.
  intros H. unfold build_old_sample. apply dict_of_items_distinct.
  rewrite iterkeys_old_sample_items. exact H.
Qed.

Lemma iterkeys_build_old_sample (L : dict Empirical) :
  NoDup (iterkeys L) -> iterkeys (@build_old_sample Val L) = iterkeys L.
Proof.
  intros H. rewrite build_old_sample_distinct by exact H.
  apply iterkeys_old_sample_items.
Qed.

Lemma old_sample_lookup (L : dict Empirical) z qz :
  NoDup (iterkeys L) -> In (z, qz) L ->
  dict_get (@build_old_sample Val L) z =
  Some (Gather (params qz) (IMaximum (ISub T (IConst 1)) (IConst 0))).
Proof.
  intros Hnd Hin. rewrite build_old_sample_distinct by exact Hnd.
  apply NoDup_dict_get.
  - rewrite iterkeys_old_sample_items. exact Hnd.
  - apply (in_map (fun zqz : node * Empirical =>
             (fst zqz,
              @Gather Val (params (snd zqz))
                (IMaximum (ISub T (IConst 1)) (IConst 0))))) in Hin.
    exact Hin.
Qed.

Lemma new_sample_distinct (dso : dict (tensor Val)) n (P : dict node) :
  NoDup (iterkeys P) ->
  dict_of_items (forward_items dso n P) = forward_items dso n P.
Proof.
  intros H. apply dict_of_items_distinct.
  rewrite iterkeys_forward_items. exact H.
Qed.

Lemma iterkeys_fold_incl {V} (items : list (node * V)) :
  forall d k,
    In k (iterkeys (fold_left (fun d kv => dict_set d (fst kv) (snd kv)) items d)) ->
    In k (iterkeys d) \/ In k (iterkeys items).
Proof.
  induction items as [|[k0 v0] items IH]; simpl; intros d k H; [left; exact H|].
  apply IH in H. destruct H as [H|H]; [|right; right; exact H].
  destruct (in_dec node_eq_dec k0 (iterkeys d)) as [Hin|Hout].
  - rewrite iterkeys_dict_set_old in H by exact Hin. left. exact H.
  - rewrite dict_set_fresh in H by exact Hout.
    unfold iterkeys in H. rewrite map_app in H. apply in_app_or in H.
    destruct H as [H|[H|[]]]; [left; exact H | right; left; exact H].
Qed.

Lemma dict_get_update_in (d e : dict (tensor Val)) k v :
  NoDup (iterkeys e) -> In k (iterkeys e) ->
  dict_get (dict_update d e) k = Some v -> dict_get e k = Some v.
Proof.
  intros Hnd Hin H. rewrite dict_get_update in H by exact Hnd.
  destruct (In_keys_dict_get e k Hin) as [v' Hv']. rewrite Hv' in H.
  rewrite Hv'. exact H.
Qed.

(** A successful construction means that the latent variables and the
    proposals have the same keys. *)
Lemma build_update_keys (self : MetropolisHastings Val) g fr g' :
  well_formed self = true ->
  build_update self g = Ok (fr, g') ->
  keys_correspond (latent_vars self) (proposal_vars self).
Proof.
  intros Hwf H. apply well_formed_NoDup in Hwf. destruct Hwf as [HL [HP _]].
  apply build_update_inv in H. destruct H.
  assert (iterkeys (new_sample fr) = iterkeys (proposal_vars self)) as Kn.
  { rewrite built_new0, new_sample_distinct by exact HP.
    apply iterkeys_forward_items. }
  assert (iterkeys (old_sample fr) = iterkeys (latent_vars self)) as Ko.
  { rewrite built_old0. apply iterkeys_build_old_sample. exact HL. }
  assert (incl (iterkeys (latent_vars self)) (iterkeys (proposal_vars self))) as Hincl.
  { intros z Hz. destruct built_train0 as [ops [_ HF]].
    unfold iterkeys in Hz. apply in_map_iff in Hz. destruct Hz as [[z' qz] [<- Hin]].
    destruct (@Forall2_In_l _ _ _ _ _ (z', qz) HF Hin) as [_ [o [_ [_ Ho]]]].
    destruct Ho as [variable [s [_ [Hs _]]]]. cbn [fst] in *.
    apply dict_get_In_keys in Hs. rewrite built_sample0 in Hs.
    unfold dict_of_items in Hs. apply iterkeys_fold_incl in Hs.
    destruct Hs as [[]|Hs]. rewrite <- Kn.
    unfold iterkeys in Hs. apply in_map_iff in Hs. destruct Hs as [[k m] [<- Hkm]].
    apply in_combine_l in Hkm. exact Hkm. }
  assert (incl (iterkeys (proposal_vars self)) (iterkeys (latent_vars self))) as Hincl'.
  { apply NoDup_length_incl; [exact HL | | exact Hincl].
    rewrite <- Kn, <- Ko. unfold iterkeys. rewrite !length_map.
    rewrite built_lengths0. apply le_n. }
  intros k. split; [apply Hincl | apply Hincl'].
Qed.

Lemma forward_terms_spec (dso : dict (tensor Val)) (P : dict node) :
  forall n all,
    (forall x, In x (forward_items dso n P) -> In x all) ->
    Forall2
      (fun zp tm =>
         exists v, In (fst zp, v) all /\
                   tm = (Plus, LogProb (snd zp) dso "proposal_znew" v))
      P (forward_terms dso (forward_items dso n P) P).
Proof.
  induction P as [|[z p] P IH]; intros n all Hall; [constructor|].
  cbn [forward_items forward_terms combine map fst snd]. constructor.
  - eexists. split; [|reflexivity]. apply Hall. left. reflexivity.
  - apply IH. intros x Hx. apply Hall. right. exact Hx.
Qed.

(** The values that the reverse pass and the priors read through
    [dict_swap_old] and [dict_swap_new] are the old and the new samples. *)
Lemma built_samples (self : MetropolisHastings Val) g fr g' :
  well_formed self = true ->
  build_update self g = Ok (fr, g') ->
  iterkeys (old_sample fr) = iterkeys (latent_vars self) /\
  iterkeys (new_sample fr) = iterkeys (proposal_vars self) /\
  (forall z v, In z (iterkeys (latent_vars self)) ->
               dict_get (dict_swap_old fr) z = Some v ->
               dict_get (old_sample fr) z = Some v) /\
  (forall z v, In z (iterkeys (latent_vars self)) ->
               dict_get (dict_swap_new fr) z = Some v ->
               dict_get (new_sample fr) z = Some v).
Proof.
  intros Hwf H. pose proof (build_update_keys _ _ Hwf H) as Hkeys.
  apply well_formed_NoDup in Hwf. destruct Hwf as [HL [HP _]].
  apply build_update_inv in H. destruct H.
  assert (iterkeys (new_sample fr) = iterkeys (proposal_vars self)) as Kn.
  { rewrite built_new0, new_sample_distinct by exact HP.
    apply iterkeys_forward_items. }
  assert (iterkeys (old_sample fr) = iterkeys (latent_vars self)) as Ko.
  { rewrite built_old0. apply iterkeys_build_old_sample. exact HL. }
  split; [exact Ko|]. split; [exact Kn|]. split.
  - intros z v Hz Hv. rewrite built_swap_old0 in Hv.
    apply dict_get_update_in in Hv; [exact Hv | |]; rewrite Ko; assumption.
  - intros z v Hz Hv. rewrite built_swap_new0 in Hv.
    apply dict_get_update_in in Hv; [exact Hv | |]; rewrite Kn.
    + exact HP.
    + apply Hkeys. exact Hz.
Qed.

End BuildFacts.

(** ** The acceptance ratio *)

Section Ratio.

Variable Val : Type.

(** The terms of the ratio, in the order they are accumulated. *)
Lemma ratio_terms_built (self : MetropolisHastings Val) g fr g' :
  well_formed self = true ->
  build_update self g = Ok (fr, g') ->
  dict_swap_old fr = dict_update (dict_swap fr) (old_sample fr) /\
  dict_swap_new fr = dict_update (dict_swap fr) (new_sample fr) /\
  exists fwd rev tgt,
    ratio fr = accumulate Zero (fwd ++ rev ++ tgt) /\
    Forall2 (forward_term (new_sample fr) (dict_swap_old fr))
            (proposal_vars self) fwd /\
    Forall2 (reverse_term (old_sample fr) (dict_swap_new fr))
            (proposal_vars self) rev /\
    target_terms self fr (new_sample fr) (old_sample fr) tgt.
Proof.
  intros Hwf H.
  pose proof (build_update_keys _ _ Hwf H) as Hkeys.
  destruct (built_samples _ _ Hwf H) as [Ko [Kn [Hold Hnew]]].
  apply well_formed_NoDup in Hwf. destruct Hwf as [HL [HP _]].
  apply build_update_inv in H. destruct H.
  split; [assumption|]. split; [assumption|].
  destruct built_ratio0 as [rev [tgt [Hr [Hrev Htgt]]]].
  eexists. exists rev, tgt. split; [exact Hr|]. split; [|split].
  - eapply Forall2_impl_In; [|apply forward_terms_spec; intros x Hx; exact Hx].
    intros zp tm _ [v [Hv ->]]. exists v. split; [|reflexivity].
    rewrite built_new0, new_sample_distinct by exact HP.
    apply NoDup_dict_get; [|exact Hv].
    rewrite iterkeys_forward_items. exact HP.
  - eapply Forall2_impl_In; [|exact Hrev].
    intros zp tm Hin [v [Hv ->]]. exists v. split; [|reflexivity].
    apply Hold; [|exact Hv]. apply Hkeys.
    apply (in_map fst) in Hin. exact Hin.
  - unfold target_terms in *. destruct (model_wrapper self); [exact Htgt|].
    destruct Htgt as [pri [lik [-> [Hpri Hlik]]]].
    exists pri, lik. split; [reflexivity|]. split; [|exact Hlik].
    eapply Forall2_impl_In; [|exact Hpri].
    intros zqz tms Hin [vn [vo [Hn [Ho ->]]]].
    apply (in_map fst) in Hin.
    exists vn, vo. split; [|split; [|reflexivity]].
    + apply Hnew; assumption.
    + apply Hold; assumption.
Qed.

(** C1.  When [build_update] returns, the ratio is [0.0] followed, in this
    order, by: for each proposal [(z, g_z)], plus the log-density of [g_z]
    copied under [dict_swap_old], at [new_sample[z]]; for each proposal,
    minus the log-density of [g_z] copied under [dict_swap_new], at
    [old_sample[z]]; then either, for each latent variable, plus its prior
    at the new sample and minus its prior at the old one, and for each
    random variable of the data, plus and minus its likelihood under the new
    and the old substitution, both at [dict_swap[x]]; or, with a model
    wrapper, plus its log-density at the new samples and minus its
    log-density at the old ones. *)
Theorem ratio_sign_order (self : MetropolisHastings Val) g fr g' :
  well_formed self = true ->
  build_update self g = Ok (fr, g') ->
  dict_swap_old fr = dict_update (dict_swap fr) (old_sample fr) /\
  dict_swap_new fr = dict_update (dict_swap fr) (new_sample fr) /\
  exists fwd rev tgt,
    ratio fr = accumulate Zero (fwd ++ rev ++ tgt) /\
    Forall2 (forward_term (new_sample fr) (dict_swap_old fr))
            (proposal_vars self) fwd /\
    Forall2 (reverse_term (old_sample fr) (dict_swap_new fr))
            (proposal_vars self) rev /\
    target_terms self fr (new_sample fr) (old_sample fr) tgt.
Proof. exact (@ratio_terms_built self g fr g'). Qed.

End Ratio.

Lemma ratio_sign_order_witness :
  dict_swap_old ex_frame = dict_update (dict_swap ex_frame) (old_sample ex_frame) /\
  dict_swap_new ex_frame = dict_update (dict_swap ex_frame) (new_sample ex_frame) /\
  exists fwd rev tgt,
    ratio ex_frame = accumulate Zero (fwd ++ rev ++ tgt) /\
    Forall2 (forward_term (new_sample ex_frame) (dict_swap_old ex_frame))
            (proposal_vars ex_model) fwd /\
    Forall2 (reverse_term (old_sample ex_frame) (dict_swap_new ex_frame))
            (proposal_vars ex_model) rev /\
    target_terms ex_model ex_frame (new_sample ex_frame) (old_sample ex_frame) tgt.
Proof.
  apply (@ratio_sign_order Z ex_model ex_graph ex_frame ex_graph').
  - reflexivity.
  - vm_compute. reflexivity.
Defined.

(** ** The committed sample *)

Section Commit.

Variable Val : Type.

Lemma map_fst_combine {A C} (l : list A) (l' : list C) :
  List.length l = List.length l' -> map fst (combine l l') = l.
Proof.
  revert l'. induction l as [|a l IH]; intros [|c l'] H; simpl in *;
    try discriminate; [reflexivity|].
  f_equal. apply IH. injection H as H. exact H.
Qed.

Lemma length_merge_outputs (pred : accept_exp Val) res_t res_f :
  List.length res_t = List.length res_f ->
  List.length (merge_outputs pred res_t res_f) = List.length res_t.
Proof.
  intros H. unfold merge_outputs. rewrite length_map, length_combine, H.
  apply Nat.min_id.
Qed.

(** The committed dictionary pairs the i-th key of [new_sample] with the
    merge of the i-th value of [new_sample] and the i-th value of
    [old_sample]. *)
Lemma sample_items (self : MetropolisHastings Val) g fr g' :
  well_formed self = true ->
  build_update self g = Ok (fr, g') ->
  sample fr =
  combine (iterkeys (new_sample fr))
    (merge_outputs (accept fr) (itervalues (new_sample fr))
       (itervalues (old_sample fr))).
Proof.
  intros Hwf H.
  destruct (built_samples _ _ Hwf H) as [Ko [Kn _]].
  apply well_formed_NoDup in Hwf. destruct Hwf as [HL [HP _]].
  apply build_update_inv in H. destruct H.
  rewrite built_sample0. apply dict_of_items_distinct.
  unfold iterkeys at 1. rewrite map_fst_combine.
  - rewrite Kn. exact HP.
  - rewrite length_merge_outputs; unfold iterkeys, itervalues;
      rewrite !length_map; [reflexivity | exact built_lengths0].
Qed.

Lemma merge_lookup_same_order (pred : accept_exp Val) :
  forall (ns os : dict (tensor Val)) z vn vo,
    iterkeys ns = iterkeys os ->
    dict_get ns z = Some vn ->
    dict_get os z = Some vo ->
    dict_get (combine (iterkeys ns)
                (merge_outputs pred (itervalues ns) (itervalues os))) z =
    Some (Merge pred vn vo).
Proof.
  induction ns as [|[k a] ns IH]; intros [|[k' b] os] z vn vo Hk Hn Ho;
    simpl in *; try discriminate.
  injection Hk as <- Hk. unfold merge_outputs. simpl.
  destruct (node_eqb z k).
  - congruence.
  - apply IH; assumption.
Qed.

(** When the latent variables and the proposals are listed in the same
    order, every latent variable gets the merge of its own new and old
    samples. *)
Lemma joint_commit_same_order (self : MetropolisHastings Val) g fr g' :
  well_formed self = true ->
  build_update self g = Ok (fr, g') ->
  iterkeys (latent_vars self) = iterkeys (proposal_vars self) ->
  forall z, In z (iterkeys (latent_vars self)) ->
    exists vn vo,
      dict_get (new_sample fr) z = Some vn /\
      dict_get (old_sample fr) z = Some vo /\
      dict_get (sample fr) z = Some (Merge (accept fr) vn vo).
Proof.
  intros Hwf H Hord z Hz.
  destruct (built_samples _ _ Hwf H) as [Ko [Kn _]].
  rewrite (sample_items _ _ Hwf H).
  assert (iterkeys (new_sample fr) = iterkeys (old_sample fr)) as Hk by congruence.
  destruct (In_keys_dict_get (new_sample fr) z) as [vn Hn]; [congruence|].
  destruct (In_keys_dict_get (old_sample fr) z) as [vo Ho]; [congruence|].
  exists vn, vo. split; [exact Hn|]. split; [exact Ho|].
  apply merge_lookup_same_order; assumption.
Qed.

(** C9.  Whatever the number of results, putting what [tf.cond] returns
    back into a list gives the list of pairwise merges.  With exactly one
    latent variable [tf.cond] returns the merge itself, not a list; wrapped
    in a list it is that same list of merges, so that [sample] maps the
    variable to the merge of its new and old sample, and the update op
    writes that merge to its variable. *)
Theorem single_latent_normalized (self : MetropolisHastings Val) g fr g' z qz :
  well_formed self = true ->
  latent_vars self = [(z, qz)] ->
  build_update self g = Ok (fr, g') ->
  (forall pred res_t res_f g0 cr g1,
      tf_cond pred res_t res_f g0 = Ok (cr, g1) ->
      as_list cr = merge_outputs (Val := Val) pred res_t res_f) /\
  exists vn vo variable,
    dict_get (new_sample fr) z = Some vn /\
    dict_get (old_sample fr) z = Some vo /\
    (forall g0,
        tf_cond (accept fr) (itervalues (new_sample fr))
          (itervalues (old_sample fr)) g0 =
        Ok (OneTensor (Merge (accept fr) vn vo), g0)) /\
    as_list (OneTensor (Merge (accept fr) vn vo)) =
    merge_outputs (accept fr) (itervalues (new_sample fr))
      (itervalues (old_sample fr)) /\
    sample fr = [(z, Merge (accept fr) vn vo)] /\
    resolve_variable (VARIABLES g) qz = Ok variable /\
    train fr =
    [ScatterUpdate variable T (Merge (accept fr) vn vo);
     AssignAdd_n_accept (accept fr) 1 0].
Proof.
  intros Hwf HL H. split.
  { intros pred res_t res_f g0 cr g1 Hc. apply tf_cond_inv in Hc. apply Hc. }
  destruct (built_samples _ _ Hwf H) as [Ko [Kn _]].
  pose proof (sample_items _ _ Hwf H) as Hs.
  apply build_update_inv in H. destruct H.
  rewrite HL in *. cbn [iterkeys map fst] in Ko.
  destruct (old_sample fr) as [|[k vo] [|? ?]] eqn:Eo; try discriminate.
  injection Ko as ->.
  destruct (new_sample fr) as [|[k vn] [|? ?]] eqn:En;
    simpl in built_lengths0; try discriminate built_lengths0.
  destruct built_train0 as [ops [Ht HF]].
  inversion HF as [|? o ? ops' Ho HF']; subst. inversion HF'; subst.
  destruct Ho as [variable [s [Hv [Hs' ->]]]]. cbn [fst snd] in *.
  rewrite Hs in Hs'. cbn in Hs'.
  destruct (node_eqb z k) eqn:Ek; [|discriminate].
  apply node_eqb_eq in Ek. subst k. injection Hs' as <-.
  exists vn, vo, variable. cbn [dict_get]. rewrite node_eqb_refl.
  repeat split; try reflexivity; try assumption.
Qed.

End Commit.

(** ** When the construction succeeds *)

Section Success.

Variable Val : Type.

Lemma bind_Ok {A C} (m : Build A) (k : A -> Build C) g a g1 :
  m g = Ok (a, g1) -> bind m k g = k a g1.
Proof. unfold bind. intros ->. reflexivity. Qed.

Lemma reverse_pass_ok (P : dict node) (dso dsn : dict (tensor Val)) g :
  (forall zp, In zp P -> exists v, dict_get dso (fst zp) = Some v) ->
  forall r, exists r', reverse_pass P dso dsn r g = Ok (r', g).
Proof.
  unfold reverse_pass. induction P as [|[z p] P IH]; intros H r.
  - exists r. reflexivity.
  - destruct (H (z, p) (or_introl eq_refl)) as [v Hv]. cbn [fst] in Hv.
    cbn [for_each fst snd]. unfold bind at 1. unfold bind at 1.
    rewrite (getitem_Some _ _ g Hv). cbn [ret].
    apply IH. intros zp Hin. apply H. right. exact Hin.
Qed.

Lemma prior_terms_ok (L : dict Empirical) (dso dsn : dict (tensor Val)) g :
  (forall zqz, In zqz L ->
     (exists v, dict_get dsn (fst zqz) = Some v) /\
     (exists v, dict_get dso (fst zqz) = Some v)) ->
  forall r, exists r', prior_terms L dso dsn r g = Ok (r', g).
Proof.
  unfold prior_terms. induction L as [|[z qz] L IH]; intros H r.
  - exists r. reflexivity.
  - destruct (H (z, qz) (or_introl eq_refl)) as [[vn Hn] [vo Ho]].
    cbn [fst] in Hn, Ho.
    cbn [for_each fst snd]. unfold bind at 1. unfold bind at 1.
    rewrite (getitem_Some _ _ g Hn). unfold bind at 1.
    rewrite (getitem_Some _ _ g Ho). cbn [ret].
    apply IH. intros zqz Hin. apply H. right. exact Hin.
Qed.

Lemma likelihood_terms_ok (D : dict (datum Val)) (ds dso dsn : dict (tensor Val)) g :
  (forall xqx, In xqx D -> isinstance_RandomVariable (fst xqx) = true ->
     exists v, dict_get ds (fst xqx) = Some v) ->
  forall r, exists r', likelihood_terms D ds dso dsn r g = Ok (r', g).
Proof.
  unfold likelihood_terms. induction D as [|[x qx] D IH]; intros H r.
  - exists r. reflexivity.
  - cbn [for_each fst snd]. unfold bind at 1.
    destruct (isinstance_RandomVariable x) eqn:Ex.
    + destruct (H (x, qx) (or_introl eq_refl) Ex) as [v Hv]. cbn [fst] in Hv.
      unfold bind at 1. rewrite (getitem_Some _ _ g Hv).
      unfold bind at 1. rewrite (getitem_Some _ _ g Hv). cbn [ret].
      apply IH. intros xqx Hin. apply H. right. exact Hin.
    + cbn [ret]. apply IH. intros xqx Hin. apply H. right. exact Hin.
Qed.

Lemma tf_cond_ok (pred : accept_exp Val) res_t res_f g :
  List.length res_t = List.length res_f -> res_t <> [] ->
  exists cr, tf_cond pred res_t res_f g = Ok (cr, g).
Proof.
  intros Hlen Hne. unfold tf_cond. rewrite Hlen, Nat.eqb_refl. cbn [negb].
  destruct res_t as [|a res_t]; [contradiction|].
  destruct (merge_outputs pred (a :: res_t) res_f) as [|m [|m' ms]];
    eexists; reflexivity.
Qed.

Lemma update_empirical_ok (L : dict Empirical) (sample : dict (merged Val)) g :
  (forall zqz, In zqz L ->
     (exists v, resolve_variable (VARIABLES g) (snd zqz) = Ok v) /\
     (exists s, dict_get sample (fst zqz) = Some s)) ->
  exists ops, update_empirical L sample g = Ok (ops, g).
Proof.
  unfold update_empirical, get_collection_VARIABLES. unfold bind at 1.
  intros H.
  match goal with
  | |- exists ops, for_each ?body L _ g = _ =>
      enough (forall ops0, exists ops, for_each body L ops0 g = Ok (ops, g))
        as E by apply E
  end.
  revert H. induction L as [|[z qz] L IH]; intros H ops0.
  - exists ops0. reflexivity.
  - destruct (H (z, qz) (or_introl eq_refl)) as [[v Hv] [s0 Hs]].
    cbn [fst snd] in Hv, Hs.
    cbn [for_each fst snd]. unfold bind at 1. unfold bind at 1.
    unfold lift. rewrite Hv. unfold bind at 1.
    rewrite (getitem_Some _ _ g Hs). cbn [ret].
    apply IH. intros zqz Hin. apply H. right. exact Hin.
Qed.

(** A well-formed configuration whose two dictionaries have the same keys,
    with at least one latent variable and a variable of the graph two
    inputs above every handle, is one for which [build_update] returns. *)
Lemma build_update_succeeds (self : MetropolisHastings Val) g :
  well_formed self = true ->
  keys_correspond (latent_vars self) (proposal_vars self) ->
  latent_vars self <> [] ->
  (forall z qz, In (z, qz) (latent_vars self) ->
     exists v, resolve_variable (VARIABLES g) qz = Ok v) ->
  exists fr g', build_update self g = Ok (fr, g').
Proof.
  intros Hwf Hkeys Hne Hres.
  pose proof (well_formed_NoDup _ Hwf) as [HL [HP HD]].
  unfold build_update.
  rewrite (@bind_Ok _ _ _ _ _ _ _ (build_dict_swap_spec (data self) g)).
  set (ds := dict_of_items (swap_items (List.length (sample_ops g)) (data self))).
  set (os := build_old_sample (latent_vars self)).
  set (dso := dict_update ds os).
  rewrite (@bind_Ok _ _ _ _ _ _ _ (forward_pass_spec dso (proposal_vars self) _)).
  cbn [sample_ops VARIABLES].
  set (ns := dict_of_items
               (forward_items dso
                  (List.length (sample_ops g ++ conditional_ops (data self)))
                  (proposal_vars self))).
  set (dsn := dict_update ds ns).
  assert (iterkeys os = iterkeys (latent_vars self)) as Ko
    by (apply iterkeys_build_old_sample; exact HL).
  assert (iterkeys ns = iterkeys (proposal_vars self)) as Kn.
  { unfold ns. rewrite new_sample_distinct by exact HP.
    apply iterkeys_forward_items. }
  assert (forall z, In z (iterkeys (latent_vars self)) ->
                    (exists v, dict_get dsn z = Some v) /\
                    (exists v, dict_get dso z = Some v)) as Hlook.
  { intros z Hz. split.
    - destruct (In_keys_dict_get ns z) as [v Hv];
        [rewrite Kn; apply Hkeys; exact Hz|].
      exists v. unfold dsn. rewrite dict_get_update, Hv; [reflexivity|].
      rewrite Kn. exact HP.
    - destruct (In_keys_dict_get os z) as [v Hv]; [rewrite Ko; exact Hz|].
      exists v. unfold dso. rewrite dict_get_update, Hv; [reflexivity|].
      rewrite Ko. exact HL. }
  match goal with
  | |- context [bind (reverse_pass _ _ _ ?r1) _ ?gg] =>
      assert (exists r2, reverse_pass (proposal_vars self) dso dsn r1 gg = Ok (r2, gg))
        as [r2 Hr2]; [apply reverse_pass_ok|]
  end.
  { intros zp Hin. apply Hlook. apply Hkeys. apply (in_map fst) in Hin. exact Hin. }
  rewrite (@bind_Ok _ _ _ _ _ _ _ Hr2).
  match goal with
  | |- context [bind ?m _ ?gg] =>
      assert (exists r3, m gg = Ok (r3, gg)) as [r3 Hr3]
  end.
  { destruct (model_wrapper self) as [wrapper|].
    - eexists. reflexivity.
    - assert (exists rp,
                 prior_terms (latent_vars self) dso dsn r2
                   {| VARIABLES := VARIABLES g;
                      sample_ops := (sample_ops g ++ conditional_ops (data self))
                                      ++ proposal_ops (proposal_vars self) |} =
                 Ok (rp, {| VARIABLES := VARIABLES g;
                            sample_ops := (sample_ops g ++ conditional_ops (data self))
                                            ++ proposal_ops (proposal_vars self) |}))
        as [rp Hrp]; [apply prior_terms_ok|].
      { intros zqz Hin. apply Hlook. apply (in_map fst) in Hin. exact Hin. }
      rewrite (@bind_Ok _ _ _ _ _ _ _ Hrp).
      apply likelihood_terms_ok. intros xqx Hin Hx.
      apply In_keys_dict_get. unfold ds.
      rewrite dict_of_items_distinct
        by (rewrite iterkeys_swap_items; apply NoDup_filter; exact HD).
      rewrite iterkeys_swap_items. apply filter_In.
      split; [apply (in_map fst) in Hin; exact Hin | exact Hx]. }
  rewrite (@bind_Ok _ _ _ _ _ _ _ Hr3). unfold bind at 1. cbn [uniform_sample].
  assert (List.length (itervalues ns) = List.length (itervalues os)) as Hlen.
  { unfold itervalues. rewrite !length_map.
    rewrite <- (length_map fst ns), <- (length_map fst os).
    fold (iterkeys ns) (iterkeys os). rewrite Kn, Ko.
    apply Nat.le_antisymm; apply NoDup_incl_length; try assumption;
      intros k Hk; apply Hkeys; exact Hk. }
  assert (itervalues ns <> []) as Hnn.
  { intros E. rewrite E in Hlen. cbn in Hlen. symmetry in Hlen.
    apply length_zero_iff_nil in Hlen.
    unfold itervalues in Hlen. apply map_eq_nil in Hlen.
    apply Hne. assert (iterkeys (latent_vars self) = []) as E'
      by (rewrite <- Ko, Hlen; reflexivity).
    unfold iterkeys in E'. apply map_eq_nil in E'. exact E'. }
  match goal with
  | |- context [tf_cond ?pred _ _] =>
      destruct (@tf_cond_ok pred (itervalues ns) (itervalues os)
                  {| VARIABLES := VARIABLES g;
                     sample_ops := ((sample_ops g ++ conditional_ops (data self))
                                      ++ proposal_ops (proposal_vars self))
                                     ++ [UniformSample] |} Hlen Hnn)
        as [cr Hcr];
      pose proof (tf_cond_inv _ _ _ _ Hcr) as [_ [_ [_ Hcr']]]
  end.
  rewrite (@bind_Ok _ _ _ _ _ _ _ Hcr).
  match goal with
  | |- context [update_empirical ?L ?smp] =>
      destruct (@update_empirical_ok L smp
                  {| VARIABLES := VARIABLES g;
                     sample_ops := ((sample_ops g ++ conditional_ops (data self))
                                      ++ proposal_ops (proposal_vars self))
                                     ++ [UniformSample] |})
        as [ops Hops]
  end.
  { intros [z qz] Hin. cbn [fst snd VARIABLES]. split; [exact (Hres _ _ Hin)|].
    apply In_keys_dict_get. rewrite Hcr'. cbn [sample_ops VARIABLES].
    assert (iterkeys
              (combine (iterkeys ns)
                 (merge_outputs
                    {| u_uid :=
                         List.length
                           ((sample_ops g ++ conditional_ops (data self))
                              ++ proposal_ops (proposal_vars self));
                       ratio_of := r3 |}
                    (itervalues ns) (itervalues os))) = iterkeys ns) as Kc.
    { unfold iterkeys at 1. apply map_fst_combine.
      rewrite length_merge_outputs by exact Hlen.
      unfold iterkeys, itervalues. rewrite !length_map. reflexivity. }
    rewrite dict_of_items_distinct by (rewrite Kc, Kn; exact HP).
    rewrite Kc, Kn. apply Hkeys. apply (in_map fst) in Hin. exact Hin. }
  rewrite (@bind_Ok _ _ _ _ _ _ _ Hops). eexists. eexists. reflexivity.
Qed.

End Success.

Lemma single_latent_normalized_witness :
  (forall pred res_t res_f g0 cr g1,
      tf_cond pred res_t res_f g0 = Ok (cr, g1) ->
      as_list cr = merge_outputs (Val := Z) pred res_t res_f) /\
  exists vn vo variable,
    dict_get (new_sample ex_single_frame) ex_z1 = Some vn /\
    dict_get (old_sample ex_single_frame) ex_z1 = Some vo /\
    (forall g0,
        tf_cond (accept ex_single_frame) (itervalues (new_sample ex_single_frame))
          (itervalues (old_sample ex_single_frame)) g0 =
        Ok (OneTensor (Merge (accept ex_single_frame) vn vo), g0)) /\
    as_list (OneTensor (Merge (accept ex_single_frame) vn vo)) =
    merge_outputs (accept ex_single_frame) (itervalues (new_sample ex_single_frame))
      (itervalues (old_sample ex_single_frame)) /\
    sample ex_single_frame = [(ex_z1, Merge (accept ex_single_frame) vn vo)] /\
    resolve_variable (VARIABLES ex_graph) ex_qz1 = Ok variable /\
    train ex_single_frame =
    [ScatterUpdate variable T (Merge (accept ex_single_frame) vn vo);
     AssignAdd_n_accept (accept ex_single_frame) 1 0].
Proof.
  apply (@single_latent_normalized Z ex_single ex_graph ex_single_frame
           ex_single_graph' ex_z1 ex_qz1).
  - reflexivity.
  - reflexivity.
  - vm_compute. reflexivity.
Defined.

(** C2.  With the proposals listed in another order than the latent
    variables, a rejected step does not keep the old samples: the values
    of [old_sample] are paired with the keys of [new_sample], so each
    variable is given the old sample of the other one, and the update op
    writes them to the wrong buffers. *)
Theorem rejected_step_mispairs_old_samples :
  well_formed ex_swapped = true /\
  keys_correspond (latent_vars ex_swapped) (proposal_vars ex_swapped) /\
  build_update ex_swapped ex_graph = Ok (ex_swapped_frame, ex_swapped_graph') /\
  eval_accept Zbackend ex_session ex_reject (accept ex_swapped_frame) = Some false /\
  eval_dict Zbackend ex_session ex_reject (old_sample ex_swapped_frame) =
    Some [(ex_z1, 10%Z); (ex_z2, 20%Z)] /\
  committed Zbackend ex_session ex_reject ex_swapped_frame =
    [(ex_z2, Some 10%Z); (ex_z1, Some 20%Z)] /\
  run Zbackend (train ex_swapped_frame) ex_session ex_reject =
    Some {| buffers := [("qz1"%string, [20; 0; 0]%Z); ("qz2"%string, [10; 0; 0]%Z)];
            t := 0;
            n_accept := 0 |}.
Proof.
  split; [reflexivity|]. split.
  { intros k. simpl. tauto. }
  repeat split; vm_compute; reflexivity.
Qed.

(** ** The substitution dictionary and the auxiliary draws *)

Section Swap.

Variable Val : Type.

Lemma swap_items_uid_bound (D : dict (datum Val)) :
  forall n x u q sw sc,
    In (x, Value u q sw sc) (swap_items n D) -> n <= u.
Proof.
  induction D as [|[x0 qx0] D IH]; intros n x u q sw sc H; [destruct H|].
  cbn [swap_items fst snd] in H.
  destruct (isinstance_RandomVariable x0); [|exact (IH _ _ _ _ _ _ H)].
  destruct qx0 as [[i|i]|v]; destruct H as [H|H];
    try discriminate H; try exact (IH _ _ _ _ _ _ H).
  - injection H as _ <- _ _ _. apply le_n.
  - apply IH in H. lia.
Qed.

Lemma swap_items_entry (D : dict (datum Val)) :
  forall n x qx,
    In (x, qx) D ->
    isinstance_RandomVariable x = true ->
    if isinstance_RandomVariable_datum qx then
      exists uid q,
        qx = Obj q /\
        In (x, Value uid q [] "conditional") (swap_items n D) /\
        n <= uid /\
        nth_error (conditional_ops D) (uid - n) = Some (ValueOf q "conditional")
    else In (x, Constant qx) (swap_items n D).
Proof.
  induction D as [|[x0 qx0] D IH]; intros n x qx Hin Hx; [destruct Hin|].
  cbn [swap_items conditional_ops fst snd]. destruct Hin as [Heq|Hin].
  - injection Heq as -> ->. rewrite Hx.
    destruct qx as [[i|i]|v]; cbn [isinstance_RandomVariable_datum
                                     isinstance_RandomVariable].
    + exists n, (RandomVariable i). split; [reflexivity|].
      split; [left; reflexivity|]. split; [apply le_n|].
      rewrite Nat.sub_diag. reflexivity.
    + left. reflexivity.
    + left. reflexivity.
  - specialize (IH (if isinstance_RandomVariable x0 then
                      match qx0 with
                      | Obj (RandomVariable _) => S n
                      | _ => n
                      end
                    else n) x qx Hin Hx).
    destruct (isinstance_RandomVariable_datum qx) eqn:Eq.
    + destruct IH as [uid [q [-> [Hi [Hle Hn]]]]].
      exists uid, q. split; [reflexivity|].
      destruct (isinstance_RandomVariable x0).
      * destruct qx0 as [[i|i]|v].
        -- split; [right; exact Hi|]. split; [lia|].
           replace (uid - n) with (S (uid - S n)) by lia. exact Hn.
        -- split; [right; exact Hi|]. split; assumption.
        -- split; [right; exact Hi|]. split; assumption.
      * split; [exact Hi|]. split; assumption.
    + destruct (isinstance_RandomVariable x0); [|exact IH].
      destruct qx0 as [[i|i]|v]; right; exact IH.
Qed.

Lemma swap_items_uid_inj (D : dict (datum Val)) :
  forall n x x' u q q' sw sw' sc sc',
    In (x, Value u q sw sc) (swap_items n D) ->
    In (x', Value u q' sw' sc') (swap_items n D) ->
    NoDup (iterkeys D) ->
    x = x'.
Proof.
  induction D as [|[x0 qx0] D IH]; intros n x x' u q q' sw sw' sc sc' H H' Hnd;
    [destruct H|].
  inversion Hnd as [|? ? _ Hnd']; subst.
  cbn [swap_items fst snd] in H, H'.
  destruct (isinstance_RandomVariable x0);
    [|exact (IH _ _ _ _ _ _ _ _ _ _ H H' Hnd')].
  destruct qx0 as [[i|i]|v]; destruct H as [H|H]; destruct H' as [H'|H'];
    try discriminate H; try discriminate H';
    try exact (IH _ _ _ _ _ _ _ _ _ _ H H' Hnd').
  - congruence.
  - injection H as _ <- _ _ _. apply swap_items_uid_bound in H'. lia.
  - injection H' as _ <- _ _ _. apply swap_items_uid_bound in H. lia.
Qed.

Lemma NoDup_iterkeys_swap_items n (D : dict (datum Val)) :
  NoDup (iterkeys D) -> NoDup (iterkeys (swap_items n D)).
Proof. intros H. rewrite iterkeys_swap_items. apply NoDup_filter. exact H. Qed.

Lemma length_conditional_ops (D : dict (datum Val)) :
  List.length (conditional_ops D) = List.length (filter (@auxiliary Val) D).
Proof.
  induction D as [|[x qx] D IH]; [reflexivity|].
  cbn [conditional_ops filter fst snd]. unfold auxiliary at 1. cbn [fst snd].
  destruct (isinstance_RandomVariable x); [|exact IH].
  destruct qx as [[i|i]|v]; cbn; rewrite ?IH; reflexivity.
Qed.

Lemma conditional_ops_scope (D : dict (datum Val)) :
  filter (has_scope "conditional")
         (conditional_ops D) = conditional_ops D.
Proof.
  induction D as [|[x qx] D IH]; [reflexivity|].
  cbn [conditional_ops fst snd].
  destruct (isinstance_RandomVariable x); [|exact IH].
  destruct qx as [[i|i]|v]; try exact IH.
  cbn [filter snd]. rewrite IH. reflexivity.
Qed.

Lemma proposal_ops_scope (P : dict node) :
  filter (has_scope "conditional")
         (proposal_ops P) = [].
Proof. induction P as [|zp P IH]; [reflexivity | exact IH]. Qed.

(** The entries of [dict_swap] for the items of the data. *)
Lemma dict_swap_lookup (self : MetropolisHastings Val) g fr g' x qx :
  well_formed self = true ->
  build_update self g = Ok (fr, g') ->
  In (x, qx) (data self) ->
  if isinstance_RandomVariable x then
    if isinstance_RandomVariable_datum qx then
      exists uid q,
        qx = Obj q /\
        dict_get (dict_swap fr) x = Some (Value uid q [] "conditional") /\
        List.length (sample_ops g) <= uid /\
        nth_error (sample_ops g') uid = Some (ValueOf q "conditional")
    else dict_get (dict_swap fr) x = Some (Constant qx)
  else dict_get (dict_swap fr) x = None.
Proof.
  intros Hwf H Hin.
  apply well_formed_NoDup in Hwf. destruct Hwf as [_ [_ HD]].
  apply build_update_inv in H. destruct H.
  pose proof (NoDup_iterkeys_swap_items (List.length (sample_ops g)) _ HD) as Hnd.
  rewrite built_swap0, dict_of_items_distinct by exact Hnd.
  destruct (isinstance_RandomVariable x) eqn:Ex.
  - pose proof (swap_items_entry _ (List.length (sample_ops g)) _ _ Hin Ex) as He.
    destruct (isinstance_RandomVariable_datum qx).
    + destruct He as [uid [q [-> [Hi [Hle Hn]]]]].
      exists uid, q. split; [reflexivity|].
      split; [apply NoDup_dict_get; assumption|]. split; [exact Hle|].
      rewrite built_graph0. cbn [sample_ops].
      rewrite nth_error_app2 by exact Hle.
      rewrite nth_error_app1; [exact Hn|].
      apply nth_error_Some. rewrite Hn. discriminate.
    + apply NoDup_dict_get; assumption.
  - apply dict_get_None. rewrite iterkeys_swap_items. intros Hf.
    apply filter_In in Hf. destruct Hf as [_ Hf]. congruence.
Qed.

(** C8 (as the code has it).  For every item [(x, qx)] of the data whose
    key is a random variable, [dict_swap[x]] is one sample of a copy of
    [qx] when [qx] is a random variable too, and [qx] itself otherwise; a
    key that is not a random variable has no entry in [dict_swap]. *)
Theorem dict_swap_random_variable_keys
  (self : MetropolisHastings Val) g fr g' x qx :
  well_formed self = true ->
  build_update self g = Ok (fr, g') ->
  In (x, qx) (data self) ->
  if isinstance_RandomVariable x then
    if isinstance_RandomVariable_datum qx then
      exists uid q,
        qx = Obj q /\
        dict_get (dict_swap fr) x = Some (Value uid q [] "conditional")
    else dict_get (dict_swap fr) x = Some (Constant qx)
  else dict_get (dict_swap fr) x = None.
Proof.
  intros Hwf H Hin. pose proof (dict_swap_lookup _ _ _ _ Hwf H Hin) as Hl.
  destruct (isinstance_RandomVariable x); [|exact Hl].
  destruct (isinstance_RandomVariable_datum qx); [|exact Hl].
  destruct Hl as [uid [q [Hq [Hg _]]]]. exists uid, q. split; assumption.
Qed.

(** C3.  The sample tensors that [build_update] adds to the graph under the
    scope "conditional" are as many as the data items whose key and value
    are both random variables.  For each such item [(x, qx)], [dict_swap[x]]
    is the sample tensor of one copy of [qx], created by this call and
    shared with no other key; its value in a step is the draw of that one
    sample op.  [dict_swap_old] and [dict_swap_new] map [x] to that same
    tensor unless [x] is a latent variable, and without a model wrapper the
    two likelihood terms of [x], under the new and under the old
    substitution, are both evaluated at it. *)
Theorem auxiliary_draw_shared (self : MetropolisHastings Val) g fr g' :
  well_formed self = true ->
  build_update self g = Ok (fr, g') ->
  List.length
    (filter (has_scope "conditional")
       (skipn (List.length (sample_ops g)) (sample_ops g'))) =
  List.length (filter (@auxiliary Val) (data self)) /\
  forall x qx,
    In (x, qx) (data self) ->
    auxiliary (x, qx) = true ->
    exists uid q,
      qx = Obj q /\
      dict_get (dict_swap fr) x = Some (Value uid q [] "conditional") /\
      List.length (sample_ops g) <= uid /\
      nth_error (sample_ops g') uid = Some (ValueOf q "conditional") /\
      (forall x' q' sw sc,
          dict_get (dict_swap fr) x' = Some (Value uid q' sw sc) -> x' = x) /\
      (forall R Noise (B : backend Val R Noise) st w,
          eval_tensor B st w (Value uid q [] "conditional") =
          Some (sample_sem B q [] "conditional" (noise w uid))) /\
      (~ In x (iterkeys (latent_vars self)) ->
       dict_get (dict_swap_old fr) x = Some (Value uid q [] "conditional") /\
       dict_get (dict_swap_new fr) x = Some (Value uid q [] "conditional")) /\
      (model_wrapper self = None ->
       exists pre post,
         ratio fr =
         accumulate Zero
           (pre ++
            [(Plus, LogProb x (dict_swap_new fr) "x_znew"
                      (Value uid q [] "conditional"));
             (Minus, LogProb x (dict_swap_old fr) "x_zold"
                       (Value uid q [] "conditional"))] ++
            post)).
Proof.
  intros Hwf H. split.
  { apply build_update_inv in H. destruct H. rewrite built_graph0.
    cbn [sample_ops]. rewrite skipn_app, skipn_all, Nat.sub_diag.
    cbn [skipn app]. rewrite !filter_app, conditional_ops_scope, proposal_ops_scope.
    cbn. rewrite app_nil_r. apply length_conditional_ops. }
  intros x qx Hin Haux. unfold auxiliary in Haux. cbn [fst snd] in Haux.
  apply andb_true_iff in Haux. destruct Haux as [Ex Eq].
  pose proof (dict_swap_lookup _ _ _ _ Hwf H Hin) as Hl.
  rewrite Ex, Eq in Hl. destruct Hl as [uid [q [-> [Hg [Hle Hn]]]]].
  pose proof (build_update_keys _ _ Hwf H) as Hkeys.
  destruct (built_samples _ _ Hwf H) as [Ko [Kn _]].
  pose proof (well_formed_NoDup _ Hwf) as [HL [HP HD]].
  apply build_update_inv in H. destruct H.
  exists uid, q. split; [reflexivity|]. split; [exact Hg|].
  split; [exact Hle|]. split; [exact Hn|]. split; [|split; [|split]].
  - intros x' q' sw sc Hg'.
    rewrite built_swap0 in Hg, Hg'.
    rewrite dict_of_items_distinct in Hg, Hg'
      by (apply NoDup_iterkeys_swap_items; exact HD).
    apply dict_get_Some_In in Hg, Hg'.
    exact (swap_items_uid_inj _ _ _ _ _ _ _ _ _ _ _ Hg' Hg HD).
  - reflexivity.
  - intros Hx. split.
    + rewrite built_swap_old0, dict_get_update by (rewrite Ko; exact HL).
      replace (dict_get (old_sample fr) x) with (@None (tensor Val)); [exact Hg|].
      symmetry. apply dict_get_None. rewrite Ko. exact Hx.
    + rewrite built_swap_new0, dict_get_update by (rewrite Kn; exact HP).
      replace (dict_get (new_sample fr) x) with (@None (tensor Val)); [exact Hg|].
      symmetry. apply dict_get_None. rewrite Kn. intros Hp. apply Hx.
      apply Hkeys. exact Hp.
  - intros Hmw. destruct built_ratio0 as [rev [tgt [Hr [_ Htgt]]]].
    unfold target_terms in Htgt. rewrite Hmw in Htgt.
    destruct Htgt as [pri [lik [-> [_ Hlik]]]].
    destruct (@Forall2_In_l _ _ _ _ _ (x, Obj q) Hlik Hin)
      as [l1 [c [l2 [-> Hc]]]].
    unfold likelihood_group in Hc. cbn [fst] in Hc. rewrite Ex in Hc.
    destruct Hc as [v [Hv ->]].
    assert (v = Value uid q [] "conditional") as -> by congruence.
    rewrite Hr, concat_app. cbn [List.concat].
    eexists. exists (List.concat l2).
    rewrite !app_assoc. reflexivity.
Qed.

End Swap.

Lemma dict_swap_random_variable_keys_witness :
  exists uid q,
    @Obj Z (RandomVariable 14) = Obj q /\
    dict_get (dict_swap ex_frame) ex_beta = Some (Value uid q [] "conditional").
Proof.
  apply (@dict_swap_random_variable_keys Z ex_model ex_graph ex_frame ex_graph'
           ex_beta (Obj (RandomVariable 14))).
  - reflexivity.
  - vm_compute. reflexivity.
  - right. left. reflexivity.
Defined.

(** C8 as stated fails for a key that is not a random variable: the
    placeholder key of the example data is left out of [dict_swap]. *)
Lemma dict_swap_omits_placeholder_key :
  In (Placeholder 9) (iterkeys (data ex_model)) /\
  build_update ex_model ex_graph = Ok (ex_frame, ex_graph') /\
  dict_get (dict_swap ex_frame) (Placeholder 9) = None.
Proof.
  split; [right; right; left; reflexivity|].
  split; vm_compute; reflexivity.
Qed.

Lemma auxiliary_draw_shared_witness :
  List.length
    (filter (has_scope "conditional")
       (skipn (List.length (sample_ops ex_graph)) (sample_ops ex_graph'))) =
  List.length (filter (@auxiliary Z) (data ex_model)) /\
  forall x qx,
    In (x, qx) (data ex_model) ->
    auxiliary (x, qx) = true ->
    exists uid q,
      qx = Obj q /\
      dict_get (dict_swap ex_frame) x = Some (Value uid q [] "conditional") /\
      List.length (sample_ops ex_graph) <= uid /\
      nth_error (sample_ops ex_graph') uid = Some (ValueOf q "conditional") /\
      (forall x' q' sw sc,
          dict_get (dict_swap ex_frame) x' = Some (Value uid q' sw sc) -> x' = x) /\
      (forall R Noise (B : backend Z R Noise) st w,
          eval_tensor B st w (Value uid q [] "conditional") =
          Some (sample_sem B q [] "conditional" (noise w uid))) /\
      (~ In x (iterkeys (latent_vars ex_model)) ->
       dict_get (dict_swap_old ex_frame) x = Some (Value uid q [] "conditional") /\
       dict_get (dict_swap_new ex_frame) x = Some (Value uid q [] "conditional")) /\
      (model_wrapper ex_model = None ->
       exists pre post,
         ratio ex_frame =
         accumulate Zero
           (pre ++
            [(Plus, LogProb x (dict_swap_new ex_frame) "x_znew"
                      (Value uid q [] "conditional"));
             (Minus, LogProb x (dict_swap_old ex_frame) "x_zold"
                       (Value uid q [] "conditional"))] ++
            post)).
Proof.
  apply (@auxiliary_draw_shared Z ex_model ex_graph ex_frame ex_graph').
  - reflexivity.
  - vm_compute. reflexivity.
Defined.

(** ** Configuration errors *)

Section Configuration.

Variable Val : Type.

Lemma variables_getitem_Ok (collection : list string) n v :
  variables_getitem collection n = Ok v <-> n = v /\ In v collection.
Proof.
  unfold variables_getitem.
  destruct (existsb (String.eqb n) collection) eqn:E.
  - apply existsb_exists in E. destruct E as [y [Hy Ey]].
    apply String.eqb_eq in Ey. subst y. split.
    + intros [= <-]. split; [reflexivity | exact Hy].
    + intros [-> _]. reflexivity.
  - split; [discriminate|]. intros [-> Hin].
    assert (existsb (String.eqb v) collection = true) as E'.
    { apply existsb_exists. exists v. split; [exact Hin | apply String.eqb_refl]. }
    congruence.
Qed.

Lemma resolve_variable_Ok (variables : list string) (qz : Empirical) v :
  resolve_variable variables qz = Ok v <->
  exists a b,
    hd_error (inputs (params qz)) = Some a /\
    hd_error (inputs a) = Some b /\
    name b = v /\
    In v variables.
Proof.
  unfold resolve_variable, op_inputs_0.
  destruct (inputs (params qz)) as [|a l]; cbn [hd_error].
  { split; [discriminate | intros [a [b [Ha _]]]; discriminate]. }
  destruct (inputs a) as [|b l'] eqn:Ea; cbn [hd_error].
  { split; [discriminate|]. intros [a' [b [Ha [Hb _]]]].
    injection Ha as <-. rewrite Ea in Hb. discriminate. }
  rewrite variables_getitem_Ok. split.
  - intros [Hn Hin]. exists a, b. rewrite Ea. repeat split; assumption.
  - intros [a' [b' [Ha [Hb [Hn Hin]]]]]. injection Ha as <-.
    rewrite Ea in Hb. injection Hb as <-. split; assumption.
Qed.


Lemma resolve_levels (variables : list string) k v :
  (k < 2 ->
   resolve_variable variables {| params := levels k v |} = Raise IndexError) /\
  (In v variables ->
   resolve_variable variables {| params := levels 2 v |} = Ok v) /\
  (2 < k -> ~ In (name (levels (k - 2) v)) variables ->
   resolve_variable variables {| params := levels k v |} = Raise KeyError).
Proof.
  split; [|split].
  - intros Hk. destruct k as [|[|k]]; [reflexivity | reflexivity | lia].
  - intros Hin. apply resolve_variable_Ok. cbn.
    eexists. eexists. repeat split. exact Hin.
  - intros Hk Hn. destruct k as [|[|k]]; try lia.
    replace (S (S k) - 2) with k in Hn by lia.
    unfold resolve_variable. cbn [levels params inputs op_inputs_0].
    unfold variables_getitem.
    destruct (existsb (String.eqb (name (levels k v))) variables) eqn:E;
      [|reflexivity].
    apply existsb_exists in E. destruct E as [y [Hy Ey]].
    apply String.eqb_eq in Ey. subst y. contradiction.
Qed.

(** C5 (as the code has it).  The variable behind an Empirical is looked
    for exactly two inputs up from [qz.params]: the lookup succeeds if and
    only if that tensor exists and has the name of a variable of the graph.
    So a variable of the graph seen through [k] identity ops is found for
    [k = 2]; for [k < 2] the lookup raises IndexError; for [k > 2] it
    raises KeyError, unless the identity op two inputs up carries the name
    of a variable.  When the lookup fails, [build_update] raises and
    returns no op; when [build_update] returns, the op writes to the
    variable found there. *)
Theorem root_buffer_two_inputs_up (self : MetropolisHastings Val) g z qz :
  In (z, qz) (latent_vars self) ->
  (forall v,
      resolve_variable (VARIABLES g) qz = Ok v <->
      exists a b,
        hd_error (inputs (params qz)) = Some a /\
        hd_error (inputs a) = Some b /\
        name b = v /\
        In v (VARIABLES g)) /\
  (forall k v,
      (k < 2 ->
       resolve_variable (VARIABLES g) {| params := levels k v |} =
       Raise IndexError) /\
      (In v (VARIABLES g) ->
       resolve_variable (VARIABLES g) {| params := levels 2 v |} = Ok v) /\
      (2 < k -> ~ In (name (levels (k - 2) v)) (VARIABLES g) ->
       resolve_variable (VARIABLES g) {| params := levels k v |} =
       Raise KeyError)) /\
  ((forall v, resolve_variable (VARIABLES g) qz <> Ok v) ->
   exists e, build_update self g = Raise e) /\
  (forall fr g',
      build_update self g = Ok (fr, g') ->
      exists v s,
        resolve_variable (VARIABLES g) qz = Ok v /\
        In (ScatterUpdate v T s) (train fr)).
Proof.
  intros Hin.
  assert (forall fr g',
             build_update self g = Ok (fr, g') ->
             exists v s,
               resolve_variable (VARIABLES g) qz = Ok v /\
               In (ScatterUpdate v T s) (train fr)) as Hok.
  { intros fr g' H. apply build_update_inv in H. destruct H.
    destruct built_train0 as [ops [Ht HF]].
    destruct (@Forall2_In_l _ _ _ _ _ (z, qz) HF Hin) as [l1 [o [l2 [-> Ho]]]].
    destruct Ho as [v [s [Hv [_ ->]]]]. cbn [snd] in Hv.
    exists v, s. split; [exact Hv|]. rewrite Ht.
    apply in_or_app. left. apply in_or_app. right. left. reflexivity. }
  split; [intros v; apply resolve_variable_Ok|].
  split; [intros k v; apply resolve_levels|]. split; [|exact Hok].
  intros Hno. destruct (build_update self g) as [[fr g']|e] eqn:E.
  - destruct (Hok _ _ eq_refl) as [v [_ [Hv _]]]. exfalso. exact (Hno v Hv).
  - exists e. reflexivity.
Qed.

End Configuration.


Lemma root_buffer_two_inputs_up_witness :
  (forall v,
      resolve_variable (VARIABLES ex_graph) ex_qz1 = Ok v <->
      exists a b,
        hd_error (inputs (params ex_qz1)) = Some a /\
        hd_error (inputs a) = Some b /\
        name b = v /\
        In v (VARIABLES ex_graph)) /\
  (forall k v,
      (k < 2 ->
       resolve_variable (VARIABLES ex_graph) {| params := levels k v |} =
       Raise IndexError) /\
      (In v (VARIABLES ex_graph) ->
       resolve_variable (VARIABLES ex_graph) {| params := levels 2 v |} = Ok v) /\
      (2 < k -> ~ In (name (levels (k - 2) v)) (VARIABLES ex_graph) ->
       resolve_variable (VARIABLES ex_graph) {| params := levels k v |} =
       Raise KeyError)) /\
  ((forall v, resolve_variable (VARIABLES ex_graph) ex_qz1 <> Ok v) ->
   exists e, build_update ex_model ex_graph = Raise e) /\
  (forall fr g',
      build_update ex_model ex_graph = Ok (fr, g') ->
      exists v s,
        resolve_variable (VARIABLES ex_graph) ex_qz1 = Ok v /\
        In (ScatterUpdate v T s) (train fr)).
Proof.
  apply (@root_buffer_two_inputs_up Z ex_model ex_graph ex_z1 ex_qz1).
  left. reflexivity.
Defined.

(** C5 as stated fails.  A variable of the graph seen through three
    identity ops, or used directly, is the only root of the handle, yet the
    lookup raises; and a handle with two roots is resolved silently to the
    first one. *)
Lemma resolution_depends_on_depth :
  (roots (levels 3 "qz1") = ["qz1"%string] /\
   In "qz1"%string (VARIABLES ex_graph) /\
   resolve_variable (VARIABLES ex_graph) {| params := levels 3 "qz1" |} =
   Raise KeyError) /\
  (roots (levels 0 "qz1") = ["qz1"%string] /\
   resolve_variable (VARIABLES ex_graph) {| params := levels 0 "qz1" |} =
   Raise IndexError) /\
  (roots (params ex_two_roots) = ["qz1"%string; "qz2"%string] /\
   resolve_variable (VARIABLES ex_graph) ex_two_roots = Ok "qz1"%string).
Proof.
  repeat split; try reflexivity. left. reflexivity.
Qed.

(** ** Running a step *)

Section Step.

Variables Val R Noise : Type.
Variable B : backend Val R Noise.

Lemma in_range_iff (b : list Val) i :
  in_range b i = true <-> (0 <= i < Z.of_nat (List.length b))%Z.
Proof. unfold in_range. rewrite andb_true_iff, Z.leb_le, Z.ltb_lt. tauto. Qed.

Lemma lookup_store_same (bs : list (string * list Val)) v b b' :
  lookup_buffer bs v = Some b ->
  lookup_buffer (store_buffer bs v b') v = Some b'.
Proof.
  induction bs as [|[v0 b0] bs IH]; simpl; [discriminate|].
  destruct (String.eqb v v0) eqn:E; simpl; rewrite E; [reflexivity | exact IH].
Qed.

Lemma nth_error_set_nth (b : list Val) n x :
  n < List.length b -> nth_error (set_nth b n x) n = Some x.
Proof.
  revert n. induction b as [|y b IH]; intros [|n] H; simpl in *; try lia.
  - reflexivity.
  - apply IH. lia.
Qed.

Lemma run_ops_app st w (ops ops' : list (assign_op Val)) acc :
  run_ops B st w (ops ++ ops') acc =
  match run_ops B st w ops acc with
  | Some acc' => run_ops B st w ops' acc'
  | None => None
  end.
Proof.
  revert acc. induction ops as [|o ops IH]; intros acc; simpl; [reflexivity|].
  destruct (run_op B st w acc o); [apply IH | reflexivity].
Qed.

(** What one scatter op does to the session. *)
Lemma run_scatter_update st w acc acc' variable (s : merged Val) :
  run_op B st w acc (ScatterUpdate variable T s) = Some acc' ->
  exists b x,
    lookup_buffer (buffers acc) variable = Some b /\
    eval_merged B st w s = Some x /\
    (0 <= t st < Z.of_nat (List.length b))%Z /\
    lookup_buffer (buffers acc') variable = Some (set_nth b (Z.to_nat (t st)) x) /\
    nth_error (set_nth b (Z.to_nat (t st)) x) (Z.to_nat (t st)) = Some x /\
    t acc' = t acc /\
    n_accept acc' = n_accept acc.
Proof.
  cbn [run_op eval_index]. destruct (eval_merged B st w s) as [x|]; [|discriminate].
  unfold scatter_update.
  destruct (lookup_buffer (buffers acc) variable) as [b|] eqn:Eb; [|discriminate].
  destruct (in_range b (t st)) eqn:Er; [|discriminate].
  intros [= <-]. apply in_range_iff in Er.
  exists b, x. cbn [buffers t n_accept]. repeat split; try reflexivity; try lia.
  - exact (lookup_store_same _ _ _ Eb).
  - apply nth_error_set_nth. lia.
Qed.

Lemma run_store_ops_n_accept st w variables (sample : dict (merged Val))
  (L : dict Empirical) ops :
  Forall2 (store_op variables sample) L ops ->
  forall acc acc',
    run_ops B st w ops acc = Some acc' ->
    n_accept acc' = n_accept acc.
Proof.
  induction 1 as [|zqz o L ops Ho HF IH]; intros acc acc' H; simpl in H.
  - injection H as <-. reflexivity.
  - destruct (run_op B st w acc o) as [acc1|] eqn:E1; [|discriminate].
    destruct Ho as [v [s [_ [_ ->]]]].
    apply run_scatter_update in E1.
    destruct E1 as [b [x [_ [_ [_ [_ [_ [_ Hn]]]]]]]].
    rewrite (IH _ _ H). exact Hn.
Qed.

(** The index of the read evaluates to [max(t - 1, 0)]. *)
Lemma eval_gather_last st w (h : handle) b :
  eval_handle B st h = Some b ->
  eval_tensor B st w (Gather h (IMaximum (ISub T (IConst 1)) (IConst 0))) =
  gather b (Z.max (t st - 1) 0).
Proof. intros H. cbn [eval_tensor eval_index]. rewrite H. reflexivity. Qed.

End Step.

(** ** The accept counter and the model wrapper *)

Section Counter.

Variable Val : Type.

Lemma run_train_n_accept R Noise (B : backend Val R Noise)
  (self : MetropolisHastings Val) g fr g' st w st' :
  build_update self g = Ok (fr, g') ->
  run B (train fr) st w = Some st' ->
  exists b,
    eval_accept B st w (accept fr) = Some b /\
    n_accept st' = (n_accept st + (if b then 1 else 0))%Z.
Proof.
  intros H Hrun. apply build_update_inv in H. destruct H.
  destruct built_train0 as [ops [Ht HF]].
  unfold run in Hrun. rewrite Ht, run_ops_app in Hrun.
  destruct (run_ops B st w ops st) as [acc|] eqn:E; [|discriminate].
  pose proof (run_store_ops_n_accept B st w HF _ E) as Hn.
  cbn [run_ops run_op] in Hrun.
  destruct (eval_accept B st w (accept fr)) as [b|]; [|discriminate].
  injection Hrun as <-. exists b. split; [reflexivity|].
  cbn [n_accept]. rewrite Hn. reflexivity.
Qed.

Lemma eval_old_sample_any_draws R Noise (B : backend Val R Noise) st w w'
  (L : dict Empirical) :
  eval_dict B st w
    (map (fun zqz => (fst zqz,
                      Gather (params (snd zqz))
                        (IMaximum (ISub T (IConst 1)) (IConst 0)))) L) =
  eval_dict B st w'
    (map (fun zqz => (fst zqz,
                      Gather (params (snd zqz))
                        (IMaximum (ISub T (IConst 1)) (IConst 0)))) L).
Proof.
  induction L as [|[z qz] L IH]; [reflexivity|].
  cbn [map eval_dict fst snd]. rewrite IH. reflexivity.
Qed.

End Counter.

(** ** More on the construction *)

Section Construction.

Variable Val : Type.

Lemma built_latent_nonempty (self : MetropolisHastings Val) g fr g' :
  build_update self g = Ok (fr, g') -> latent_vars self <> [].
Proof.
  intros H HL. apply build_update_inv in H. destruct H.
  apply built_nonempty0. apply length_zero_iff_nil.
  rewrite built_lengths0, built_old0, HL. reflexivity.
Qed.

Lemma built_resolves (self : MetropolisHastings Val) g fr g' z qz :
  build_update self g = Ok (fr, g') ->
  In (z, qz) (latent_vars self) ->
  exists v s,
    resolve_variable (VARIABLES g) qz = Ok v /\
    dict_get (sample fr) z = Some s /\
    In (ScatterUpdate v T s) (train fr).
Proof.
  intros H Hin. apply build_update_inv in H. destruct H.
  destruct built_train0 as [ops [Ht HF]].
  destruct (@Forall2_In_l _ _ _ _ _ (z, qz) HF Hin) as [l1 [o [l2 [-> Ho]]]].
  destruct Ho as [v [s [Hv [Hs ->]]]]. cbn [fst snd] in *.
  exists v, s. split; [exact Hv|]. split; [exact Hs|]. rewrite Ht.
  apply in_or_app. left. apply in_or_app. right. left. reflexivity.
Qed.

(** X1.  For dictionaries without repeated keys, [build_update] returns an
    op only when the latent variables and the proposals have the same keys,
    there is at least one latent variable, and two inputs above every
    [qz.params] there is a variable of the graph. *)
Theorem build_update_returns_only_if (self : MetropolisHastings Val) g fr g' :
  well_formed self = true ->
  build_update self g = Ok (fr, g') ->
  keys_correspond (latent_vars self) (proposal_vars self) /\
  latent_vars self <> [] /\
  (forall z qz, In (z, qz) (latent_vars self) ->
     exists v, resolve_variable (VARIABLES g) qz = Ok v /\ In v (VARIABLES g)).
Proof.
  intros Hwf H. split; [exact (build_update_keys _ _ Hwf H)|].
  split; [exact (@built_latent_nonempty _ _ _ _ H)|].
  intros z qz Hin. destruct (@built_resolves _ _ _ _ _ _ H Hin) as [v [_ [Hv _]]].
  exists v. split; [exact Hv|].
  apply resolve_variable_Ok in Hv. destruct Hv as [a [b [_ [_ [_ Hv]]]]].
  exact Hv.
Qed.

Lemma likelihood_lookups (D : dict (datum Val)) n :
  NoDup (iterkeys D) ->
  forall xqx, In xqx D -> isinstance_RandomVariable (fst xqx) = true ->
    exists v, dict_get (dict_of_items (swap_items n D)) (fst xqx) = Some v.
Proof.
  intros HD xqx Hin Hx. apply In_keys_dict_get.
  rewrite dict_of_items_distinct
    by (rewrite iterkeys_swap_items; apply NoDup_filter; exact HD).
  rewrite iterkeys_swap_items. apply filter_In.
  split; [apply (in_map fst) in Hin; exact Hin | exact Hx].
Qed.

(** X2.  Without latent variables and proposals there is nothing for
    [tf.cond] to return: [build_update] raises ValueError, whatever the data
    and the model wrapper. *)
Theorem no_latent_variable_raises_ValueError (self : MetropolisHastings Val) g :
  well_formed self = true ->
  latent_vars self = [] ->
  proposal_vars self = [] ->
  build_update self g = Raise ValueError.
Proof.
  intros Hwf HL HP. pose proof (well_formed_NoDup _ Hwf) as [_ [_ HD]].
  unfold build_update. rewrite HL, HP.
  rewrite (@bind_Ok _ _ _ _ _ _ _ (build_dict_swap_spec (data self) g)).
  unfold forward_pass, reverse_pass. cbn [for_each].
  unfold bind at 1. cbn [ret]. unfold bind at 1. cbn [ret].
  match goal with
  | |- bind ?m _ ?gg = _ => assert (exists r3, m gg = Ok (r3, gg)) as [r3 Hr3]
  end.
  { destruct (model_wrapper self) as [wrapper|].
    - eexists. reflexivity.
    - unfold prior_terms. cbn [for_each]. unfold bind at 1. cbn [ret].
      apply likelihood_terms_ok. apply likelihood_lookups. exact HD. }
  rewrite (@bind_Ok _ _ _ _ _ _ _ Hr3). reflexivity.
Qed.

Lemma dict_get_update_None {V} (d e : dict V) k :
  dict_get d k = None -> ~ In k (iterkeys e) ->
  dict_get (dict_update d e) k = None.
Proof.
  intros Hd He. apply dict_get_None. intros Hin.
  unfold dict_update in Hin. apply iterkeys_fold_incl in Hin.
  destruct Hin as [Hin|Hin]; [|exact (He Hin)].
  apply dict_get_None in Hd. exact (Hd Hin).
Qed.

Lemma iterkeys_dict_of_items_incl {V} (items : list (node * V)) k :
  In k (iterkeys (dict_of_items items)) -> In k (iterkeys items).
Proof.
  intros H. unfold dict_of_items in H. apply iterkeys_fold_incl in H.
  destruct H as [[]|H]. exact H.
Qed.

Lemma reverse_pass_KeyError (P : dict node) (dso dsn : dict (tensor Val)) :
  (exists zp, In zp P /\ dict_get dso (fst zp) = None) ->
  forall r g, reverse_pass P dso dsn r g = Raise KeyError.
Proof.
  unfold reverse_pass. induction P as [|[z p] P IH]; intros [zp [Hin Hn]] r g.
  - destruct Hin.
  - cbn [for_each fst snd]. unfold bind at 1. unfold bind at 1.
    unfold getitem at 1. destruct (dict_get dso z) as [v|] eqn:Ez.
    + cbn [ret]. apply IH. destruct Hin as [<-|Hin].
      * cbn [fst] in Hn. congruence.
      * exists zp. split; assumption.
    + reflexivity.
Qed.

(** X3.  A proposal for a key that is neither a latent variable nor a
    random variable of the data makes [build_update] raise KeyError: the
    reverse pass looks its old sample up in [dict_swap_old]. *)
Theorem stray_proposal_raises_KeyError (self : MetropolisHastings Val) g z p :
  In (z, p) (proposal_vars self) ->
  ~ In z (iterkeys (latent_vars self)) ->
  ~ In z (filter isinstance_RandomVariable (iterkeys (data self))) ->
  build_update self g = Raise KeyError.
Proof.
  intros Hin HL HD. unfold build_update.
  rewrite (@bind_Ok _ _ _ _ _ _ _ (build_dict_swap_spec (data self) g)).
  rewrite (@bind_Ok _ _ _ _ _ _ _ (forward_pass_spec _ (proposal_vars self) _)).
  unfold bind at 1. rewrite reverse_pass_KeyError; [reflexivity|].
  exists (z, p). split; [exact Hin|]. cbn [fst].
  apply dict_get_update_None.
  - apply dict_get_None. intros Hk. apply iterkeys_dict_of_items_incl in Hk.
    rewrite iterkeys_swap_items in Hk. exact (HD Hk).
  - intros Hk. unfold build_old_sample in Hk.
    apply iterkeys_dict_of_items_incl in Hk.
    rewrite iterkeys_old_sample_items in Hk. exact (HL Hk).
Qed.

End Construction.

Lemma build_update_returns_only_if_witness :
  keys_correspond (latent_vars ex_model) (proposal_vars ex_model) /\
  latent_vars ex_model <> [] /\
  (forall z qz, In (z, qz) (latent_vars ex_model) ->
     exists v, resolve_variable (VARIABLES ex_graph) qz = Ok v /\
               In v (VARIABLES ex_graph)).
Proof.
  apply (@build_update_returns_only_if Z ex_model ex_graph ex_frame ex_graph').
  - reflexivity.
  - vm_compute. reflexivity.
Defined.

Lemma no_latent_variable_raises_ValueError_witness :
  build_update ex_empty ex_graph = Raise ValueError.
Proof.
  apply (@no_latent_variable_raises_ValueError Z ex_empty ex_graph);
    reflexivity.
Defined.

Lemma stray_proposal_raises_KeyError_witness :
  build_update ex_mismatch ex_graph = Raise KeyError.
Proof.
  apply (@stray_proposal_raises_KeyError Z ex_mismatch ex_graph ex_z2
           (RandomVariable 12)).
  - left. reflexivity.
  - intros [H|[]]. discriminate H.
  - intros [].
Defined.

(** ** Proposals, substitutions and the committed values *)

Section Proposals.

Variable Val : Type.

Lemma forward_items_uid_bound (dso : dict (tensor Val)) (P : dict node) :
  forall n z u q sw sc,
    In (z, Value u q sw sc) (forward_items dso n P) -> n <= u.
Proof.
  induction P as [|[z0 p0] P IH]; intros n z u q sw sc H; [destruct H|].
  cbn [forward_items fst snd] in H. destruct H as [H|H].
  - injection H as _ <- _ _ _. apply le_n.
  - apply IH in H. lia.
Qed.

Lemma forward_items_entry (dso : dict (tensor Val)) (P : dict node) :
  forall n z p,
    In (z, p) P ->
    exists uid,
      In (z, Value uid p dso "proposal_znew") (forward_items dso n P) /\
      n <= uid /\
      nth_error (proposal_ops P) (uid - n) = Some (ValueOf p "proposal_znew").
Proof.
  induction P as [|[z0 p0] P IH]; intros n z p Hin; [destruct Hin|].
  cbn [forward_items proposal_ops map fst snd]. destruct Hin as [Heq|Hin].
  - injection Heq as -> ->. exists n. split; [left; reflexivity|].
    split; [apply le_n|]. rewrite Nat.sub_diag. reflexivity.
  - destruct (IH (S n) z p Hin) as [uid [Hi [Hle Hn]]].
    exists uid. split; [right; exact Hi|]. split; [lia|].
    replace (uid - n) with (S (uid - S n)) by lia. exact Hn.
Qed.

Lemma forward_items_uid_inj (dso : dict (tensor Val)) (P : dict node) :
  forall n z z' u q q' sw sw' sc sc',
    In (z, Value u q sw sc) (forward_items dso n P) ->
    In (z', Value u q' sw' sc') (forward_items dso n P) ->
    z = z'.
Proof.
  induction P as [|[z0 p0] P IH]; intros n z z' u q q' sw sw' sc sc' H H';
    [destruct H|].
  cbn [forward_items fst snd] in H, H'. destruct H as [H|H]; destruct H' as [H'|H'].
  - congruence.
  - injection H as _ <- _ _ _. apply forward_items_uid_bound in H'. lia.
  - injection H' as _ <- _ _ _. apply forward_items_uid_bound in H. lia.
  - exact (IH _ _ _ _ _ _ _ _ _ _ H H').
Qed.

Lemma swap_items_before_proposals (D : dict (datum Val)) :
  forall n k v, In (k, v) (swap_items n D) -> before_proposals v.
Proof.
  induction D as [|[x qx] D IH]; intros n k v H; [destruct H|].
  cbn [swap_items fst snd] in H.
  destruct (isinstance_RandomVariable x); [|exact (IH _ _ _ H)].
  destruct qx as [[i|i]|a]; destruct H as [H|H]; try exact (IH _ _ _ H);
    injection H as _ <-; cbn; auto.
Qed.

(** X5.  Every proposal is drawn once, from a copy conditioned on
    [dict_swap_old]: [new_sample[z]] is the value of a sample op of its own,
    created by this call for the proposal of [z], and [dict_swap_old] holds
    old samples, data values and auxiliary draws only, never the new sample
    of another variable. *)
Theorem proposals_conditioned_on_old_state
  (self : MetropolisHastings Val) g fr g' z p :
  well_formed self = true ->
  build_update self g = Ok (fr, g') ->
  In (z, p) (proposal_vars self) ->
  exists uid,
    dict_get (new_sample fr) z =
      Some (Value uid p (dict_swap_old fr) "proposal_znew") /\
    List.length (sample_ops g) <= uid /\
    nth_error (sample_ops g') uid = Some (ValueOf p "proposal_znew") /\
    (forall z' p' sw sc,
        dict_get (new_sample fr) z' = Some (Value uid p' sw sc) -> z' = z) /\
    (forall k v, dict_get (dict_swap_old fr) k = Some v -> before_proposals v).
Proof.
  intros Hwf H Hin.
  pose proof (well_formed_NoDup _ Hwf) as [HL [HP HD]].
  apply build_update_inv in H. destruct H.
  set (n := List.length (sample_ops g ++ conditional_ops (data self))) in *.
  destruct (forward_items_entry (dict_swap_old fr) _ n _ _ Hin)
    as [uid [Hi [Hle Hn]]].
  assert (NoDup (iterkeys (forward_items (dict_swap_old fr) n (proposal_vars self))))
    as Hnd by (rewrite iterkeys_forward_items; exact HP).
  exists uid. split; [|split; [|split; [|split]]].
  - rewrite built_new0, dict_of_items_distinct by exact Hnd.
    apply NoDup_dict_get; assumption.
  - unfold n in Hle. rewrite length_app in Hle. lia.
  - rewrite built_graph0. cbn [sample_ops]. rewrite app_assoc.
    rewrite nth_error_app2 by exact Hle. fold n.
    rewrite nth_error_app1; [exact Hn|].
    apply nth_error_Some. rewrite Hn. discriminate.
  - intros z' p' sw sc Hz'.
    rewrite built_new0, dict_of_items_distinct in Hz' by exact Hnd.
    apply dict_get_Some_In in Hz'.
    exact (forward_items_uid_inj _ _ _ _ _ _ _ _ _ _ _ _ Hz' Hi).
  - intros k v Hv. rewrite built_swap_old0, dict_get_update in Hv.
    + destruct (dict_get (old_sample fr) k) as [vo|] eqn:Eo.
      * injection Hv as <-. rewrite built_old0 in Eo.
        rewrite build_old_sample_distinct in Eo by exact HL.
        apply dict_get_Some_In in Eo. apply in_map_iff in Eo.
        destruct Eo as [zqz [E _]]. injection E as _ <-. exact I.
      * rewrite built_swap0 in Hv.
        rewrite dict_of_items_distinct in Hv
          by (apply NoDup_iterkeys_swap_items; exact HD).
        apply dict_get_Some_In in Hv.
        exact (swap_items_before_proposals _ _ _ _ Hv).
    + rewrite built_old0, iterkeys_build_old_sample; exact HL.
Qed.

(** X6.  In [dict_swap_old] and [dict_swap_new] the entry of a latent
    variable is its old, respectively new, sample, also when the variable
    is a key of the data; every other key has the entry of [dict_swap] in
    both. *)
Theorem latent_entries_override_data (self : MetropolisHastings Val) g fr g' k :
  well_formed self = true ->
  build_update self g = Ok (fr, g') ->
  (In k (iterkeys (latent_vars self)) ->
   (exists vo, dict_get (old_sample fr) k = Some vo /\
               dict_get (dict_swap_old fr) k = Some vo) /\
   (exists vn, dict_get (new_sample fr) k = Some vn /\
               dict_get (dict_swap_new fr) k = Some vn)) /\
  (~ In k (iterkeys (latent_vars self)) ->
   dict_get (dict_swap_old fr) k = dict_get (dict_swap fr) k /\
   dict_get (dict_swap_new fr) k = dict_get (dict_swap fr) k).
Proof.
  intros Hwf H.
  pose proof (build_update_keys _ _ Hwf H) as Hkeys.
  destruct (built_samples _ _ Hwf H) as [Ko [Kn _]].
  pose proof (well_formed_NoDup _ Hwf) as [HL [HP _]].
  apply build_update_inv in H. destruct H.
  rewrite built_swap_old0, built_swap_new0.
  rewrite !dict_get_update by (rewrite ?Ko, ?Kn; assumption).
  split.
  - intros Hk. split.
    + destruct (In_keys_dict_get (old_sample fr) k) as [vo Hvo];
        [rewrite Ko; exact Hk|].
      exists vo. rewrite Hvo. split; reflexivity.
    + destruct (In_keys_dict_get (new_sample fr) k) as [vn Hvn];
        [rewrite Kn; apply Hkeys; exact Hk|].
      exists vn. rewrite Hvn. split; reflexivity.
  - intros Hk.
    assert (dict_get (old_sample fr) k = None) as ->
      by (apply dict_get_None; rewrite Ko; exact Hk).
    assert (dict_get (new_sample fr) k = None) as ->.
    { apply dict_get_None. rewrite Kn. intros Hp. apply Hk. apply Hkeys. exact Hp. }
    split; reflexivity.
Qed.

Lemma merge_lookup_new (pred : accept_exp Val) :
  forall (ns : dict (tensor Val)) (olds : list (tensor Val)) z vn,
    List.length ns = List.length olds ->
    dict_get ns z = Some vn ->
    exists vo,
      In vo olds /\
      dict_get (combine (iterkeys ns)
                  (merge_outputs pred (itervalues ns) olds)) z =
      Some (Merge pred vn vo).
Proof.
  induction ns as [|[k a] ns IH]; intros [|b olds] z vn Hlen Hn;
    simpl in *; try discriminate.
  unfold merge_outputs. simpl. destruct (node_eqb z k).
  - injection Hn as <-. exists b. split; [left; reflexivity | reflexivity].
  - injection Hlen as Hlen. destruct (IH olds z vn Hlen Hn) as [vo [Hin Hg]].
    exists vo. split; [right; exact Hin | exact Hg].
Qed.

(** X7.  Whatever the orders of the two dictionaries, [sample[z]] merges the
    new sample of [z] itself with some old sample: in an accepted step the
    value committed for every latent variable is its own new sample. *)
Theorem accepted_step_commits_new_samples
  (self : MetropolisHastings Val) g fr g' z :
  well_formed self = true ->
  build_update self g = Ok (fr, g') ->
  In z (iterkeys (latent_vars self)) ->
  exists vn vo,
    dict_get (new_sample fr) z = Some vn /\
    In vo (itervalues (old_sample fr)) /\
    dict_get (sample fr) z = Some (Merge (accept fr) vn vo) /\
    forall R Noise (B : backend Val R Noise) st w x,
      eval_accept B st w (accept fr) = Some true ->
      eval_merged B st w (Merge (accept fr) vn vo) = Some x ->
      eval_tensor B st w vn = Some x.
Proof.
  intros Hwf H Hz.
  pose proof (build_update_keys _ _ Hwf H) as Hkeys.
  destruct (built_samples _ _ Hwf H) as [Ko [Kn _]].
  pose proof (sample_items _ _ Hwf H) as Hs.
  apply build_update_inv in H. destruct H.
  destruct (In_keys_dict_get (new_sample fr) z) as [vn Hvn];
    [rewrite Kn; apply Hkeys; exact Hz|].
  destruct (merge_lookup_new (accept fr) (new_sample fr)
              (itervalues (old_sample fr)) z)
    with (vn := vn) as [vo [Hin Hg]].
  { unfold itervalues. rewrite length_map. exact built_lengths0. }
  { exact Hvn. }
  exists vn, vo. split; [exact Hvn|]. split; [exact Hin|].
  split; [rewrite Hs; exact Hg|].
  intros R Noise B st w x Ha Hm. cbn [eval_merged] in Hm. rewrite Ha in Hm.
  destruct (eval_tensor B st w vn) as [a|]; [|discriminate].
  destruct (eval_tensor B st w vo) as [b|]; [|discriminate].
  exact Hm.
Qed.

(** X8.  When the latent variables and the proposals are listed in the same
    order, [sample[z]] merges the new and the old sample of [z]: in a
    rejected step the value committed for every latent variable is its own
    old sample. *)
Theorem rejected_step_keeps_old_samples
  (self : MetropolisHastings Val) g fr g' z :
  well_formed self = true ->
  build_update self g = Ok (fr, g') ->
  iterkeys (latent_vars self) = iterkeys (proposal_vars self) ->
  In z (iterkeys (latent_vars self)) ->
  exists vn vo,
    dict_get (new_sample fr) z = Some vn /\
    dict_get (old_sample fr) z = Some vo /\
    dict_get (sample fr) z = Some (Merge (accept fr) vn vo) /\
    forall R Noise (B : backend Val R Noise) st w x,
      eval_accept B st w (accept fr) = Some false ->
      eval_merged B st w (Merge (accept fr) vn vo) = Some x ->
      eval_tensor B st w vo = Some x.
Proof.
  intros Hwf H Hord Hz.
  destruct (joint_commit_same_order _ _ Hwf H Hord z Hz) as [vn [vo [Hn [Ho Hs]]]].
  exists vn, vo. split; [exact Hn|]. split; [exact Ho|]. split; [exact Hs|].
  intros R Noise B st w x Ha Hm. cbn [eval_merged] in Hm. rewrite Ha in Hm.
  destruct (eval_tensor B st w vn) as [a|]; [|discriminate].
  destruct (eval_tensor B st w vo) as [b|]; [|discriminate].
  exact Hm.
Qed.

End Proposals.

(** ** The effect of a step on the session *)

Section Effect.

Variables Val R Noise : Type.
Variable B : backend Val R Noise.

Lemma lookup_store_other (bs : list (string * list Val)) v v' b :
  v' <> v -> lookup_buffer (store_buffer bs v b) v' = lookup_buffer bs v'.
Proof.
  intros Hne. induction bs as [|[v0 b0] bs IH]; simpl; [reflexivity|].
  destruct (String.eqb v v0) eqn:E; simpl.
  - apply String.eqb_eq in E. subst v0.
    destruct (String.eqb v' v) eqn:E'; [|reflexivity].
    apply String.eqb_eq in E'. contradiction.
  - rewrite IH. reflexivity.
Qed.

Lemma store_buffer_names (bs : list (string * list Val)) v b :
  map fst (store_buffer bs v b) = map fst bs.
Proof.
  induction bs as [|[v0 b0] bs IH]; simpl; [reflexivity|].
  destruct (String.eqb v v0); simpl; [reflexivity | rewrite IH; reflexivity].
Qed.

Lemma length_set_nth (b : list Val) n x :
  List.length (set_nth b n x) = List.length b.
Proof.
  revert n. induction b as [|y b IH]; intros [|n]; simpl; try reflexivity.
  rewrite IH. reflexivity.
Qed.

Lemma nth_error_set_nth_other (b : list Val) n m x :
  m <> n -> nth_error (set_nth b n x) m = nth_error b m.
Proof.
  revert n m. induction b as [|y b IH]; intros [|n] [|m] H; simpl;
    try reflexivity; try contradiction.
  apply IH. intros ->. apply H. reflexivity.
Qed.

Lemma set_nth_same (b : list Val) n x :
  nth_error b n = Some x -> set_nth b n x = b.
Proof.
  revert n. induction b as [|y b IH]; intros [|n] H; simpl in *;
    try discriminate.
  - injection H as ->. reflexivity.
  - rewrite IH by exact H. reflexivity.
Qed.

Lemma run_scatter_buffers st w acc acc' variable (s : merged Val) :
  run_op B st w acc (ScatterUpdate variable T s) = Some acc' ->
  exists b x,
    lookup_buffer (buffers acc) variable = Some b /\
    eval_merged B st w s = Some x /\
    (0 <= t st < Z.of_nat (List.length b))%Z /\
    buffers acc' =
      store_buffer (buffers acc) variable (set_nth b (Z.to_nat (t st)) x) /\
    t acc' = t acc.
Proof.
  cbn [run_op eval_index]. destruct (eval_merged B st w s) as [x|]; [|discriminate].
  unfold scatter_update.
  destruct (lookup_buffer (buffers acc) variable) as [b|] eqn:Eb; [|discriminate].
  destruct (in_range b (t st)) eqn:Er; [|discriminate].
  intros [= <-]. apply in_range_iff in Er.
  exists b, x. cbn [buffers t]. repeat split; try reflexivity; lia.
Qed.

Lemma lookup_store_length (bs : list (string * list Val)) v v' b b0 :
  lookup_buffer bs v = Some b0 ->
  List.length b = List.length b0 ->
  option_map (@List.length Val) (lookup_buffer (store_buffer bs v b) v') =
  option_map (@List.length Val) (lookup_buffer bs v').
Proof.
  intros Hb Hlen. destruct (string_dec v' v) as [->|Hne].
  - rewrite (lookup_store_same _ _ b Hb), Hb. cbn. rewrite Hlen. reflexivity.
  - rewrite lookup_store_other by exact Hne. reflexivity.
Qed.

(** What the scatter updates of the latent variables leave alone. *)
Lemma run_store_ops_frame st w variables (sample : dict (merged Val))
  (L : dict Empirical) ops :
  Forall2 (store_op variables sample) L ops ->
  forall acc acc',
    run_ops B st w ops acc = Some acc' ->
    t acc' = t acc /\
    map fst (buffers acc') = map fst (buffers acc) /\
    (forall v, option_map (@List.length Val) (lookup_buffer (buffers acc') v) =
               option_map (@List.length Val) (lookup_buffer (buffers acc) v)) /\
    (forall v,
        (forall zqz, In zqz L -> resolve_variable variables (snd zqz) <> Ok v) ->
        lookup_buffer (buffers acc') v = lookup_buffer (buffers acc) v).
Proof.
  induction 1 as [|zqz o L ops Ho HF IH]; intros acc acc' H; simpl in H.
  - injection H as <-. repeat split; reflexivity.
  - destruct (run_op B st w acc o) as [acc1|] eqn:E1; [|discriminate].
    destruct Ho as [v0 [s [Hv0 [_ ->]]]].
    apply run_scatter_buffers in E1.
    destruct E1 as [b [x [Hb [_ [_ [Hbs Ht]]]]]].
    destruct (IH _ _ H) as [Ht' [Hn [Hl Hu]]].
    split; [congruence|]. split; [|split].
    + rewrite Hn, Hbs. apply store_buffer_names.
    + intros v. rewrite Hl, Hbs.
      apply (lookup_store_length _ _ v _ Hb). apply length_set_nth.
    + intros v Hv. rewrite Hu.
      * rewrite Hbs. apply lookup_store_other. intros ->.
        exact (Hv zqz (or_introl eq_refl) Hv0).
      * intros zqz' Hin. apply Hv. right. exact Hin.
Qed.

(** With separate buffers, every latent variable ends with its own
    committed value at position [t] of its buffer. *)
Lemma run_store_ops_final st w variables (sample : dict (merged Val))
  (L : dict Empirical) ops :
  Forall2 (store_op variables sample) L ops ->
  NoDup (iterkeys L) ->
  separate_buffers variables L ->
  forall acc acc',
    run_ops B st w ops acc = Some acc' ->
    forall z qz, In (z, qz) L ->
      exists v s b x,
        resolve_variable variables qz = Ok v /\
        dict_get sample z = Some s /\
        lookup_buffer (buffers acc) v = Some b /\
        eval_merged B st w s = Some x /\
        (0 <= t st < Z.of_nat (List.length b))%Z /\
        lookup_buffer (buffers acc') v = Some (set_nth b (Z.to_nat (t st)) x).
Proof.
  induction 1 as [|[z0 qz0] o L ops Ho HF IH]; intros Hnd Hsep acc acc' H z qz Hin;
    [destruct Hin|].
  inversion Hnd as [|? ? Hz0 Hnd']; subst.
  assert (separate_buffers variables L) as Hsep'.
  { intros z1 qz1 z2 qz2 v H1 H2. apply Hsep; right; assumption. }
  simpl in H. destruct (run_op B st w acc o) as [acc1|] eqn:E1; [|discriminate].
  destruct Ho as [v0 [s0 [Hv0 [Hs0 ->]]]]. cbn [fst snd] in *.
  apply run_scatter_buffers in E1.
  destruct E1 as [b0 [x0 [Hb0 [Hx0 [Hr0 [Hbs _]]]]]].
  destruct Hin as [Heq|Hin].
  - injection Heq as <- <-.
    exists v0, s0, b0, x0. repeat split; try assumption; try lia.
    destruct (run_store_ops_frame st w HF _ H) as [_ [_ [_ Hu]]].
    rewrite Hu.
    + rewrite Hbs. exact (lookup_store_same _ _ _ Hb0).
    + intros [z' qz'] Hin' Hv'. cbn [snd] in Hv'.
      assert (z0 = z') as <-
        by exact (Hsep z0 qz0 z' qz' v0 (or_introl eq_refl) (or_intror Hin') Hv0 Hv').
      apply Hz0. apply (in_map fst) in Hin'. exact Hin'.
  - destruct (IH Hnd' Hsep' _ _ H z qz Hin) as [v [s [b [x [Hv [Hs [Hb [Hx [Hr Hf]]]]]]]]].
    exists v, s, b, x. repeat split; try assumption; try lia.
    rewrite Hbs in Hb. rewrite lookup_store_other in Hb; [exact Hb|].
    intros ->.
    assert (z0 = z) as <-
      by exact (Hsep z0 qz0 z qz v0 (or_introl eq_refl) (or_intror Hin) Hv0 Hv).
    apply Hz0. apply (in_map fst) in Hin. exact Hin.
Qed.

Lemma run_train_split (self : MetropolisHastings Val) g fr g' st w st' :
  build_update self g = Ok (fr, g') ->
  run B (train fr) st w = Some st' ->
  exists ops acc,
    Forall2 (store_op (VARIABLES g) (sample fr)) (latent_vars self) ops /\
    run_ops B st w ops st = Some acc /\
    buffers st' = buffers acc /\
    t st' = t acc.
Proof.
  intros H Hrun. apply build_update_inv in H. destruct H.
  destruct built_train0 as [ops [Ht HF]].
  unfold run in Hrun. rewrite Ht, run_ops_app in Hrun.
  destruct (run_ops B st w ops st) as [acc|] eqn:E; [|discriminate].
  cbn [run_ops run_op] in Hrun.
  destruct (eval_accept B st w (accept fr)) as [b|]; [|discriminate].
  injection Hrun as <-. exists ops, acc. repeat split; assumption.
Qed.

Lemma eval_tensor_Value st w uid org (swap : dict (tensor Val)) scope :
  eval_tensor B st w (Value uid org swap scope) =
  match eval_dict B st w swap with
  | Some vs => Some (sample_sem B org vs scope (noise w uid))
  | None => None
  end.
Proof.
  cbn [eval_tensor].
  match goal with
  | |- match ?f swap with _ => _ end = _ =>
      assert (forall d, f d = eval_dict B st w d) as E
  end.
  { induction d as [|kx d IH]; [reflexivity|].
    cbn [eval_dict]. rewrite <- IH. reflexivity. }
  rewrite E. reflexivity.
Qed.

Lemma eval_handle_direct st (qz : Empirical) v :
  directly_parameterized qz v ->
  eval_handle B st (params qz) = lookup_buffer (buffers st) v.
Proof. intros [n1 [n2 ->]]. reflexivity. Qed.

End Effect.

Section StepEffect.

Variables Val R Noise : Type.
Variable B : backend Val R Noise.

Lemma run_store_ops_bounds st w variables (sample : dict (merged Val))
  (L : dict Empirical) ops :
  Forall2 (store_op variables sample) L ops ->
  forall acc acc',
    run_ops B st w ops acc = Some acc' ->
    forall z qz, In (z, qz) L ->
      exists v b,
        resolve_variable variables qz = Ok v /\
        lookup_buffer (buffers acc) v = Some b /\
        (0 <= t st < Z.of_nat (List.length b))%Z.
Proof.
  induction 1 as [|[z0 qz0] o L ops Ho HF IH]; intros acc acc' H z qz Hin;
    [destruct Hin|].
  simpl in H. destruct (run_op B st w acc o) as [acc1|] eqn:E1; [|discriminate].
  destruct Ho as [v0 [s0 [Hv0 [_ ->]]]]. cbn [fst snd] in *.
  apply run_scatter_buffers in E1.
  destruct E1 as [b0 [x0 [Hb0 [_ [Hr0 [Hbs _]]]]]].
  destruct Hin as [Heq|Hin].
  - injection Heq as <- <-. exists v0, b0. repeat split; try assumption; lia.
  - destruct (IH _ _ H z qz Hin) as [v [b1 [Hv [Hb1 Hr1]]]].
    pose proof (lookup_store_length (buffers acc) v0 v
                  (set_nth b0 (Z.to_nat (t st)) x0) Hb0
                  (length_set_nth b0 _ x0)) as Hl.
    rewrite <- Hbs, Hb1 in Hl. cbn [option_map] in Hl.
    destruct (lookup_buffer (buffers acc) v) as [b|] eqn:Eb; [|discriminate].
    injection Hl as Hl. exists v, b. rewrite <- Hl.
    repeat split; try assumption; lia.
Qed.

(** X9.  A step that runs does not move [t], keeps the variables of the
    session and the length of every buffer, and leaves untouched every
    buffer that is not the one found behind a latent variable. *)
Theorem step_leaves_rest_alone (self : MetropolisHastings Val) g fr g' st w st' :
  build_update self g = Ok (fr, g') ->
  run B (train fr) st w = Some st' ->
  t st' = t st /\
  map fst (buffers st') = map fst (buffers st) /\
  (forall v, option_map (@List.length Val) (lookup_buffer (buffers st') v) =
             option_map (@List.length Val) (lookup_buffer (buffers st) v)) /\
  (forall v,
      (forall z qz, In (z, qz) (latent_vars self) ->
                    resolve_variable (VARIABLES g) qz <> Ok v) ->
      lookup_buffer (buffers st') v = lookup_buffer (buffers st) v).
Proof.
  intros H Hrun.
  destruct (run_train_split B _ _ _ _ H Hrun) as [ops [acc [HF [Hops [Hb Ht]]]]].
  destruct (run_store_ops_frame B st w HF _ Hops) as [Ht' [Hn [Hl Hu]]].
  rewrite Hb, Ht. split; [exact Ht'|]. split; [exact Hn|]. split; [exact Hl|].
  intros v Hv. apply Hu. intros [z qz] Hin. exact (Hv z qz Hin).
Qed.

(** A step runs only in a session that has the buffer of every latent
    variable and in which [t] is an index of it: beyond the end of a buffer
    the op fails instead of writing. *)
Theorem step_needs_room (self : MetropolisHastings Val) g fr g' st w st' z qz :
  build_update self g = Ok (fr, g') ->
  run B (train fr) st w = Some st' ->
  In (z, qz) (latent_vars self) ->
  exists v b,
    resolve_variable (VARIABLES g) qz = Ok v /\
    lookup_buffer (buffers st) v = Some b /\
    (0 <= t st < Z.of_nat (List.length b))%Z.
Proof.
  intros H Hrun Hin.
  destruct (run_train_split B _ _ _ _ H Hrun) as [ops [acc [HF [Hops _]]]].
  exact (run_store_ops_bounds st w HF _ Hops z qz Hin).
Qed.

Lemma run_train_final (self : MetropolisHastings Val) g fr g' st w st' z qz :
  well_formed self = true ->
  separate_buffers (VARIABLES g) (latent_vars self) ->
  build_update self g = Ok (fr, g') ->
  run B (train fr) st w = Some st' ->
  In (z, qz) (latent_vars self) ->
  exists v s b x,
    resolve_variable (VARIABLES g) qz = Ok v /\
    dict_get (sample fr) z = Some s /\
    lookup_buffer (buffers st) v = Some b /\
    eval_merged B st w s = Some x /\
    (0 <= t st < Z.of_nat (List.length b))%Z /\
    lookup_buffer (buffers st') v = Some (set_nth b (Z.to_nat (t st)) x).
Proof.
  intros Hwf Hsep H Hrun Hin.
  pose proof (well_formed_NoDup _ Hwf) as [HL _].
  destruct (run_train_split B _ _ _ _ H Hrun) as [ops [acc [HF [Hops [Hb _]]]]].
  rewrite Hb. exact (run_store_ops_final B st w HF HL Hsep _ Hops z qz Hin).
Qed.

(** X10.  When no two latent variables share a buffer, a step that runs
    replaces, in the buffer of every latent variable, the element at
    position [t] by the value of [sample[z]] and nothing else. *)
Theorem step_writes_committed_values
  (self : MetropolisHastings Val) g fr g' st w st' z qz :
  well_formed self = true ->
  separate_buffers (VARIABLES g) (latent_vars self) ->
  build_update self g = Ok (fr, g') ->
  run B (train fr) st w = Some st' ->
  In (z, qz) (latent_vars self) ->
  exists v s b x b',
    resolve_variable (VARIABLES g) qz = Ok v /\
    dict_get (sample fr) z = Some s /\
    lookup_buffer (buffers st) v = Some b /\
    eval_merged B st w s = Some x /\
    lookup_buffer (buffers st') v = Some b' /\
    List.length b' = List.length b /\
    nth_error b' (Z.to_nat (t st)) = Some x /\
    (forall i, i <> Z.to_nat (t st) -> nth_error b' i = nth_error b i).
Proof.
  intros Hwf Hsep H Hrun Hin.
  destruct (@run_train_final _ _ _ _ _ _ _ _ _ Hwf Hsep H Hrun Hin)
    as [v [s [b [x [Hv [Hs [Hb [Hx [Hr Hf]]]]]]]]].
  exists v, s, b, x, (set_nth b (Z.to_nat (t st)) x).
  repeat split; try assumption.
  - apply length_set_nth.
  - apply nth_error_set_nth. lia.
  - intros i Hi. apply nth_error_set_nth_other. exact Hi.
Qed.

Lemma direct_resolves (variables : list string) (qz : Empirical) v v' :
  directly_parameterized qz v ->
  resolve_variable variables qz = Ok v' -> v' = v.
Proof.
  intros [n1 [n2 Hp]] Hr. apply resolve_variable_Ok in Hr.
  destruct Hr as [a [b [Ha [Hb [Hn _]]]]]. rewrite Hp in Ha. cbn in Ha.
  injection Ha as <-. cbn in Hb. injection Hb as <-. cbn in Hn. congruence.
Qed.

Lemma new_sample_lookup (self : MetropolisHastings Val) g fr g' z p :
  well_formed self = true ->
  build_update self g = Ok (fr, g') ->
  In (z, p) (proposal_vars self) ->
  exists uid,
    dict_get (new_sample fr) z =
    Some (Value uid p (dict_swap_old fr) "proposal_znew").
Proof.
  intros Hwf H Hin.
  pose proof (well_formed_NoDup _ Hwf) as [_ [HP _]].
  apply build_update_inv in H. destruct H.
  destruct (forward_items_entry (dict_swap_old fr) _
              (List.length (sample_ops g ++ conditional_ops (data self))) _ _ Hin)
    as [uid [Hi _]].
  exists uid. rewrite built_new0, dict_of_items_distinct
    by (rewrite iterkeys_forward_items; exact HP).
  apply NoDup_dict_get; [rewrite iterkeys_forward_items; exact HP | exact Hi].
Qed.

Lemma sample_lookup_new (self : MetropolisHastings Val) g fr g' z :
  well_formed self = true ->
  build_update self g = Ok (fr, g') ->
  In z (iterkeys (latent_vars self)) ->
  exists vn vo,
    dict_get (new_sample fr) z = Some vn /\
    dict_get (sample fr) z = Some (Merge (accept fr) vn vo).
Proof.
  intros Hwf H Hz.
  pose proof (build_update_keys _ _ Hwf H) as Hkeys.
  destruct (built_samples _ _ Hwf H) as [Ko [Kn _]].
  pose proof (sample_items _ _ Hwf H) as Hs.
  apply build_update_inv in H. destruct H.
  destruct (In_keys_dict_get (new_sample fr) z) as [vn Hvn];
    [rewrite Kn; apply Hkeys; exact Hz|].
  destruct (merge_lookup_new (accept fr) (new_sample fr)
              (itervalues (old_sample fr)) z)
    with (vn := vn) as [vo [_ Hg]].
  { unfold itervalues. rewrite length_map. exact built_lengths0. }
  { exact Hvn. }
  exists vn, vo. split; [exact Hvn | rewrite Hs; exact Hg].
Qed.

(** X11.  With the two dictionaries in the same order, separate buffers and
    Empiricals built directly on their variables, a rejected step repeats
    the previous sample: the element at position [max(t - 1, 0)] of every
    latent variable's buffer is copied to position [t] (at [t = 0] the
    buffer stays as it is), and [n_accept] stays as it is. *)
Theorem rejected_step_repeats_previous_sample
  (self : MetropolisHastings Val) g fr g' st w st' z qz v :
  well_formed self = true ->
  iterkeys (latent_vars self) = iterkeys (proposal_vars self) ->
  separate_buffers (VARIABLES g) (latent_vars self) ->
  build_update self g = Ok (fr, g') ->
  eval_accept B st w (accept fr) = Some false ->
  run B (train fr) st w = Some st' ->
  In (z, qz) (latent_vars self) ->
  directly_parameterized qz v ->
  exists b x,
    lookup_buffer (buffers st) v = Some b /\
    nth_error b (Z.to_nat (Z.max (t st - 1) 0)) = Some x /\
    lookup_buffer (buffers st') v = Some (set_nth b (Z.to_nat (t st)) x) /\
    (t st = 0%Z -> lookup_buffer (buffers st') v = Some b) /\
    n_accept st' = n_accept st.
Proof.
  intros Hwf Hord Hsep H Ha Hrun Hin Hdir.
  pose proof (well_formed_NoDup _ Hwf) as [HL _].
  destruct (@run_train_final _ _ _ _ _ _ _ _ _ Hwf Hsep H Hrun Hin)
    as [v' [s [b [x [Hv [Hs [Hb [Hx [Hr Hf]]]]]]]]].
  pose proof (@direct_resolves _ _ _ _ Hdir Hv) as ->.
  assert (In z (iterkeys (latent_vars self))) as Hz
    by (apply (in_map fst) in Hin; exact Hin).
  destruct (joint_commit_same_order _ _ Hwf H Hord z Hz) as [vn [vo [_ [Ho Hs']]]].
  rewrite Hs in Hs'. injection Hs' as ->.
  destruct (run_train_n_accept B _ _ _ _ H Hrun) as [acc [Ha' Hn]].
  rewrite Ha in Ha'. injection Ha' as <-.
  apply build_update_inv in H. destruct H.
  rewrite built_old0, (@old_sample_lookup Val _ _ _ HL Hin) in Ho.
  injection Ho as <-.
  cbn [eval_merged] in Hx. rewrite Ha in Hx.
  destruct (eval_tensor B st w vn) as [a|]; [|discriminate].
  rewrite (eval_gather_last B st w _ (eq_trans (@eval_handle_direct _ _ _ B st _ _ Hdir) Hb))
    in Hx.
  destruct (gather b (Z.max (t st - 1) 0)) as [y|] eqn:Eg; [|discriminate].
  injection Hx as <-. unfold gather in Eg.
  destruct (in_range b (Z.max (t st - 1) 0)); [|discriminate].
  exists b, y. split; [exact Hb|]. split; [exact Eg|]. split; [exact Hf|].
  split; [|lia].
  intros Ht0. rewrite Hf. rewrite Ht0 in *. cbn in Eg |- *.
  rewrite (@set_nth_same _ b 0 _ Eg). reflexivity.
Qed.

(** X12.  With separate buffers, an accepted step stores at position [t] of
    the buffer of every latent variable the draw of its proposal
    conditioned on [dict_swap_old], and adds one to [n_accept]. *)
Theorem accepted_step_stores_proposal
  (self : MetropolisHastings Val) g fr g' st w st' z qz p :
  well_formed self = true ->
  separate_buffers (VARIABLES g) (latent_vars self) ->
  build_update self g = Ok (fr, g') ->
  eval_accept B st w (accept fr) = Some true ->
  run B (train fr) st w = Some st' ->
  In (z, qz) (latent_vars self) ->
  In (z, p) (proposal_vars self) ->
  exists v b uid vs,
    resolve_variable (VARIABLES g) qz = Ok v /\
    lookup_buffer (buffers st) v = Some b /\
    eval_dict B st w (dict_swap_old fr) = Some vs /\
    lookup_buffer (buffers st') v =
      Some (set_nth b (Z.to_nat (t st))
              (sample_sem B p vs "proposal_znew" (noise w uid))) /\
    n_accept st' = (n_accept st + 1)%Z.
Proof.
  intros Hwf Hsep H Ha Hrun Hin Hp.
  destruct (@run_train_final _ _ _ _ _ _ _ _ _ Hwf Hsep H Hrun Hin)
    as [v [s [b [x [Hv [Hs [Hb [Hx [Hr Hf]]]]]]]]].
  assert (In z (iterkeys (latent_vars self))) as Hz
    by (apply (in_map fst) in Hin; exact Hin).
  destruct (@sample_lookup_new _ _ _ _ _ Hwf H Hz) as [vn [vo [Hn Hs']]].
  rewrite Hs in Hs'. injection Hs' as ->.
  destruct (@new_sample_lookup _ _ _ _ _ _ Hwf H Hp) as [uid Hu].
  rewrite Hn in Hu. injection Hu as ->.
  destruct (run_train_n_accept B _ _ _ _ H Hrun) as [acc [Ha' Hacc]].
  rewrite Ha in Ha'. injection Ha' as <-.
  cbn [eval_merged] in Hx. rewrite Ha, eval_tensor_Value in Hx.
  destruct (eval_dict B st w (dict_swap_old fr)) as [vs|]; [|discriminate].
  destruct (eval_tensor B st w vo) as [o|]; [|discriminate].
  injection Hx as <-.
  exists v, b, uid, vs. repeat split; assumption.
Qed.

(** X13.  The op that [build_update] returns groups one scatter update at
    index [t] per latent variable, in the order of [latent_vars], each
    writing [sample[z]] to the variable found behind [qz.params], and after
    them the one increment of [n_accept]. *)
Theorem update_op_structure (self : MetropolisHastings Val) g fr g' :
  build_update self g = Ok (fr, g') ->
  exists ops,
    train fr = ops ++ [AssignAdd_n_accept (accept fr) 1 0] /\
    Forall2 (store_op (VARIABLES g) (sample fr)) (latent_vars self) ops /\
    List.length (train fr) = List.length (latent_vars self) + 1.
Proof.
  intros H. apply build_update_inv in H. destruct H.
  destruct built_train0 as [ops [Ht HF]]. exists ops.
  split; [exact Ht|]. split; [exact HF|].
  rewrite Ht, length_app, (Forall2_length HF). reflexivity.
Qed.

End StepEffect.

Lemma ex_separate_buffers :
  separate_buffers (VARIABLES ex_graph) (latent_vars ex_model).
Proof.
  intros z1 qz1 z2 qz2 v H1 H2 R1 R2.
  destruct H1 as [E1|[E1|[]]]; destruct H2 as [E2|[E2|[]]];
    injection E1 as <- <-; injection E2 as <- <-;
    try reflexivity; vm_compute in R1, R2; congruence.
Defined.

Lemma ex_directly_parameterized : directly_parameterized ex_qz1 "qz1".
Proof. exists "qz1/id/id"%string, "qz1/id"%string. reflexivity. Defined.

Lemma proposals_conditioned_on_old_state_witness :
  exists uid,
    dict_get (new_sample ex_frame) ex_z1 =
      Some (Value uid (RandomVariable 11) (dict_swap_old ex_frame) "proposal_znew") /\
    List.length (sample_ops ex_graph) <= uid /\
    nth_error (sample_ops ex_graph') uid =
      Some (ValueOf (RandomVariable 11) "proposal_znew") /\
    (forall z' p' sw sc,
        dict_get (new_sample ex_frame) z' = Some (Value uid p' sw sc) ->
        z' = ex_z1) /\
    (forall k v, dict_get (dict_swap_old ex_frame) k = Some v ->
                 before_proposals v).
Proof.
  apply (@proposals_conditioned_on_old_state Z ex_model ex_graph ex_frame
           ex_graph' ex_z1 (RandomVariable 11)).
  - reflexivity.
  - vm_compute. reflexivity.
  - left. reflexivity.
Defined.

Lemma latent_entries_override_data_witness :
  (In ex_z1 (iterkeys (latent_vars ex_model)) ->
   (exists vo, dict_get (old_sample ex_frame) ex_z1 = Some vo /\
               dict_get (dict_swap_old ex_frame) ex_z1 = Some vo) /\
   (exists vn, dict_get (new_sample ex_frame) ex_z1 = Some vn /\
               dict_get (dict_swap_new ex_frame) ex_z1 = Some vn)) /\
  (~ In ex_z1 (iterkeys (latent_vars ex_model)) ->
   dict_get (dict_swap_old ex_frame) ex_z1 = dict_get (dict_swap ex_frame) ex_z1 /\
   dict_get (dict_swap_new ex_frame) ex_z1 = dict_get (dict_swap ex_frame) ex_z1).
Proof.
  apply (@latent_entries_override_data Z ex_model ex_graph ex_frame ex_graph' ex_z1).
  - reflexivity.
  - vm_compute. reflexivity.
Defined.

Lemma accepted_step_commits_new_samples_witness :
  exists vn vo,
    dict_get (new_sample ex_swapped_frame) ex_z1 = Some vn /\
    In vo (itervalues (old_sample ex_swapped_frame)) /\
    dict_get (sample ex_swapped_frame) ex_z1 =
      Some (Merge (accept ex_swapped_frame) vn vo) /\
    forall R Noise (B : backend Z R Noise) st w x,
      eval_accept B st w (accept ex_swapped_frame) = Some true ->
      eval_merged B st w (Merge (accept ex_swapped_frame) vn vo) = Some x ->
      eval_tensor B st w vn = Some x.
Proof.
  apply (@accepted_step_commits_new_samples Z ex_swapped ex_graph
           ex_swapped_frame ex_swapped_graph' ex_z1).
  - reflexivity.
  - vm_compute. reflexivity.
  - left. reflexivity.
Defined.

Lemma rejected_step_keeps_old_samples_witness :
  exists vn vo,
    dict_get (new_sample ex_frame) ex_z1 = Some vn /\
    dict_get (old_sample ex_frame) ex_z1 = Some vo /\
    dict_get (sample ex_frame) ex_z1 = Some (Merge (accept ex_frame) vn vo) /\
    forall R Noise (B : backend Z R Noise) st w x,
      eval_accept B st w (accept ex_frame) = Some false ->
      eval_merged B st w (Merge (accept ex_frame) vn vo) = Some x ->
      eval_tensor B st w vo = Some x.
Proof.
  apply (@rejected_step_keeps_old_samples Z ex_model ex_graph ex_frame
           ex_graph' ex_z1).
  - reflexivity.
  - vm_compute. reflexivity.
  - reflexivity.
  - left. reflexivity.
Defined.

Lemma step_leaves_rest_alone_witness :
  t ex_session_accepted = t ex_session /\
  map fst (buffers ex_session_accepted) = map fst (buffers ex_session) /\
  (forall v,
      option_map (@List.length Z) (lookup_buffer (buffers ex_session_accepted) v) =
      option_map (@List.length Z) (lookup_buffer (buffers ex_session) v)) /\
  (forall v,
      (forall z qz, In (z, qz) (latent_vars ex_model) ->
                    resolve_variable (VARIABLES ex_graph) qz <> Ok v) ->
      lookup_buffer (buffers ex_session_accepted) v =
      lookup_buffer (buffers ex_session) v).
Proof.
  apply (@step_leaves_rest_alone Z Z Z Zbackend ex_model ex_graph ex_frame
           ex_graph' ex_session ex_accept ex_session_accepted).
  - vm_compute. reflexivity.
  - vm_compute. reflexivity.
Defined.

Lemma step_needs_room_witness :
  exists v b,
    resolve_variable (VARIABLES ex_graph) ex_qz1 = Ok v /\
    lookup_buffer (buffers ex_session) v = Some b /\
    (0 <= t ex_session < Z.of_nat (List.length b))%Z.
Proof.
  apply (@step_needs_room Z Z Z Zbackend ex_model ex_graph ex_frame ex_graph'
           ex_session ex_accept ex_session_accepted ex_z1 ex_qz1).
  - vm_compute. reflexivity.
  - vm_compute. reflexivity.
  - left. reflexivity.
Defined.

Lemma step_writes_committed_values_witness :
  exists v s b x b',
    resolve_variable (VARIABLES ex_graph) ex_qz1 = Ok v /\
    dict_get (sample ex_frame) ex_z1 = Some s /\
    lookup_buffer (buffers ex_session) v = Some b /\
    eval_merged Zbackend ex_session ex_accept s = Some x /\
    lookup_buffer (buffers ex_session_accepted) v = Some b' /\
    List.length b' = List.length b /\
    nth_error b' (Z.to_nat (t ex_session)) = Some x /\
    (forall i, i <> Z.to_nat (t ex_session) -> nth_error b' i = nth_error b i).
Proof.
  apply (@step_writes_committed_values Z Z Z Zbackend ex_model ex_graph ex_frame
           ex_graph' ex_session ex_accept ex_session_accepted ex_z1 ex_qz1).
  - reflexivity.
  - exact ex_separate_buffers.
  - vm_compute. reflexivity.
  - vm_compute. reflexivity.
  - left. reflexivity.
Defined.

Lemma rejected_step_repeats_previous_sample_witness :
  exists b x,
    lookup_buffer (buffers ex_session_later) "qz1" = Some b /\
    nth_error b (Z.to_nat (Z.max (t ex_session_later - 1) 0)) = Some x /\
    lookup_buffer (buffers ex_session_repeated) "qz1" =
      Some (set_nth b (Z.to_nat (t ex_session_later)) x) /\
    (t ex_session_later = 0%Z ->
     lookup_buffer (buffers ex_session_repeated) "qz1" = Some b) /\
    n_accept ex_session_repeated = n_accept ex_session_later.
Proof.
  apply (@rejected_step_repeats_previous_sample Z Z Z Zbackend ex_model ex_graph
           ex_frame ex_graph' ex_session_later ex_reject ex_session_repeated
           ex_z1 ex_qz1 "qz1").
  - reflexivity.
  - reflexivity.
  - exact ex_separate_buffers.
  - vm_compute. reflexivity.
  - vm_compute. reflexivity.
  - vm_compute. reflexivity.
  - left. reflexivity.
  - exact ex_directly_parameterized.
Defined.

Lemma accepted_step_stores_proposal_witness :
  exists v b uid vs,
    resolve_variable (VARIABLES ex_graph) ex_qz1 = Ok v /\
    lookup_buffer (buffers ex_session) v = Some b /\
    eval_dict Zbackend ex_session ex_accept (dict_swap_old ex_frame) = Some vs /\
    lookup_buffer (buffers ex_session_accepted) v =
      Some (set_nth b (Z.to_nat (t ex_session))
              (sample_sem Zbackend (RandomVariable 11) vs "proposal_znew"
                 (noise ex_accept uid))) /\
    n_accept ex_session_accepted = (n_accept ex_session + 1)%Z.
Proof.
  apply (@accepted_step_stores_proposal Z Z Z Zbackend ex_model ex_graph ex_frame
           ex_graph' ex_session ex_accept ex_session_accepted ex_z1 ex_qz1
           (RandomVariable 11)).
  - reflexivity.
  - exact ex_separate_buffers.
  - vm_compute. reflexivity.
  - vm_compute. reflexivity.
  - vm_compute. reflexivity.
  - left. reflexivity.
  - left. reflexivity.
Defined.

Lemma update_op_structure_witness :
  exists ops,
    train ex_frame = ops ++ [AssignAdd_n_accept (accept ex_frame) 1 0] /\
    Forall2 (store_op (VARIABLES ex_graph) (sample ex_frame))
            (latent_vars ex_model) ops /\
    List.length (train ex_frame) = List.length (latent_vars ex_model) + 1.
Proof.
  apply (@update_op_structure Z ex_model ex_graph ex_frame ex_graph').
  vm_compute. reflexivity.
Defined.

(** ** Exceptions of the lookup behind a handle *)

Section HandleErrors.

Variable Val : Type.

Lemma build_update_until_stores (self : MetropolisHastings Val) g :
  well_formed self = true ->
  keys_correspond (latent_vars self) (proposal_vars self) ->
  latent_vars self <> [] ->
  exists sample g1 (k : list (assign_op Val) -> Build (frame Val)),
    VARIABLES g1 = VARIABLES g /\
    (forall z, In z (iterkeys (latent_vars self)) ->
       exists s, dict_get sample z = Some s) /\
    build_update self g = bind (update_empirical (latent_vars self) sample) k g1.
Proof.
  intros Hwf Hkeys Hne.
  pose proof (well_formed_NoDup _ Hwf) as [HL [HP HD]].
  unfold build_update.
  rewrite (@bind_Ok _ _ _ _ _ _ _ (build_dict_swap_spec (data self) g)).
  set (ds := dict_of_items (swap_items (List.length (sample_ops g)) (data self))).
  set (os := build_old_sample (latent_vars self)).
  set (dso := dict_update ds os).
  rewrite (@bind_Ok _ _ _ _ _ _ _ (forward_pass_spec dso (proposal_vars self) _)).
  cbn [sample_ops VARIABLES].
  set (ns := dict_of_items
               (forward_items dso
                  (List.length (sample_ops g ++ conditional_ops (data self)))
                  (proposal_vars self))).
  set (dsn := dict_update ds ns).
  assert (iterkeys os = iterkeys (latent_vars self)) as Ko
    by (apply iterkeys_build_old_sample; exact HL).
  assert (iterkeys ns = iterkeys (proposal_vars self)) as Kn.
  { unfold ns. rewrite new_sample_distinct by exact HP.
    apply iterkeys_forward_items. }
  assert (forall z, In z (iterkeys (latent_vars self)) ->
                    (exists v, dict_get dsn z = Some v) /\
                    (exists v, dict_get dso z = Some v)) as Hlook.
  { intros z Hz. split.
    - destruct (In_keys_dict_get ns z) as [v Hv];
        [rewrite Kn; apply Hkeys; exact Hz|].
      exists v. unfold dsn. rewrite dict_get_update, Hv; [reflexivity|].
      rewrite Kn. exact HP.
    - destruct (In_keys_dict_get os z) as [v Hv]; [rewrite Ko; exact Hz|].
      exists v. unfold dso. rewrite dict_get_update, Hv; [reflexivity|].
      rewrite Ko. exact HL. }
  match goal with
  | |- context [bind (reverse_pass _ _ _ ?r1) _ ?gg] =>
      assert (exists r2, reverse_pass (proposal_vars self) dso dsn r1 gg = Ok (r2, gg))
        as [r2 Hr2]; [apply reverse_pass_ok|]
  end.
  { intros zp Hin. apply Hlook. apply Hkeys. apply (in_map fst) in Hin. exact Hin. }
  rewrite (@bind_Ok _ _ _ _ _ _ _ Hr2).
  match goal with
  | |- context [bind ?m _ ?gg] =>
      assert (exists r3, m gg = Ok (r3, gg)) as [r3 Hr3]
  end.
  { destruct (model_wrapper self) as [wrapper|].
    - eexists. reflexivity.
    - assert (exists rp,
                 prior_terms (latent_vars self) dso dsn r2
                   {| VARIABLES := VARIABLES g;
                      sample_ops := (sample_ops g ++ conditional_ops (data self))
                                      ++ proposal_ops (proposal_vars self) |} =
                 Ok (rp, {| VARIABLES := VARIABLES g;
                            sample_ops := (sample_ops g ++ conditional_ops (data self))
                                            ++ proposal_ops (proposal_vars self) |}))
        as [rp Hrp]; [apply prior_terms_ok|].
      { intros zqz Hin. apply Hlook. apply (in_map fst) in Hin. exact Hin. }
      rewrite (@bind_Ok _ _ _ _ _ _ _ Hrp).
      apply likelihood_terms_ok. intros xqx Hin Hx.
      apply In_keys_dict_get. unfold ds.
      rewrite dict_of_items_distinct
        by (rewrite iterkeys_swap_items; apply NoDup_filter; exact HD).
      rewrite iterkeys_swap_items. apply filter_In.
      split; [apply (in_map fst) in Hin; exact Hin | exact Hx]. }
  rewrite (@bind_Ok _ _ _ _ _ _ _ Hr3). unfold bind at 1. cbn [uniform_sample].
  assert (List.length (itervalues ns) = List.length (itervalues os)) as Hlen.
  { unfold itervalues. rewrite !length_map.
    rewrite <- (length_map fst ns), <- (length_map fst os).
    fold (iterkeys ns) (iterkeys os). rewrite Kn, Ko.
    apply Nat.le_antisymm; apply NoDup_incl_length; try assumption;
      intros k Hk; apply Hkeys; exact Hk. }
  assert (itervalues ns <> []) as Hnn.
  { intros E. rewrite E in Hlen. cbn in Hlen. symmetry in Hlen.
    apply length_zero_iff_nil in Hlen.
    unfold itervalues in Hlen. apply map_eq_nil in Hlen.
    apply Hne. assert (iterkeys (latent_vars self) = []) as E'
      by (rewrite <- Ko, Hlen; reflexivity).
    unfold iterkeys in E'. apply map_eq_nil in E'. exact E'. }
  match goal with
  | |- context [tf_cond ?pred _ _] =>
      destruct (@tf_cond_ok _ pred (itervalues ns) (itervalues os)
                  {| VARIABLES := VARIABLES g;
                     sample_ops := ((sample_ops g ++ conditional_ops (data self))
                                      ++ proposal_ops (proposal_vars self))
                                     ++ [UniformSample] |} Hlen Hnn)
        as [cr Hcr];
      pose proof (tf_cond_inv _ _ _ _ Hcr) as [_ [_ [_ Hcr']]]
  end.
  rewrite (@bind_Ok _ _ _ _ _ _ _ Hcr).
  eexists. eexists. eexists. split; [|split]; [| |reflexivity].
  - reflexivity.
  - intros z Hin.
    apply In_keys_dict_get. rewrite Hcr'. cbn [sample_ops VARIABLES].
    assert (iterkeys
              (combine (iterkeys ns)
                 (merge_outputs
                    {| u_uid :=
                         List.length
                           ((sample_ops g ++ conditional_ops (data self))
                              ++ proposal_ops (proposal_vars self));
                       ratio_of := r3 |}
                    (itervalues ns) (itervalues os))) = iterkeys ns) as Kc.
    { unfold iterkeys at 1. apply map_fst_combine.
      rewrite length_merge_outputs by exact Hlen.
      unfold iterkeys, itervalues. rewrite !length_map. reflexivity. }
    rewrite dict_of_items_distinct by (rewrite Kc, Kn; exact HP).
    rewrite Kc, Kn. apply Hkeys. exact Hin.
Qed.

Lemma resolve_variable_Raise (variables : list string) (qz : Empirical) e :
  resolve_variable variables qz = Raise e ->
  (e = IndexError /\
   forall a b, ~ (hd_error (inputs (params qz)) = Some a /\
                  hd_error (inputs a) = Some b)) \/
  (e = KeyError /\
   exists a b,
     hd_error (inputs (params qz)) = Some a /\
     hd_error (inputs a) = Some b /\
     ~ In (name b) variables).
Proof.
  unfold resolve_variable, op_inputs_0.
  destruct (inputs (params qz)) as [|a l]; cbn [hd_error].
  { intros [= <-]. left. split; [reflexivity|]. intros a b [Ha _]. discriminate. }
  destruct (inputs a) as [|b l'] eqn:Ea; cbn [hd_error].
  { intros [= <-]. left. split; [reflexivity|]. intros a' b [Ha Hb].
    injection Ha as <-. rewrite Ea in Hb. discriminate. }
  unfold variables_getitem.
  destruct (existsb (String.eqb (name b)) variables) eqn:E; [discriminate|].
  intros [= <-]. right. split; [reflexivity|].
  exists a, b. rewrite Ea. split; [reflexivity|]. split; [reflexivity|].
  intros Hin.
  assert (existsb (String.eqb (name b)) variables = true) as E'.
  { apply existsb_exists. exists (name b). split; [exact Hin | apply String.eqb_refl]. }
  congruence.
Qed.

Lemma update_empirical_raises (L1 L2 : dict Empirical) z qz
  (sample : dict (merged Val)) g e :
  (forall zqz, In zqz L1 ->
     (exists v, resolve_variable (VARIABLES g) (snd zqz) = Ok v) /\
     (exists s, dict_get sample (fst zqz) = Some s)) ->
  resolve_variable (VARIABLES g) qz = Raise e ->
  update_empirical (L1 ++ (z, qz) :: L2) sample g = Raise e.
Proof.
  unfold update_empirical, get_collection_VARIABLES. unfold bind at 1.
  intros H He.
  match goal with
  | |- for_each ?body _ _ g = _ =>
      enough (forall ops0, for_each body (L1 ++ (z, qz) :: L2) ops0 g = Raise e)
        as E by apply E
  end.
  revert H. induction L1 as [|[z1 qz1] L1 IH]; intros H ops0.
  - cbn [app for_each fst snd]. unfold bind at 1. unfold bind at 1.
    unfold lift. rewrite He. reflexivity.
  - destruct (H (z1, qz1) (or_introl eq_refl)) as [[v Hv] [s0 Hs]].
    cbn [fst snd] in Hv, Hs.
    cbn [app for_each fst snd]. unfold bind at 1. unfold bind at 1.
    unfold lift. rewrite Hv. unfold bind at 1.
    rewrite (getitem_Some _ _ g Hs). cbn [ret].
    apply IH. intros zqz Hin. apply H. right. exact Hin.
Qed.

(** X14.  When the dictionaries are in order, the first latent variable
    whose handle leads to no variable decides the exception of
    [build_update]: IndexError when there is no tensor two inputs above
    [qz.params], KeyError when there is one and it is not a variable of the
    graph. *)
Theorem unresolved_handle_exception
  (self : MetropolisHastings Val) g L1 z qz L2 e :
  well_formed self = true ->
  keys_correspond (latent_vars self) (proposal_vars self) ->
  latent_vars self = L1 ++ (z, qz) :: L2 ->
  (forall z1 qz1, In (z1, qz1) L1 ->
     exists v, resolve_variable (VARIABLES g) qz1 = Ok v) ->
  resolve_variable (VARIABLES g) qz = Raise e ->
  build_update self g = Raise e /\
  ((e = IndexError /\
    forall a b, ~ (hd_error (inputs (params qz)) = Some a /\
                   hd_error (inputs a) = Some b)) \/
   (e = KeyError /\
    exists a b,
      hd_error (inputs (params qz)) = Some a /\
      hd_error (inputs a) = Some b /\
      ~ In (name b) (VARIABLES g))).
Proof.
  intros Hwf Hkeys HL Hres He. split; [|exact (resolve_variable_Raise _ _ He)].
  destruct (build_update_until_stores self g Hwf Hkeys)
    as [sample [g1 [k [Hg [Hs ->]]]]].
  { rewrite HL. destruct L1; discriminate. }
  unfold bind. rewrite HL, (update_empirical_raises L1 L2 z qz sample g1 (e := e)).
  - reflexivity.
  - intros [z1 qz1] Hin. cbn [fst snd]. rewrite Hg. split.
    + exact (Hres z1 qz1 Hin).
    + apply Hs. rewrite HL.
      assert (In (z1, qz1) (L1 ++ (z, qz) :: L2)) as Hin'
        by (apply in_or_app; left; exact Hin).
      apply (in_map fst) in Hin'. exact Hin'.
  - rewrite Hg. exact He.
Qed.

End HandleErrors.

Lemma unresolved_handle_exception_witness :
  build_update ex_deep ex_graph = Raise KeyError /\
  ((KeyError = IndexError /\
    forall a b, ~ (hd_error (inputs (levels 3 "qz1")) = Some a /\
                   hd_error (inputs a) = Some b)) \/
   (KeyError = KeyError /\
    exists a b,
      hd_error (inputs (levels 3 "qz1")) = Some a /\
      hd_error (inputs a) = Some b /\
      ~ In (name b) (VARIABLES ex_graph))).
Proof.
  apply (@unresolved_handle_exception Z ex_deep ex_graph [] ex_z1
           {| params := levels 3 "qz1" |} [] KeyError).
  - reflexivity.
  - intros k. simpl. tauto.
  - reflexivity.
  - intros z1 qz1 [].
  - reflexivity.
Defined.

(** ** Steps that run *)

Section Totality.

Variables Val R Noise : Type.
Variable B : backend Val R Noise.

Lemma In_dict_set {V} (d : dict V) k v kv :
  In kv (dict_set d k v) -> kv = (k, v) \/ In kv d.
Proof.
  induction d as [|[k0 v0] d IH]; simpl.
  - intros [H|[]]. left. symmetry. exact H.
  - destruct (node_eqb k k0) eqn:E; simpl.
    + apply node_eqb_eq in E. subst k0. intros [H|H].
      * left. symmetry. exact H.
      * right. right. exact H.
    + intros [H|H]; [right; left; exact H|].
      destruct (IH H) as [H'|H']; [left; exact H' | right; right; exact H'].
Qed.

Lemma In_dict_update {V} (e d : dict V) kv :
  In kv (dict_update d e) -> In kv d \/ In kv e.
Proof.
  unfold dict_update. revert d. induction e as [|[k v] e IH]; simpl; intros d H.
  - left. exact H.
  - destruct (IH _ H) as [H'|H'].
    + apply In_dict_set in H'. destruct H' as [H'|H'].
      * right. left. symmetry. exact H'.
      * left. exact H'.
    + right. right. exact H'.
Qed.

Lemma In_dict_of_items {V} (items : list (node * V)) kv :
  In kv (dict_of_items items) -> In kv items.
Proof.
  intros H. apply (In_dict_update items []) in H. destruct H as [[]|H]. exact H.
Qed.

Lemma Forall2_In_r {A C} (P : A -> C -> Prop) l l' c :
  Forall2 P l l' -> In c l' -> exists a, In a l /\ P a c.
Proof.
  induction 1 as [|a c0 l l' Hac HF IH]; intros Hin; [destruct Hin|].
  destruct Hin as [<-|Hin].
  - exists a. split; [left; reflexivity | exact Hac].
  - destruct (IH Hin) as [a' [Ha' Hp]]. exists a'. split; [right|]; assumption.
Qed.

Section Evaluation.

Variable st : session Val.
Variable w : draws Val Noise.

Lemma eval_dict_total (d : dict (tensor Val)) :
  (forall k x, In (k, x) d -> eval_tensor B st w x <> None) ->
  eval_dict B st w d <> None.
Proof.
  induction d as [|[k x] d IH]; intros H; cbn [eval_dict fst snd]; [discriminate|].
  destruct (eval_tensor B st w x) eqn:Ex.
  - destruct (eval_dict B st w d) eqn:Ed; [discriminate|].
    exfalso. apply IH; [|reflexivity]. intros k' x' Hin. apply (H k'). right. exact Hin.
  - exfalso. apply (H k x); [left; reflexivity | exact Ex].
Qed.

Lemma eval_swap_items (D : dict (datum Val)) :
  forall n k x, In (k, x) (swap_items n D) -> eval_tensor B st w x <> None.
Proof.
  induction D as [|[x0 qx] D IH]; intros n k x H; [destruct H|].
  cbn [swap_items fst snd] in H.
  destruct (isinstance_RandomVariable x0); [|exact (IH _ _ _ H)].
  destruct qx as [[i|i]|a]; destruct H as [H|H]; try exact (IH _ _ _ H);
    injection H as _ <-; cbn; discriminate.
Qed.

Lemma eval_old_items (L : dict Empirical) k x :
  session_fits L st 1 ->
  In (k, x)
     (map (fun zqz => (fst zqz,
                       @Gather Val (params (snd zqz))
                         (IMaximum (ISub T (IConst 1)) (IConst 0)))) L) ->
  eval_tensor B st w x <> None.
Proof.
  intros Hfit Hin. apply in_map_iff in Hin. destruct Hin as [[z qz] [E Hin]].
  injection E as _ <-. cbn [fst snd].
  destruct (Hfit z qz Hin) as [v [b [Hd [Hb [H0 H1]]]]].
  rewrite (eval_gather_last B st w (params qz)
             (eq_trans (@eval_handle_direct _ _ _ B st qz v Hd) Hb)).
  unfold gather.
  assert (in_range b (Z.max (t st - 1) 0) = true) as Hr
    by (apply in_range_iff; lia).
  rewrite Hr. intros Hn. apply nth_error_None in Hn. lia.
Qed.

Lemma eval_forward_items (dso : dict (tensor Val)) (P : dict node) :
  eval_dict B st w dso <> None ->
  forall n k x, In (k, x) (forward_items dso n P) ->
    eval_tensor B st w x <> None.
Proof.
  intros Hd. induction P as [|[z p] P IH]; intros n k x H; [destruct H|].
  cbn [forward_items fst snd] in H. destruct H as [H|H]; [|exact (IH _ _ _ H)].
  injection H as _ <-. rewrite eval_tensor_Value.
  destruct (eval_dict B st w dso); [discriminate | contradiction].
Qed.

Lemma eval_accumulate (terms : list (sign * scalar Val)) :
  forall r,
    eval_ratio B st w r <> None ->
    (forall tm, In tm terms -> eval_scalar B st w (snd tm) <> None) ->
    eval_ratio B st w (accumulate r terms) <> None.
Proof.
  unfold accumulate.
  induction terms as [|[sg s] terms IH]; intros r Hr H; [exact Hr|].
  cbn [fold_left fst snd]. apply IH.
  - assert (eval_scalar B st w s <> None) as Hs
      by exact (H (sg, s) (or_introl eq_refl)).
    destruct sg; cbn [eval_ratio];
      destruct (eval_ratio B st w r); try contradiction;
      destruct (eval_scalar B st w s); try contradiction; discriminate.
  - intros tm Hin. apply H. right. exact Hin.
Qed.

Lemma eval_LogProb org (swap : dict (tensor Val)) scope x :
  eval_dict B st w swap <> None ->
  eval_tensor B st w x <> None ->
  eval_scalar B st w (LogProb org swap scope x) <> None.
Proof.
  intros Hs Hx. cbn [eval_scalar].
  destruct (eval_dict B st w swap); [|contradiction].
  destruct (eval_tensor B st w x); [discriminate | contradiction].
Qed.

Lemma eval_WrapperLogProb wrapper (x : dict (datum Val)) (zs : dict (tensor Val)) :
  eval_dict B st w zs <> None ->
  eval_scalar B st w (WrapperLogProb wrapper x zs) <> None.
Proof.
  intros Hs. cbn [eval_scalar].
  destruct (eval_dict B st w zs); [discriminate | contradiction].
Qed.

(** In a session that fits, every tensor of the frame has a value. *)
Lemma built_evaluable (self : MetropolisHastings Val) g fr g' :
  well_formed self = true ->
  build_update self g = Ok (fr, g') ->
  session_fits (latent_vars self) st 1 ->
  (forall k x, In (k, x) (old_sample fr) -> eval_tensor B st w x <> None) /\
  (forall k x, In (k, x) (dict_swap fr) -> eval_tensor B st w x <> None) /\
  (forall k x, In (k, x) (dict_swap_old fr) -> eval_tensor B st w x <> None) /\
  (forall k x, In (k, x) (new_sample fr) -> eval_tensor B st w x <> None) /\
  (forall k x, In (k, x) (dict_swap_new fr) -> eval_tensor B st w x <> None).
Proof.
  intros Hwf H Hfit.
  pose proof (well_formed_NoDup _ Hwf) as [HL _].
  apply build_update_inv in H. destruct H.
  assert (forall k x, In (k, x) (old_sample fr) -> eval_tensor B st w x <> None)
    as Ho.
  { intros k x Hin. rewrite built_old0, build_old_sample_distinct in Hin by exact HL.
    exact (@eval_old_items (latent_vars self) k x Hfit Hin). }
  assert (forall k x, In (k, x) (dict_swap fr) -> eval_tensor B st w x <> None)
    as Hs.
  { intros k x Hin. rewrite built_swap0 in Hin. apply In_dict_of_items in Hin.
    exact (@eval_swap_items _ _ k x Hin). }
  assert (forall k x, In (k, x) (dict_swap_old fr) -> eval_tensor B st w x <> None)
    as Hso.
  { intros k x Hin. rewrite built_swap_old0 in Hin. apply In_dict_update in Hin.
    destruct Hin as [Hin|Hin]; [exact (Hs _ _ Hin) | exact (Ho _ _ Hin)]. }
  assert (forall k x, In (k, x) (new_sample fr) -> eval_tensor B st w x <> None)
    as Hn.
  { intros k x Hin. rewrite built_new0 in Hin. apply In_dict_of_items in Hin.
    exact (@eval_forward_items _ _ (@eval_dict_total _ Hso) _ k x Hin). }
  repeat split; try assumption.
  intros k x Hin. rewrite built_swap_new0 in Hin. apply In_dict_update in Hin.
  destruct Hin as [Hin|Hin]; [exact (Hs _ _ Hin) | exact (Hn _ _ Hin)].
Qed.

Lemma eval_ratio_built (self : MetropolisHastings Val) g fr g' :
  well_formed self = true ->
  build_update self g = Ok (fr, g') ->
  session_fits (latent_vars self) st 1 ->
  eval_ratio B st w (ratio fr) <> None.
Proof.
  intros Hwf H Hfit.
  destruct (@built_evaluable self g fr g' Hwf H Hfit) as [Ho [Hs [Hso [Hn Hsn]]]].
  pose proof (@eval_dict_total _ Ho) as Eo.
  pose proof (@eval_dict_total _ Hn) as En.
  pose proof (@eval_dict_total _ Hso) as Eso.
  pose proof (@eval_dict_total _ Hsn) as Esn.
  destruct (ratio_terms_built _ _ Hwf H)
    as [_ [_ [fwd [rev [tgt [Hr [Hf [Hv Ht]]]]]]]].
  rewrite Hr. apply eval_accumulate; [cbn; discriminate|].
  intros tm Hin. apply in_app_or in Hin. destruct Hin as [Hin|Hin].
  { destruct (@Forall2_In_r _ _ _ _ _ _ Hf Hin) as [zp [_ [v [Hg ->]]]]. cbn [snd].
    apply eval_LogProb; [exact Eso|].
    apply dict_get_Some_In in Hg. exact (Hn _ _ Hg). }
  apply in_app_or in Hin. destruct Hin as [Hin|Hin].
  { destruct (@Forall2_In_r _ _ _ _ _ _ Hv Hin) as [zp [_ [v [Hg ->]]]]. cbn [snd].
    apply eval_LogProb; [exact Esn|].
    apply dict_get_Some_In in Hg. exact (Ho _ _ Hg). }
  unfold target_terms in Ht. destruct (model_wrapper self) as [wrapper|].
  { subst tgt. destruct Hin as [<-|[<-|[]]]; cbn [snd];
      apply eval_WrapperLogProb; assumption. }
  destruct Ht as [pri [lik [-> [Hp Hl]]]].
  apply in_app_or in Hin.
  destruct Hin as [Hin|Hin]; apply in_concat in Hin;
    destruct Hin as [grp [Hg Hin]].
  - destruct (@Forall2_In_r _ _ _ _ _ _ Hp Hg) as [zqz [_ [vn [vo [Hvn [Hvo ->]]]]]].
    apply dict_get_Some_In in Hvn. apply dict_get_Some_In in Hvo.
    destruct Hin as [<-|[<-|[]]]; cbn [snd]; apply eval_LogProb;
      try assumption; [exact (Hn _ _ Hvn) | exact (Ho _ _ Hvo)].
  - destruct (@Forall2_In_r _ _ _ _ _ _ Hl Hg) as [xqx [_ Hlg]].
    unfold likelihood_group in Hlg.
    destruct (isinstance_RandomVariable (fst xqx)).
    + destruct Hlg as [v [Hv' ->]]. apply dict_get_Some_In in Hv'.
      destruct Hin as [<-|[<-|[]]]; cbn [snd]; apply eval_LogProb;
        try assumption; exact (Hs _ _ Hv').
    + subst grp. destruct Hin.
Qed.

Lemma eval_accept_built (self : MetropolisHastings Val) g fr g' :
  well_formed self = true ->
  build_update self g = Ok (fr, g') ->
  session_fits (latent_vars self) st 1 ->
  eval_accept B st w (accept fr) <> None.
Proof.
  intros Hwf H Hfit. pose proof (@eval_ratio_built self g fr g' Hwf H Hfit) as Hr.
  apply build_update_inv in H. destruct H.
  rewrite built_accept0. unfold eval_accept. cbn [ratio_of u_uid].
  destruct (eval_ratio B st w (ratio fr)); [discriminate | contradiction].
Qed.

Lemma eval_sample_entry (self : MetropolisHastings Val) g fr g' k m :
  well_formed self = true ->
  build_update self g = Ok (fr, g') ->
  session_fits (latent_vars self) st 1 ->
  In (k, m) (sample fr) ->
  eval_merged B st w m <> None.
Proof.
  intros Hwf H Hfit Hin.
  destruct (@built_evaluable self g fr g' Hwf H Hfit) as [Ho [_ [_ [Hn _]]]].
  pose proof (@eval_accept_built self g fr g' Hwf H Hfit) as Ha.
  rewrite (sample_items _ _ Hwf H) in Hin. apply in_combine_r in Hin.
  unfold merge_outputs in Hin. apply in_map_iff in Hin.
  destruct Hin as [[vo vn] [<- Hin]]. cbn [fst snd].
  pose proof (in_combine_l _ _ _ _ Hin) as Io.
  pose proof (in_combine_r _ _ _ _ Hin) as In'.
  unfold itervalues in Io, In'.
  apply in_map_iff in Io. destruct Io as [[ko xo] [Eo Io]]. cbn in Eo. subst xo.
  apply in_map_iff in In'. destruct In' as [[kn xn] [En In']]. cbn in En. subst xn.
  apply Ho in Io. apply Hn in In'. cbn [eval_merged].
  destruct (eval_accept B st w (accept fr)); [|contradiction].
  destruct (eval_tensor B st w vn); [|contradiction].
  destruct (eval_tensor B st w vo); [discriminate | contradiction].
Qed.

Lemma run_store_ops_total variables (sample : dict (merged Val))
  (L : dict Empirical) ops :
  Forall2 (store_op variables sample) L ops ->
  session_fits L st 1 ->
  (forall k m, In (k, m) sample -> eval_merged B st w m <> None) ->
  forall acc,
    (forall v, option_map (@List.length Val) (lookup_buffer (buffers acc) v) =
               option_map (@List.length Val) (lookup_buffer (buffers st) v)) ->
    exists acc', run_ops B st w ops acc = Some acc'.
Proof.
  induction 1 as [|[z qz] o L ops Ho HF IH]; intros Hfit Hev acc Hlen.
  - exists acc. reflexivity.
  - destruct Ho as [v [s [Hv [Hs ->]]]]. cbn [fst snd] in *.
    destruct (Hfit z qz (or_introl eq_refl)) as [v' [b [Hd [Hb [H0 H1]]]]].
    pose proof (@direct_resolves _ _ _ _ Hd Hv) as ->.
    pose proof (Hlen v') as Hl. rewrite Hb in Hl. cbn [option_map] in Hl.
    destruct (lookup_buffer (buffers acc) v') as [b'|] eqn:Eb; [|discriminate].
    injection Hl as Hl.
    assert (eval_merged B st w s <> None) as Hx
      by (apply (Hev z); apply dict_get_Some_In; exact Hs).
    destruct (eval_merged B st w s) as [x|] eqn:Ex; [|contradiction].
    cbn [run_ops run_op eval_index]. rewrite Ex. unfold scatter_update.
    rewrite Eb.
    assert (in_range b' (t st) = true) as Hr by (apply in_range_iff; lia).
    rewrite Hr. apply IH.
    + intros z' qz' Hin. exact (Hfit z' qz' (or_intror Hin)).
    + exact Hev.
    + intros u. cbn [buffers]. rewrite <- Hlen.
      apply (@lookup_store_length _ (buffers acc) v' u _ b' Eb).
      apply length_set_nth.
Qed.

(** In a session that fits, the update op runs. *)
Lemma step_runs (self : MetropolisHastings Val) g fr g' :
  well_formed self = true ->
  build_update self g = Ok (fr, g') ->
  session_fits (latent_vars self) st 1 ->
  exists st', run B (train fr) st w = Some st'.
Proof.
  intros Hwf H Hfit.
  pose proof (@eval_accept_built self g fr g' Hwf H Hfit) as Ha.
  pose proof H as H'. apply build_update_inv in H'. destruct H'.
  destruct built_train0 as [ops [Ht HF]].
  destruct (@run_store_ops_total _ _ _ _ HF Hfit
              (fun k m => @eval_sample_entry self g fr g' k m Hwf H Hfit)
              st (fun v => eq_refl)) as [acc Hacc].
  unfold run. rewrite Ht, run_ops_app, Hacc. cbn [run_ops run_op].
  destruct (eval_accept B st w (accept fr)); [|contradiction].
  eexists. reflexivity.
Qed.

End Evaluation.

End Totality.

(** ** The store, the accept counter and the model wrapper *)

Section Steps.

Variables Val R Noise : Type.
Variable B : backend Val R Noise.

Lemma session_fits_le (L : dict Empirical) (st : session Val) k k' :
  k' <= k -> session_fits L st k -> session_fits L st k'.
Proof.
  intros Hk Hfit z qz Hin.
  destruct (Hfit z qz Hin) as [v [b [Hd [Hb [H0 H1]]]]].
  exists v, b. repeat split; try assumption; lia.
Qed.

(** A step uses up one position of every buffer. *)
Lemma session_fits_next (self : MetropolisHastings Val) g fr g' st w st1 k :
  build_update self g = Ok (fr, g') ->
  session_fits (latent_vars self) st (S k) ->
  run B (train fr) st w = Some st1 ->
  session_fits (latent_vars self) (next_step st1) k.
Proof.
  intros H Hfit Hrun z qz Hin.
  destruct (Hfit z qz Hin) as [v [b [Hd [Hb [H0 H1]]]]].
  destruct (run_train_split B _ _ _ _ H Hrun) as [ops [acc [HF [Hops [Hbs Ht]]]]].
  destruct (run_store_ops_frame B st w HF _ Hops) as [Ht' [_ [Hl _]]].
  pose proof (Hl v) as Hlv. rewrite Hb in Hlv. cbn [option_map] in Hlv.
  unfold next_step. cbn [buffers t]. rewrite Hbs, Ht, Ht'.
  destruct (lookup_buffer (buffers acc) v) as [b'|] eqn:Eb; [|discriminate].
  injection Hlv as Hlv. exists v, b'.
  split; [exact Hd|]. split; [exact Eb|]. split; lia.
Qed.

Lemma steps_run (self : MetropolisHastings Val) g fr g'
  (ws : nat -> draws Val Noise) :
  well_formed self = true ->
  build_update self g = Ok (fr, g') ->
  forall k st,
    session_fits (latent_vars self) st k ->
    exists st', reaches B (train fr) st k st'.
Proof.
  intros Hwf H. induction k as [|k IH]; intros st Hfit.
  - exists st. constructor.
  - assert (session_fits (latent_vars self) st 1) as Hfit1
      by (apply (@session_fits_le _ st (S k) 1); [lia | exact Hfit]).
    destruct (@step_runs _ _ _ B st (ws k) self g fr g' Hwf H Hfit1) as [st1 Hrun].
    destruct (IH _ (@session_fits_next self g fr g' st (ws k) st1 k H Hfit Hrun))
      as [st2 Hreach].
    exists st2. exact (reaches_S _ _ Hrun Hreach).
Qed.

(** C6.  For a latent variable [z] whose Empirical is built on the variable
    [v], in a session that holds the buffers with room at position [t]:
    [old_sample[z]] gathers [qz.params] at the index [max(t - 1, 0)], which
    is [0] at [t = 0] and always an index of the buffer, so the old sample
    read is the element of the buffer at that position (the first one at
    [t = 0]).  The step runs, and when no two latent variables share a
    buffer it replaces the element at position [t] of the buffer of [v] by
    the committed value: the new sample of [z] when the step is accepted,
    and, with both dictionaries in the same key order, the old sample of
    [z] when it is not. *)
Theorem read_previous_write_current
  (self : MetropolisHastings Val) g fr g' st w z qz :
  well_formed self = true ->
  separate_buffers (VARIABLES g) (latent_vars self) ->
  build_update self g = Ok (fr, g') ->
  session_fits (latent_vars self) st 1 ->
  In (z, qz) (latent_vars self) ->
  dict_get (old_sample fr) z =
    Some (Gather (params qz) (IMaximum (ISub T (IConst 1)) (IConst 0))) /\
  (forall now,
      eval_index now (IMaximum (ISub T (IConst 1)) (IConst 0)) = Z.max (now - 1) 0 /\
      (0 <= eval_index now (IMaximum (ISub T (IConst 1)) (IConst 0)))%Z) /\
  eval_index 0 (IMaximum (ISub T (IConst 1)) (IConst 0)) = 0%Z /\
  exists v b old new a st',
    directly_parameterized qz v /\
    resolve_variable (VARIABLES g) qz = Ok v /\
    lookup_buffer (buffers st) v = Some b /\
    (0 <= Z.max (t st - 1) 0 < Z.of_nat (List.length b))%Z /\
    eval_tensor B st w
      (Gather (params qz) (IMaximum (ISub T (IConst 1)) (IConst 0))) = Some old /\
    nth_error b (Z.to_nat (Z.max (t st - 1) 0)) = Some old /\
    (t st = 0%Z -> hd_error b = Some old) /\
    (exists vn, dict_get (new_sample fr) z = Some vn /\
                eval_tensor B st w vn = Some new) /\
    eval_accept B st w (accept fr) = Some a /\
    run B (train fr) st w = Some st' /\
    t st' = t st /\
    exists x,
      lookup_buffer (buffers st') v = Some (set_nth b (Z.to_nat (t st)) x) /\
      nth_error (set_nth b (Z.to_nat (t st)) x) (Z.to_nat (t st)) = Some x /\
      (a = true -> x = new) /\
      (a = false ->
       iterkeys (latent_vars self) = iterkeys (proposal_vars self) ->
       x = old).
Proof.
  intros Hwf Hsep H Hfit Hin.
  pose proof (well_formed_NoDup _ Hwf) as [HL _].
  assert (dict_get (old_sample fr) z =
          Some (Gather (params qz) (IMaximum (ISub T (IConst 1)) (IConst 0))))
    as Hold.
  { pose proof H as H'. apply build_update_inv in H'. destruct H'.
    rewrite built_old0. apply old_sample_lookup; assumption. }
  split; [exact Hold|].
  split. { intros now. cbn [eval_index]. split; [reflexivity | lia]. }
  split. { reflexivity. }
  destruct (Hfit z qz Hin) as [v [b [Hd [Hb [H0 H1]]]]].
  destruct (@step_runs _ _ _ B st w self g fr g' Hwf H Hfit) as [st' Hrun].
  destruct (@run_train_final _ _ _ B _ _ _ _ _ _ _ _ _ Hwf Hsep H Hrun Hin)
    as [v' [s [b' [x [Hv [Hs [Hb' [Hx [Hr Hf]]]]]]]]].
  pose proof (@direct_resolves _ _ _ _ Hd Hv) as ->.
  rewrite Hb in Hb'. injection Hb' as <-.
  assert (In z (iterkeys (latent_vars self))) as Hz
    by (apply (in_map fst) in Hin; exact Hin).
  destruct (@sample_lookup_new _ _ _ _ _ _ Hwf H Hz) as [vn [vo [Hn Hs']]].
  rewrite Hs in Hs'. injection Hs' as ->.
  cbn [eval_merged] in Hx.
  destruct (eval_accept B st w (accept fr)) as [a|] eqn:Ea; [|discriminate].
  destruct (eval_tensor B st w vn) as [new|] eqn:En; [|discriminate].
  destruct (eval_tensor B st w vo) as [o|] eqn:Eo; [|discriminate].
  injection Hx as Hx.
  assert (in_range b (Z.max (t st - 1) 0) = true) as Hrange
    by (apply in_range_iff; lia).
  pose proof (eval_gather_last B st w (params qz)
                (eq_trans (@eval_handle_direct _ _ _ B st qz v Hd) Hb)) as Hg.
  unfold gather in Hg. rewrite Hrange in Hg.
  destruct (nth_error b (Z.to_nat (Z.max (t st - 1) 0))) as [old|] eqn:Enth.
  2:{ apply nth_error_None in Enth. lia. }
  destruct (run_train_split B _ _ _ _ H Hrun) as [ops [acc [HF [Hops [_ Ht]]]]].
  destruct (run_store_ops_frame B st w HF _ Hops) as [Ht' _].
  exists v, b, old, new, a, st'.
  split; [exact Hd|]. split; [exact Hv|]. split; [exact Hb|].
  split; [apply in_range_iff; exact Hrange|].
  split; [first [exact Hg | reflexivity]|].
  split; [first [exact Enth | reflexivity]|].
  split.
  { intros Ht0. rewrite Ht0 in Enth. cbn in Enth.
    destruct b; [discriminate | exact Enth]. }
  split. { exists vn. split; [exact Hn | first [exact En | reflexivity]]. }
  split; [first [exact Ea | reflexivity]|].
  split; [first [exact Hrun | reflexivity]|].
  split; [congruence|].
  exists x. split; [exact Hf|].
  split. { apply nth_error_set_nth. lia. }
  split.
  - intros ->. symmetry. exact Hx.
  - intros -> Hord.
    destruct (joint_commit_same_order _ _ Hwf H Hord z Hz) as [vn' [vo' [_ [Ho' Hs']]]].
    rewrite Hs in Hs'. injection Hs' as _ Evo.
    rewrite Hold in Ho'. injection Ho' as Ego.
    rewrite Evo, <- Ego, Hg in Eo. congruence.
Qed.

(** C7.  In a session that holds the buffers with room at position [t] the
    step runs, and it adds to [n_accept] one when the step is accepted and
    zero when it is not; no step that runs does anything else to the
    counter.  A session with room for [k] samples admits [k] steps in a
    row, and over any [k] steps the counter does not decrease and grows by
    at most [k]. *)
Theorem n_accept_counts_acceptances (self : MetropolisHastings Val) g fr g' :
  well_formed self = true ->
  build_update self g = Ok (fr, g') ->
  (forall st w,
      session_fits (latent_vars self) st 1 ->
      exists a st',
        eval_accept B st w (accept fr) = Some a /\
        run B (train fr) st w = Some st' /\
        n_accept st' = (n_accept st + (if a then 1 else 0))%Z) /\
  (forall st w st',
      run B (train fr) st w = Some st' ->
      exists a,
        eval_accept B st w (accept fr) = Some a /\
        n_accept st' = (n_accept st + (if a then 1 else 0))%Z /\
        (n_accept st <= n_accept st' <= n_accept st + 1)%Z) /\
  (forall (ws : nat -> draws Val Noise) k st,
      session_fits (latent_vars self) st k ->
      exists st', reaches B (train fr) st k st') /\
  (forall st k st',
      reaches B (train fr) st k st' ->
      (n_accept st <= n_accept st' <= n_accept st + Z.of_nat k)%Z).
Proof.
  intros Hwf H.
  assert (forall st w st',
             run B (train fr) st w = Some st' ->
             exists a,
               eval_accept B st w (accept fr) = Some a /\
               n_accept st' = (n_accept st + (if a then 1 else 0))%Z /\
               (n_accept st <= n_accept st' <= n_accept st + 1)%Z) as Hstep.
  { intros st w st' Hrun.
    destruct (run_train_n_accept B _ _ _ _ H Hrun) as [a [Ha Hn]].
    exists a. split; [exact Ha|]. split; [exact Hn|]. destruct a; lia. }
  split; [|split; [exact Hstep|split]].
  - intros st w Hfit.
    destruct (@step_runs _ _ _ B st w self g fr g' Hwf H Hfit) as [st' Hrun].
    destruct (Hstep _ _ _ Hrun) as [a [Ha [Hn _]]].
    exists a, st'. repeat split; assumption.
  - intros ws k st Hfit.
    exact (@steps_run self g fr g' ws Hwf H k st Hfit).
  - intros st k st' Hreach.
    induction Hreach as [st|st w st1 now k st2 Hrun _ IH]; [lia|].
    destruct (Hstep _ _ _ Hrun) as [a [_ [_ Ha]]]. cbn [n_accept] in IH. lia.
Qed.

(** C10 (as the code has it).  With a model wrapper the two target terms of
    the ratio are the wrapper's log-density of the data dictionary itself,
    as given to the constructor, with [new_sample] and with [old_sample];
    [dict_swap] is not among their arguments.  The term at [old_sample]
    does not depend on what the step draws.  Every [new_sample[z]] is the
    draw of the proposal of [z] copied under [dict_swap_old], which holds
    the entry of [dict_swap] for every key that is not latent: that is the
    way by which an auxiliary draw can reach the term at [new_sample].  In
    a session that holds the buffers both terms have a value. *)
Theorem wrapper_receives_data (self : MetropolisHastings Val) g fr g' wrapper :
  well_formed self = true ->
  model_wrapper self = Some wrapper ->
  build_update self g = Ok (fr, g') ->
  (exists fwd rev,
      ratio fr =
      Sub (Add (accumulate Zero (fwd ++ rev))
               (WrapperLogProb wrapper (data self) (new_sample fr)))
          (WrapperLogProb wrapper (data self) (old_sample fr)) /\
      Forall2 (forward_term (new_sample fr) (dict_swap_old fr))
              (proposal_vars self) fwd /\
      Forall2 (reverse_term (old_sample fr) (dict_swap_new fr))
              (proposal_vars self) rev) /\
  (forall st w w',
      eval_dict B st w (old_sample fr) = eval_dict B st w' (old_sample fr) /\
      eval_scalar B st w (WrapperLogProb wrapper (data self) (old_sample fr)) =
      eval_scalar B st w' (WrapperLogProb wrapper (data self) (old_sample fr))) /\
  (forall z p,
      In (z, p) (proposal_vars self) ->
      exists uid,
        dict_get (new_sample fr) z =
        Some (Value uid p (dict_swap_old fr) "proposal_znew")) /\
  (forall k,
      ~ In k (iterkeys (latent_vars self)) ->
      dict_get (dict_swap_old fr) k = dict_get (dict_swap fr) k) /\
  (forall st w,
      session_fits (latent_vars self) st 1 ->
      exists vn vo,
        eval_dict B st w (new_sample fr) = Some vn /\
        eval_dict B st w (old_sample fr) = Some vo /\
        eval_scalar B st w (WrapperLogProb wrapper (data self) (new_sample fr)) =
          Some (wrapper_log_prob_sem B wrapper (data self) vn) /\
        eval_scalar B st w (WrapperLogProb wrapper (data self) (old_sample fr)) =
          Some (wrapper_log_prob_sem B wrapper (data self) vo)).
Proof.
  intros Hwf Hmw H.
  destruct (ratio_terms_built _ _ Hwf H) as [_ [_ [fwd [rev [tgt [Hr [Hf [Hv Ht]]]]]]]].
  pose proof (well_formed_NoDup _ Hwf) as [HL _].
  pose proof H as H'. apply build_update_inv in H'. destruct H'.
  assert (forall st w w',
             eval_dict B st w (old_sample fr) = eval_dict B st w' (old_sample fr))
    as Hold.
  { intros st w w'.
    rewrite built_old0, build_old_sample_distinct by exact HL.
    apply eval_old_sample_any_draws. }
  split; [|split; [|split; [|split]]].
  - exists fwd, rev. unfold target_terms in Ht. rewrite Hmw in Ht. subst tgt.
    split; [|split; assumption].
    rewrite Hr, app_assoc, accumulate_app. reflexivity.
  - intros st w w'. split; [apply Hold|].
    cbn [eval_scalar]. rewrite (Hold st w w'). reflexivity.
  - intros z p Hin. exact (@new_sample_lookup _ _ _ _ _ _ _ Hwf H Hin).
  - intros k Hk. rewrite built_swap_old0, dict_get_update.
    + assert (dict_get (old_sample fr) k = None) as ->; [|reflexivity].
      apply dict_get_None.
      rewrite built_old0, iterkeys_build_old_sample; assumption.
    + rewrite built_old0, iterkeys_build_old_sample; exact HL.
  - intros st w Hfit.
    destruct (@built_evaluable _ _ _ B st w self g fr g' Hwf H Hfit)
      as [Ho [_ [_ [Hn _]]]].
    pose proof (@eval_dict_total _ _ _ B st w _ Ho) as Eo.
    pose proof (@eval_dict_total _ _ _ B st w _ Hn) as En.
    cbn [eval_scalar].
    destruct (eval_dict B st w (new_sample fr)) as [vn|]; [|contradiction].
    destruct (eval_dict B st w (old_sample fr)) as [vo|]; [|contradiction].
    exists vn, vo. repeat split; reflexivity.
Qed.

End Steps.

Lemma ex_session_fits : session_fits (latent_vars ex_model) ex_session 3.
Proof.
  intros z qz [H|[H|[]]]; injection H as <- <-.
  - exists "qz1"%string, [10; 0; 0]%Z.
    split; [exists "qz1/id/id"%string, "qz1/id"%string; reflexivity|].
    split; [reflexivity|]. cbn. lia.
  - exists "qz2"%string, [20; 0; 0]%Z.
    split; [exists "qz2/id/id"%string, "qz2/id"%string; reflexivity|].
    split; [reflexivity|]. cbn. lia.
Qed.

Lemma ex_session_later_fits :
  session_fits (latent_vars ex_model) ex_session_later 1.
Proof.
  intros z qz [H|[H|[]]]; injection H as <- <-.
  - exists "qz1"%string, [10; 0; 0]%Z.
    split; [exists "qz1/id/id"%string, "qz1/id"%string; reflexivity|].
    split; [reflexivity|]. cbn. lia.
  - exists "qz2"%string, [20; 0; 0]%Z.
    split; [exists "qz2/id/id"%string, "qz2/id"%string; reflexivity|].
    split; [reflexivity|]. cbn. lia.
Qed.

Lemma read_previous_write_current_witness :
  run Zbackend (train ex_frame) ex_session_later ex_reject =
    Some ex_session_repeated /\
  dict_get (old_sample ex_frame) ex_z1 =
    Some (Gather (params ex_qz1) (IMaximum (ISub T (IConst 1)) (IConst 0))) /\
  (forall now,
      eval_index now (IMaximum (ISub T (IConst 1)) (IConst 0)) = Z.max (now - 1) 0 /\
      (0 <= eval_index now (IMaximum (ISub T (IConst 1)) (IConst 0)))%Z) /\
  eval_index 0 (IMaximum (ISub T (IConst 1)) (IConst 0)) = 0%Z /\
  exists v b old new a st',
    directly_parameterized ex_qz1 v /\
    resolve_variable (VARIABLES ex_graph) ex_qz1 = Ok v /\
    lookup_buffer (buffers ex_session_later) v = Some b /\
    (0 <= Z.max (t ex_session_later - 1) 0 < Z.of_nat (List.length b))%Z /\
    eval_tensor Zbackend ex_session_later ex_reject
      (Gather (params ex_qz1) (IMaximum (ISub T (IConst 1)) (IConst 0))) =
      Some old /\
    nth_error b (Z.to_nat (Z.max (t ex_session_later - 1) 0)) = Some old /\
    (t ex_session_later = 0%Z -> hd_error b = Some old) /\
    (exists vn, dict_get (new_sample ex_frame) ex_z1 = Some vn /\
                eval_tensor Zbackend ex_session_later ex_reject vn = Some new) /\
    eval_accept Zbackend ex_session_later ex_reject (accept ex_frame) = Some a /\
    run Zbackend (train ex_frame) ex_session_later ex_reject = Some st' /\
    t st' = t ex_session_later /\
    exists x,
      lookup_buffer (buffers st') v =
        Some (set_nth b (Z.to_nat (t ex_session_later)) x) /\
      nth_error (set_nth b (Z.to_nat (t ex_session_later)) x)
        (Z.to_nat (t ex_session_later)) = Some x /\
      (a = true -> x = new) /\
      (a = false ->
       iterkeys (latent_vars ex_model) = iterkeys (proposal_vars ex_model) ->
       x = old).
Proof.
  split; [vm_compute; reflexivity|].
  apply (@read_previous_write_current Z Z Z Zbackend ex_model ex_graph ex_frame
           ex_graph' ex_session_later ex_reject ex_z1 ex_qz1).
  - reflexivity.
  - exact ex_separate_buffers.
  - vm_compute. reflexivity.
  - exact ex_session_later_fits.
  - left. reflexivity.
Defined.

Lemma n_accept_counts_acceptances_witness :
  (run Zbackend (train ex_frame) ex_session ex_accept =
     Some ex_session_accepted /\
   n_accept ex_session = 0%Z /\ n_accept ex_session_accepted = 1%Z /\
   run Zbackend (train ex_frame) ex_session_later ex_reject =
     Some ex_session_repeated /\
   n_accept ex_session_later = 0%Z /\ n_accept ex_session_repeated = 0%Z) /\
  (forall st w,
      session_fits (latent_vars ex_model) st 1 ->
      exists a st',
        eval_accept Zbackend st w (accept ex_frame) = Some a /\
        run Zbackend (train ex_frame) st w = Some st' /\
        n_accept st' = (n_accept st + (if a then 1 else 0))%Z) /\
  (forall st w st',
      run Zbackend (train ex_frame) st w = Some st' ->
      exists a,
        eval_accept Zbackend st w (accept ex_frame) = Some a /\
        n_accept st' = (n_accept st + (if a then 1 else 0))%Z /\
        (n_accept st <= n_accept st' <= n_accept st + 1)%Z) /\
  (forall (ws : nat -> draws Z Z) k st,
      session_fits (latent_vars ex_model) st k ->
      exists st', reaches Zbackend (train ex_frame) st k st') /\
  (forall st k st',
      reaches Zbackend (train ex_frame) st k st' ->
      (n_accept st <= n_accept st' <= n_accept st + Z.of_nat k)%Z).
Proof.
  split; [vm_compute; repeat split; reflexivity|].
  apply (@n_accept_counts_acceptances Z Z Z Zbackend ex_model ex_graph ex_frame
           ex_graph').
  - reflexivity.
  - vm_compute. reflexivity.
Defined.

Lemma wrapper_receives_data_witness :
  (exists fwd rev,
      ratio ex_oracle_frame =
      Sub (Add (accumulate Zero (fwd ++ rev))
               (WrapperLogProb 0 (data ex_oracle) (new_sample ex_oracle_frame)))
          (WrapperLogProb 0 (data ex_oracle) (old_sample ex_oracle_frame)) /\
      Forall2 (forward_term (new_sample ex_oracle_frame) (dict_swap_old ex_oracle_frame))
              (proposal_vars ex_oracle) fwd /\
      Forall2 (reverse_term (old_sample ex_oracle_frame) (dict_swap_new ex_oracle_frame))
              (proposal_vars ex_oracle) rev) /\
  (forall st w w',
      eval_dict Zbackend_conditioned st w (old_sample ex_oracle_frame) =
      eval_dict Zbackend_conditioned st w' (old_sample ex_oracle_frame) /\
      eval_scalar Zbackend_conditioned st w
        (WrapperLogProb 0 (data ex_oracle) (old_sample ex_oracle_frame)) =
      eval_scalar Zbackend_conditioned st w'
        (WrapperLogProb 0 (data ex_oracle) (old_sample ex_oracle_frame))) /\
  (forall z p,
      In (z, p) (proposal_vars ex_oracle) ->
      exists uid,
        dict_get (new_sample ex_oracle_frame) z =
        Some (Value uid p (dict_swap_old ex_oracle_frame) "proposal_znew")) /\
  (forall k,
      ~ In k (iterkeys (latent_vars ex_oracle)) ->
      dict_get (dict_swap_old ex_oracle_frame) k =
      dict_get (dict_swap ex_oracle_frame) k) /\
  (forall st w,
      session_fits (latent_vars ex_oracle) st 1 ->
      exists vn vo,
        eval_dict Zbackend_conditioned st w (new_sample ex_oracle_frame) = Some vn /\
        eval_dict Zbackend_conditioned st w (old_sample ex_oracle_frame) = Some vo /\
        eval_scalar Zbackend_conditioned st w
          (WrapperLogProb 0 (data ex_oracle) (new_sample ex_oracle_frame)) =
          Some (wrapper_log_prob_sem Zbackend_conditioned 0 (data ex_oracle) vn) /\
        eval_scalar Zbackend_conditioned st w
          (WrapperLogProb 0 (data ex_oracle) (old_sample ex_oracle_frame)) =
          Some (wrapper_log_prob_sem Zbackend_conditioned 0 (data ex_oracle) vo)).
Proof.
  apply (@wrapper_receives_data Z Z Z Zbackend_conditioned ex_oracle ex_graph
           ex_oracle_frame ex_oracle_graph' 0).
  - reflexivity.
  - reflexivity.
  - vm_compute. reflexivity.
Defined.

(** C10 as stated fails: with a model wrapper the auxiliary draw can reach
    a target term.  [dict_swap[ex_beta]] is the first sample op; two
    executions that differ in the noise of that op only, in the same
    session, give the wrapper's term at [new_sample] two values, because
    the proposals are conditioned on [dict_swap_old], which holds that
    draw. *)
Lemma auxiliary_draw_reaches_wrapper_term :
  model_wrapper ex_oracle = Some 0 /\
  build_update ex_oracle ex_graph = Ok (ex_oracle_frame, ex_oracle_graph') /\
  dict_get (dict_swap ex_oracle_frame) ex_beta =
    Some (Value 0 (RandomVariable 14) [] "conditional") /\
  (exists r,
      ratio ex_oracle_frame =
      Sub (Add r (WrapperLogProb 0 (data ex_oracle) (new_sample ex_oracle_frame)))
          (WrapperLogProb 0 (data ex_oracle) (old_sample ex_oracle_frame))) /\
  (forall n, n <> 0 ->
      noise (ex_auxiliary_draw 0) n = noise (ex_auxiliary_draw 1) n) /\
  (forall x, feed (ex_auxiliary_draw 0) x = feed (ex_auxiliary_draw 1) x) /\
  eval_scalar Zbackend_conditioned ex_session (ex_auxiliary_draw 0)
    (WrapperLogProb 0 (data ex_oracle) (new_sample ex_oracle_frame)) =
    Some (-102)%Z /\
  eval_scalar Zbackend_conditioned ex_session (ex_auxiliary_draw 1)
    (WrapperLogProb 0 (data ex_oracle) (new_sample ex_oracle_frame)) =
    Some (-104)%Z.
Proof.
  split; [reflexivity|]. split; [vm_compute; reflexivity|].
  split; [reflexivity|]. split; [eexists; reflexivity|].
  split; [intros [|n] Hn; [contradiction | reflexivity]|].
  split; [reflexivity|]. split; vm_compute; reflexivity.
Qed.
